(** * PlanNUS: the plan validator, requirement matcher and plan mutations

    A shallow embedding of the planning logic of
    [frontend/components/MainBoard.tsx]: the semester order, the set of taken
    modules, requirement matching with the unrestricted-elective overflow,
    the constraint check that fills the two violation maps, the progression
    statistics, the drop / add / delete handlers that mutate the plan, the
    debounced effect that schedules the constraint check, the colouring of
    the requirement checklist, the conversion of a generated plan, and the
    payloads that are saved and exported.  The academic-year options of the
    left sidebar are embedded with the parser of the board that reads them.

    JavaScript strings are modelled as [string] (8-bit characters), numbers
    that hold years, semester ids, indices and credits as [Z], arrays as
    [list], the [Set<string>] of taken modules as a duplicate-free list in
    insertion order, and the two [Map<string, _>] of violations as [gmap]. *)

From Stdlib Require Import ZArith Ascii Bool Lia.
From Stdlib Require DecimalString DecimalZ DecimalPos.
From stdpp Require Import base list strings gmap.

Local Open Scope Z_scope.

(** ** JavaScript string primitives used by the component *)

Module Js.

Definition isUpper (c : ascii) : bool :=
  let n := nat_of_ascii c in (65 <=? n)%nat && (n <=? 90)%nat.

Definition isDigit (c : ascii) : bool :=
  let n := nat_of_ascii c in (48 <=? n)%nat && (n <=? 57)%nat.

Fixpoint every (p : ascii -> bool) (s : string) : bool :=
  match s with
  | EmptyString => true
  | String c s' => p c && every p s'
  end.

(** [s.startsWith(p)] *)
Definition startsWith (s p : string) : bool := String.prefix p s.

(** [s.endsWith(suf)] *)
Definition endsWith (s suf : string) : bool :=
  let n := String.length s in
  let k := String.length suf in
  (k <=? n)%nat && String.eqb (String.substring (n - k) k s) suf.

(** [s.slice(0, -1)] *)
Definition sliceInit (s : string) : string :=
  String.substring 0 (String.length s - 1) s.

(** [s.includes(sub)] *)
Fixpoint includes (s sub : string) : bool :=
  String.prefix sub s ||
  match s with
  | EmptyString => false
  | String _ s' => includes s' sub
  end.

(** [s.split(sep)] for a one-character separator. *)
Fixpoint splitAux (sep : ascii) (cur : string) (s : string) : list string :=
  match s with
  | EmptyString => [cur]
  | String c s' =>
      if Ascii.eqb c sep then cur :: splitAux sep EmptyString s'
      else splitAux sep (cur +:+ String c EmptyString) s'
  end.

Definition split (s : string) (sep : ascii) : list string :=
  splitAux sep EmptyString s.

(** [parseInt(s)] without a radix; [None] stands for [NaN].  An absent
    argument ([undefined]) is passed as [None] and yields [NaN]. *)
Definition isSpace (c : ascii) : bool :=
  let n := nat_of_ascii c in
  ((9 <=? n)%nat && (n <=? 13)%nat) || (n =? 32)%nat.

Fixpoint skipSpaces (s : string) : string :=
  match s with
  | String c s' => if isSpace c then skipSpaces s' else s
  | EmptyString => s
  end.

Definition digitValue (radix : Z) (c : ascii) : option Z :=
  let n := Z.of_nat (nat_of_ascii c) in
  let v :=
    if (48 <=? n) && (n <=? 57) then Some (n - 48)
    else if (97 <=? n) && (n <=? 122) then Some (n - 87)
    else if (65 <=? n) && (n <=? 90) then Some (n - 55)
    else None in
  match v with
  | Some d => if d <? radix then Some d else None
  | None => None
  end.

Fixpoint digitsFrom (radix : Z) (acc : option Z) (s : string) : option Z :=
  match s with
  | EmptyString => acc
  | String c s' =>
      match digitValue radix c with
      | Some d => digitsFrom radix (Some (default 0 acc * radix + d)) s'
      | None => acc
      end
  end.

Definition parseUnsigned (s : string) : option Z :=
  match s with
  | String "0" (String "x" s') | String "0" (String "X" s') =>
      digitsFrom 16 None s'
  | _ => digitsFrom 10 None s
  end.

Definition parseInt (arg : option string) : option Z :=
  match arg with
  | None => None
  | Some s =>
      match skipSpaces s with
      | String "-" s' => Z.opp <$> parseUnsigned s'
      | String "+" s' => parseUnsigned s'
      | s' => parseUnsigned s'
      end
  end.

(** [x || 4] on a number: [0] is falsy. *)
Definition orFour (x : Z) : Z := if x =? 0 then 4 else x.

(** [new Set(l)]: the elements of [l] in order of first insertion. *)
Definition setAdd (x : string) (s : list string) : list string :=
  if bool_decide (x ∈ s) then s else s ++ [x].

Definition newSet (l : list string) : list string :=
  foldl (fun s x => setAdd x s) [] l.

End Js.

(** ** Data model ([types.ts] and the [StagedModule] interface) *)

(** [Module]: [units] and [fluff] are optional fields; an absent [fluff] is
    falsy and is modelled as [false].  The display-only fields [hasError]
    and [errorMessage] are left out. *)
Record Module_ := mkModule {
  m_code : string;
  m_title : string;
  m_units : option Z;
  m_fluff : bool
}.

Record Semester := mkSemester {
  s_id : Z;
  s_name : string;
  s_units : Z;
  s_modules : list Module_;
  s_isExchange : bool
}.

Record AcademicYear := mkYear {
  y_year : Z;
  y_label : string;
  y_academicYear : string;
  y_totalUnits : Z;
  y_semesters : list Semester
}.

Inductive StagedType := taken | exempted.

Record StagedModule := mkStaged {
  st_id : string;
  st_code : string;
  st_type : StagedType;
  st_mcs : Z
}.

#[global] Instance StagedType_eq_dec : EqDecision StagedType.
Proof. solve_decision. Defined.

(** ** Semester order *)

(** [sem.name.includes('1') ? 1 : 2] *)
Definition semNumOf (name : string) : Z :=
  if Js.includes name "1" then 1 else 2.

(** [year.year * 10 + (sem.name.includes('1') ? 1 : 2)] *)
Definition semOrder (y : AcademicYear) (s : Semester) : Z :=
  y_year y * 10 + semNumOf (s_name s).

(** Every module of the plan, in display order. *)
Definition planModules (ays : list AcademicYear) : list Module_ :=
  y ← ays; s ← y_semesters y; s_modules s.

Definition planCodes (ays : list AcademicYear) : list string :=
  m_code <$> planModules ays.

Definition stagedCodes (staged : list StagedModule) : list string :=
  st_code <$> staged.

(** ** The current-semester pointer *)

(** First match of [/Y(\d)S(\d)/] in [s]. *)
Fixpoint matchYS (s : string) : option (ascii * ascii) :=
  match s with
  | EmptyString => None
  | String c s' =>
      match s with
      | String "Y" (String a (String "S" (String b _))) =>
          if Js.isDigit a && Js.isDigit b then Some (a, b) else matchYS s'
      | _ => matchYS s'
      end
  end.

Definition digitOf (c : ascii) : Z := Z.of_nat (nat_of_ascii c) - 48.

(** The [useMemo] that yields [{ currentYearNum, currentSemNum }]. *)
Definition parseCurrentSemester (currentSemester : string) : Z * Z :=
  if String.eqb currentSemester "Y0S0" then (0, 0)
  else match matchYS currentSemester with
       | Some (a, b) => (digitOf a, digitOf b)
       | None => (1, 1)
       end.

(** ** Taken modules *)

Definition allTakenModules (ays : list AcademicYear) (staged : list StagedModule)
    (currentYearNum currentSemNum : Z) : list string :=
  let currentSemId := currentYearNum * 10 + currentSemNum in
  let planMods :=
    y ← ays; s ← y_semesters y;
    (if semOrder y s <? currentSemId then m_code <$> s_modules s else []) in
  let stagedMods := st_code <$> staged in
  Js.newSet (planMods ++ stagedMods).

(** ** Requirements and the matcher *)

Record Course := mkCourse { c_code : string; c_title : string }.

Record Category := mkCategory {
  category : string;
  requiredUnits : Z;
  courses : list Course
}.

Definition unrestrictedElectives : Category :=
  mkCategory "Unrestricted Electives" 40
    [ mkCourse "UE 1" "General Elective"; mkCourse "UE 2" "General Elective";
      mkCourse "UE 3" "General Elective"; mkCourse "UE 4" "General Elective";
      mkCourse "UE 5" "General Elective"; mkCourse "UE 6" "General Elective";
      mkCourse "UE 7" "General Elective"; mkCourse "UE 8" "General Elective";
      mkCourse "UE 9" "General Elective"; mkCourse "UE 10" "General Elective" ].

Definition REQUIREMENTS : list Category :=
  [ mkCategory "Common Curriculum" 40
      [ mkCourse "CS1101S" "Digital Literacy";
        mkCourse "ES2660" "Critique and Expression";
        mkCourse "GEC%" "Cultures and Connections";
        mkCourse "GEA1000" "Data Literacy";
        mkCourse "GES%" "Singapore Studies";
        mkCourse "GEN%" "Communities and Engagement" ];
    mkCategory "Computer Science Foundation" 36
      [ mkCourse "CS1231S" "Discrete Structures";
        mkCourse "CS2030S" "Programming Methodology II";
        mkCourse "CS2040S" "Data Structures & Algos";
        mkCourse "CS2100" "Computer Organisation";
        mkCourse "CS2106" "Operating Systems";
        mkCourse "CS3230" "Design & Analysis of Algorithms" ];
    mkCategory "CS Breadth & Depth" 32
      [ mkCourse "Focus 4K" "Focus Area 4000-level (required)";
        mkCourse "Focus 2" "Focus Area Course 2";
        mkCourse "Focus 3" "Focus Area Course 3";
        mkCourse "CS4%" "4K Elective 1";
        mkCourse "CS4%" "4K Elective 2";
        mkCourse "CS4%" "4K Elective 3";
        mkCourse "IE/FYP" "Industry Exp. or FYP (self-check)";
        mkCourse "Project" "Team Project / Elective" ];
    mkCategory "Math & Sciences" 12
      [ mkCourse "MA1521" "Calculus for Computing";
        mkCourse "MA1522" "Linear Algebra";
        mkCourse "ST2334" "Probability & Statistics" ];
    unrestrictedElectives ].

(** One attempt of the regular expression [^([A-Z]{2,4}\d{4})] with exactly
    [n] letters. *)
Definition matchBaseWith (n : nat) (code : string) : option string :=
  let letters := String.substring 0 n code in
  let digits := String.substring n 4 code in
  if (String.length letters =? n)%nat && Js.every Js.isUpper letters
     && (String.length digits =? 4)%nat && Js.every Js.isDigit digits
  then Some (String.substring 0 (n + 4) code)
  else None.

(** The greedy quantifier [{2,4}] tries four letters, then three, then two. *)
Definition matchBase (code : string) : option string :=
  match matchBaseWith 4 code with
  | Some b => Some b
  | None =>
      match matchBaseWith 3 code with
      | Some b => Some b
      | None => matchBaseWith 2 code
      end
  end.

Definition getBaseCode (code : string) : string :=
  match matchBase code with
  | Some b => b
  | None => code
  end.

(** The body of the [REQUIREMENTS.forEach] that collects [consumed]. *)
Definition consumeStep (c : Course) (consumed : list string) (myCode : string)
    : list string :=
  let cBase := getBaseCode (c_code c) in
  if String.eqb (getBaseCode myCode) cBase then Js.setAdd myCode consumed
  else if Js.endsWith (c_code c) "%"
          && Js.startsWith myCode (Js.sliceInit (c_code c))
       then Js.setAdd myCode consumed
       else consumed.

Definition consumedBy (reqs : list Category) (takenSet : list string)
    : list string :=
  foldl (fun consumed cat =>
           if String.eqb (category cat) "Unrestricted Electives" then consumed
           else foldl (fun consumed c => foldl (consumeStep c) consumed takenSet)
                      consumed (courses cat))
        [] reqs.

Definition unconsumed (reqs : list Category) (takenSet : list string)
    : list string :=
  filter (fun c => c ∉ consumedBy reqs takenSet) takenSet.

(** [checkRequirement], with the set of taken modules and the requirement
    table made explicit. *)
Definition checkRequirementIn (reqs : list Category) (takenSet : list string)
    (reqCode : string) : bool :=
  let reqBase := getBaseCode reqCode in
  let isSatisfied :=
    existsb (fun takenCode => String.eqb (getBaseCode takenCode) reqBase)
            takenSet in
  if isSatisfied then true
  else if Js.endsWith reqCode "%" then
    let prefix := Js.sliceInit reqCode in
    existsb (fun code => Js.startsWith code prefix) takenSet
  else if Js.startsWith reqCode "UE" then
    match Js.parseInt (Js.split reqCode " " !! 1%nat) with
    | Some n =>
        let ueIndex := n - 1 in
        ueIndex <? Z.of_nat (length (unconsumed reqs takenSet))
    | None => false
    end
  else false.

Definition checkRequirement (ays : list AcademicYear)
    (staged : list StagedModule) (currentYearNum currentSemNum : Z)
    (reqCode : string) : bool :=
  checkRequirementIn REQUIREMENTS
    (allTakenModules ays staged currentYearNum currentSemNum) reqCode.

(** ** The catalog service ([api.ts]) *)

(** [PrereqCheckResult] and [ModuleOfferedResult], restricted to the fields
    the component reads. *)
Record PrereqCheckResult := mkPrereq {
  satisfied : bool;
  missing : list string
}.

Record ModuleOfferedResult := mkOffered { offered : bool }.

(** The two requests of [api.ts] used by the validator.  Both [throw] when
    the response is not ok (or the request fails); [None] stands for a thrown
    error, which is the only way a failed lookup reaches the component. *)
Record Catalog := mkCatalog {
  checkPrerequisites : string -> list string -> option PrereqCheckResult;
  checkModuleOffered : string -> Z -> option ModuleOfferedResult
}.

(** ** The constraint validator *)

Record Violations := mkViolations {
  prereqViolations : gmap string (list string);
  offeringViolations : gmap string string
}.

Definition noViolations : Violations := mkViolations ∅ ∅.

(** The modules of every semester whose order is below [semOrd], followed by
    the staged modules. *)
Definition completedBefore (ays : list AcademicYear)
    (staged : list StagedModule) (semOrd : Z) : list string :=
  (y ← ays; s ← y_semesters y;
   (if semOrder y s <? semOrd then m_code <$> s_modules s else []))
  ++ (st_code <$> staged).

(** The template literal [`${n}`] for a one-digit number. *)
Definition showDigit (n : Z) : string :=
  String (ascii_of_nat (48 + Z.to_nat n)) EmptyString.

(** The callback passed to [sem.modules.map]: two lookups, each inside its
    own [try { } catch (e) { /* Ignore */ }].  Under [Promise.all] the
    callbacks of one semester interleave; each writes only the entries of
    its own code, with values fixed by the module and the semester, so they
    are run here in the order of the list. *)
Definition checkModule (cat : Catalog) (completed : list string) (semNum : Z)
    (v : Violations) (md : Module_) : Violations :=
  if m_fluff md then v
  else
    let pV :=
      match checkPrerequisites cat (m_code md) completed with
      | Some result =>
          if negb (satisfied result) && (0 <? Z.of_nat (length (missing result)))
          then <[m_code md := missing result]> (prereqViolations v)
          else prereqViolations v
      | None => prereqViolations v
      end in
    let oV :=
      match checkModuleOffered cat (m_code md) semNum with
      | Some offering =>
          if negb (offered offering)
          then <[m_code md := "Not offered in Semester " +:+ showDigit semNum]>
                 (offeringViolations v)
          else offeringViolations v
      | None => offeringViolations v
      end in
    mkViolations pV oV.

Definition checkSemester (cat : Catalog) (ays : list AcademicYear)
    (staged : list StagedModule) (year : AcademicYear) (v : Violations)
    (sem : Semester) : Violations :=
  let semOrd := semOrder year sem in
  let semNum := semNumOf (s_name sem) in
  foldl (checkModule cat (completedBefore ays staged semOrd) semNum) v
        (s_modules sem).

(** The maps handed to [setPrereqViolations] and [setOfferingViolations]. *)
Definition checkAllConstraints (cat : Catalog) (ays : list AcademicYear)
    (staged : list StagedModule) : Violations :=
  foldl (fun v year => foldl (checkSemester cat ays staged year) v
                             (y_semesters year))
        noViolations ays.

(** ** Progression statistics *)

Record Stats := mkStats {
  completed : Z;
  current : Z;
  planned : Z;
  seenCodes : list string
}.

Definition total (st : Stats) : Z := completed st + current st + planned st.

(** [mod.units || 4] *)
Definition unitsOrFour (md : Module_) : Z := Js.orFour (default 0 (m_units md)).

Definition countStaged (st : Stats) (md : StagedModule) : Stats :=
  if bool_decide (st_type md = exempted)
     && negb (bool_decide (st_code md ∈ seenCodes st))
  then mkStats (completed st + Js.orFour (st_mcs md)) (current st) (planned st)
               (Js.setAdd (st_code md) (seenCodes st))
  else st.

Definition countModule (semId currentSemId : Z) (st : Stats) (md : Module_)
    : Stats :=
  if negb (bool_decide (m_code md ∈ seenCodes st)) then
    let mcs := unitsOrFour md in
    let seen := Js.setAdd (m_code md) (seenCodes st) in
    if semId <? currentSemId
    then mkStats (completed st + mcs) (current st) (planned st) seen
    else if semId =? currentSemId
    then mkStats (completed st) (current st + mcs) (planned st) seen
    else mkStats (completed st) (current st) (planned st + mcs) seen
  else st.

Definition progressionStats (ays : list AcademicYear)
    (staged : list StagedModule) (currentYearNum currentSemNum : Z) : Stats :=
  let currentSemId := currentYearNum * 10 + currentSemNum in
  let st := foldl countStaged (mkStats 0 0 0 []) staged in
  foldl (fun st year =>
           foldl (fun st sem =>
                    foldl (countModule (semOrder year sem) currentSemId) st
                          (s_modules sem))
                 st (y_semesters year))
        st ays.

(** ** Plan mutations *)

Inductive DragSource := fromStaged | fromSemester.

#[global] Instance DragSource_eq_dec : EqDecision DragSource.
Proof. solve_decision. Defined.

Record Dragging := mkDragging {
  d_code : string;
  d_source : DragSource;
  d_sourceId : option Z
}.

Inductive ToastType := toastError | toastSuccess.

Record Toast := mkToast { t_message : string; t_type : ToastType }.

(** The part of the component state that the handlers read or write. *)
Record Board := mkBoard {
  academicYears : list AcademicYear;
  stagedModules : list StagedModule;
  draggingModule : option Dragging;
  toast : option Toast;
  shakingSemId : option Z
}.

(** [arr.splice(start, 0, x)] *)
Definition spliceInsert {A} (l : list A) (start : Z) (x : A) : list A :=
  let len := Z.of_nat (length l) in
  let i := if start <? 0 then Z.max (len + start) 0 else Z.min start len in
  take (Z.to_nat i) l ++ x :: drop (Z.to_nat i) l.

(** [arr.findIndex(p)], with [None] for [-1]. *)
Fixpoint findIndex {A} (p : A -> bool) (l : list A) : option nat :=
  match l with
  | [] => None
  | x :: l' => if p x then Some 0%nat else S <$> findIndex p l'
  end.

Definition hasCode (code : string) (mods : list Module_) : bool :=
  existsb (fun m => String.eqb (m_code m) code) mods.

Definition setModules (sem : Semester) (mods : list Module_) (units : Z)
    : Semester :=
  mkSemester (s_id sem) (s_name sem) units mods (s_isExchange sem).

Definition mapSemesters (f : Semester -> Semester) (ays : list AcademicYear)
    : list AcademicYear :=
  (fun year => mkYear (y_year year) (y_label year) (y_academicYear year)
                      (y_totalUnits year) (f <$> y_semesters year)) <$> ays.

(** Reordering inside one semester (the first branch of [handleDrop]). *)
Definition reorderIn (code : string) (insertAtIndex : Z) (sem : Semester)
    : Semester :=
  match findIndex (fun m => String.eqb (m_code m) code) (s_modules sem) with
  | Some currentIndex =>
      if negb (Z.of_nat currentIndex =? insertAtIndex) then
        match s_modules sem !! currentIndex with
        | Some movedModule =>
            let rest := take currentIndex (s_modules sem)
                        ++ drop (S currentIndex) (s_modules sem) in
            let adjustedIndex :=
              if Z.of_nat currentIndex <? insertAtIndex
              then insertAtIndex - 1 else insertAtIndex in
            setModules sem (spliceInsert rest adjustedIndex movedModule)
                       (s_units sem)
        | None => sem
        end
      else sem
  | None => sem
  end.

(** The [for] loops that look for the target semester: only whether one was
    found is used afterwards. *)
Definition targetFound (ays : list AcademicYear) (targetSemId : Z) : bool :=
  existsb (fun year => existsb (fun sem => s_id sem =? targetSemId)
                               (y_semesters year)) ays.

Definition isSource (source : DragSource) (sourceId : option Z)
    (sem : Semester) : bool :=
  bool_decide (source = fromSemester) && bool_decide (Some (s_id sem) = sourceId).

Definition moduleExistsInPlan (ays : list AcademicYear) (code : string)
    (source : DragSource) (sourceId : option Z) : bool :=
  existsb (fun year =>
             existsb (fun sem =>
                        if isSource source sourceId sem then false
                        else hasCode code (s_modules sem))
                     (y_semesters year)) ays.

(** The updater that moves or adds the module (the last [setAcademicYears]
    of [handleDrop]). *)
Definition placeIn (code : string) (source : DragSource) (sourceId : option Z)
    (targetSemId : Z) (insertAtIndex : option Z) (sem : Semester) : Semester :=
  if isSource source sourceId sem then
    setModules sem
      (filter (fun m => m_code m ≠ code) (s_modules sem)) (s_units sem - 4)
  else if s_id sem =? targetSemId then
    if hasCode code (s_modules sem) then sem
    else
      let newModule := mkModule code code (Some 4) false in
      let modules :=
        match insertAtIndex with
        | Some i => if 0 <=? i then spliceInsert (s_modules sem) i newModule
                    else s_modules sem ++ [newModule]
        | None => s_modules sem ++ [newModule]
        end in
      setModules sem modules (s_units sem + 4)
  else sem.

(** Every exit of [handleDrop] after the first clears the drag state. *)
Definition endDrag (ays : list AcademicYear)
    (staged : list StagedModule) (t : option Toast) (shaking : option Z)
    : Board :=
  mkBoard ays staged None t shaking.

Definition handleDrop (b : Board) (targetSemId : Z) (insertAtIndex : option Z)
    : Board :=
  match draggingModule b with
  | None => b
  | Some (mkDragging code source sourceId) =>
      if bool_decide (source = fromSemester)
         && bool_decide (sourceId = Some targetSemId)
      then
        let ays :=
          match insertAtIndex with
          | Some i =>
              mapSemesters (fun sem => if s_id sem =? targetSemId
                                       then reorderIn code i sem else sem)
                           (academicYears b)
          | None => academicYears b
          end in
        endDrag ays (stagedModules b) (toast b) (shakingSemId b)
      else if targetFound (academicYears b) targetSemId
              && moduleExistsInPlan (academicYears b) code source sourceId
      then
        endDrag (academicYears b) (stagedModules b)
          (Some (mkToast (code +:+ " already exists in your study plan")
                         toastError))
          (Some targetSemId)
      else
        let ays := mapSemesters
                     (placeIn code source sourceId targetSemId insertAtIndex)
                     (academicYears b) in
        let staged :=
          if bool_decide (source = fromStaged)
          then filter (fun m => st_code m ≠ code) (stagedModules b)
          else stagedModules b in
        endDrag ays staged (toast b) (shakingSemId b)
  end.

(** [ModuleSearchResult], restricted to the fields the component reads. *)
Record ModuleSearchResult := mkResult {
  r_code : string;
  r_title : string;
  r_credits : Z
}.

(** The filter of [handleSearchChange]: results already in the plan are
    dropped and at most five are shown. *)
Definition filterSearchResults (ays : list AcademicYear)
    (results : list ModuleSearchResult) : list ModuleSearchResult :=
  take 5 (filter (fun r => r_code r ∉ planCodes ays) results).

(** [handleModuleSelect] of the semester [semId]. *)
Definition handleModuleSelect (b : Board) (semId : Z) (moduleCode title : string)
    : Board :=
  let ays :=
    mapSemesters
      (fun s => if s_id s =? semId then
                  if hasCode moduleCode (s_modules s) then s
                  else setModules s
                         (s_modules s ++ [mkModule moduleCode title (Some 4) false])
                         (s_units s + 4)
                else s)
      (academicYears b) in
  mkBoard ays (stagedModules b) (draggingModule b) (toast b) (shakingSemId b).

(** Search-based addition: the result clicked is one of those shown. *)
Definition addBySearch (b : Board) (semId : Z)
    (results : list ModuleSearchResult) (choice : nat) : Board :=
  match filterSearchResults (academicYears b) results !! choice with
  | Some r => handleModuleSelect b semId (r_code r) (r_title r)
  | None => b
  end.

(** The [onClick] of a search result in the exempted-course dialog; [now] is
    [Date.now().toString()]. *)
Definition addExempted (b : Board) (now : string) (result : ModuleSearchResult)
    : Board :=
  let newModule :=
    mkStaged now (r_code result) exempted (Js.orFour (r_credits result)) in
  mkBoard (academicYears b) (stagedModules b ++ [newModule]) (draggingModule b)
    (Some (mkToast (r_code result +:+ " added as exempted course") toastSuccess))
    (shakingSemId b).

(** The initial state of the component. *)
Definition DEFAULT_PLAN : list AcademicYear :=
  (fun i : Z =>
     mkYear (i + 1) ("Year " +:+ showDigit (i + 1) +:+ " ")
       ("202" +:+ showDigit (5 + i) +:+ "/202" +:+ showDigit (6 + i)) 0
       [ mkSemester (i * 2 + 1) "Semester 1" 0 [] false;
         mkSemester (i * 2 + 2) "Semester 2" 0 [] false ]) <$> [0; 1; 2; 3].

Definition initialBoard : Board :=
  mkBoard DEFAULT_PLAN [mkStaged "2" "MA1301" exempted 4] None None None.

(** [addSpecialTerm]: the toast for an existing term is not modelled. *)
Definition addSpecialTerm (ays : list AcademicYear) (yearNum : Z)
    (termType : string) : list AcademicYear :=
  (fun year =>
     if y_year year =? yearNum then
       if existsb (fun s => String.eqb (s_name s) termType) (y_semesters year)
       then year
       else
         let newSemId :=
           yearNum * 100 + (if String.eqb termType "Special Term 1" then 3 else 4) in
         mkYear (y_year year) (y_label year) (y_academicYear year)
           (y_totalUnits year)
           (y_semesters year ++ [mkSemester newSemId termType 0 [] false])
     else year) <$> ays.

(** ** The debounced validation effect *)

(** The values captured by one render: [academicYears] and [stagedModules]. *)
Record Snapshot := mkSnapshot {
  snapYears : list AcademicYear;
  snapStaged : list StagedModule
}.

(** The effect [useEffect(..., [academicYears, stagedModules])]: each render
    with a changed plan runs the cleanup [clearTimeout(timer)] of the previous
    effect and arms [setTimeout(checkAllConstraints, 800)] with a closure over
    the new plan.  Once the timer has fired, [checkAllConstraints] awaits the
    catalog and ends with [setPrereqViolations] / [setOfferingViolations]. *)
Record Runtime := mkRuntime {
  rtPlan : Snapshot;
  rtTimer : option Snapshot;
  rtInFlight : list Snapshot;
  rtPublished : Violations
}.

Inductive Event :=
| Mutate (next : Snapshot)
| TimerFires
| RunCompletes (i : nat).

Definition mount (plan : Snapshot) : Runtime :=
  mkRuntime plan (Some plan) [] noViolations.

Definition runOn (cat : Catalog) (snap : Snapshot) : Violations :=
  checkAllConstraints cat (snapYears snap) (snapStaged snap).

Definition step (cat : Catalog) (rt : Runtime) (e : Event) : Runtime :=
  match e with
  | Mutate next =>
      mkRuntime next (Some next) (rtInFlight rt) (rtPublished rt)
  | TimerFires =>
      match rtTimer rt with
      | Some snap =>
          mkRuntime (rtPlan rt) None (rtInFlight rt ++ [snap]) (rtPublished rt)
      | None => rt
      end
  | RunCompletes i =>
      match rtInFlight rt !! i with
      | Some snap =>
          mkRuntime (rtPlan rt) (rtTimer rt) (delete i (rtInFlight rt))
                    (runOn cat snap)
      | None => rt
      end
  end.

Definition execute (cat : Catalog) (plan : Snapshot) (events : list Event)
    : Runtime :=
  foldl (step cat) (mount plan) events.

(** The plans that have been current up to the end of [events]. *)
Definition history (plan : Snapshot) (events : list Event) : list Snapshot :=
  plan :: omap (fun e => match e with Mutate next => Some next | _ => None end)
               events.

(** ** Specification-side definitions and fixtures *)

(** A module with code [c] is placed in a semester whose order is below
    [ord]. *)
Definition placedBefore (ays : list AcademicYear) (ord : Z) (c : string) : Prop :=
  ∃ y s m, y ∈ ays ∧ s ∈ y_semesters y ∧ semOrder y s < ord
           ∧ m ∈ s_modules s ∧ m_code m = c.

(** A taken code satisfies a slot pattern: same base code, or the pattern
    ends in [%] and the code starts with what precedes it. *)
Definition slotConsumes (pattern code : string) : bool :=
  String.eqb (getBaseCode code) (getBaseCode pattern)
  || (Js.endsWith pattern "%" && Js.startsWith code (Js.sliceInit pattern)).

(** The patterns of every category other than the unrestricted electives. *)
Definition nonElectiveSlots (reqs : list Category) : list string :=
  cat ← reqs;
  (if String.eqb (category cat) "Unrestricted Electives" then []
   else c_code <$> courses cat).

Definition isConsumed (reqs : list Category) (code : string) : bool :=
  existsb (fun pattern => slotConsumes pattern code) (nonElectiveSlots reqs).

Definition ueSlots : list string := c_code <$> courses unrestrictedElectives.

(** The number of taken codes that no slot outside the unrestricted
    electives consumes. *)
Definition unconsumedCount (ays : list AcademicYear) (staged : list StagedModule)
    (cy cs : Z) : nat :=
  length (filter (fun c => isConsumed REQUIREMENTS c = false)
                 (allTakenModules ays staged cy cs)).

(** The reading of the matcher over the whole plan: some code of the plan or
    of the staged modules satisfies the pattern. *)
Definition fulfilledByPlan (ays : list AcademicYear) (staged : list StagedModule)
    (reqCode : string) : Prop :=
  ∃ c, c ∈ planCodes ays ++ stagedCodes staged
       ∧ (getBaseCode c = getBaseCode reqCode
          ∨ (Js.endsWith reqCode "%" = true
             ∧ Js.startsWith c (Js.sliceInit reqCode) = true)).

Definition planWithGEC : list AcademicYear :=
  [ mkYear 1 "Year 1" "2025/2026" 0
      [ mkSemester 1 "Semester 1" 4
          [mkModule "GEC1021" "Cultures and Connections" (Some 4) false] false;
        mkSemester 2 "Semester 2" 0 [] false ] ].

(** One call of the per-module callback: the module, the order of its
    semester and the semester number passed to the offering lookup. *)
Record Task := mkTask { tk_module : Module_; tk_order : Z; tk_semNum : Z }.

Definition tasksOf (ays : list AcademicYear) : list Task :=
  y ← ays; s ← y_semesters y;
  (fun m => mkTask m (semOrder y s) (semNumOf (s_name s))) <$> s_modules s.

Definition tk_code (t : Task) : string := m_code (tk_module t).

Definition checkTask (cat : Catalog) (ays : list AcademicYear)
    (staged : list StagedModule) (v : Violations) (t : Task) : Violations :=
  checkModule cat (completedBefore ays staged (tk_order t)) (tk_semNum t) v
              (tk_module t).

(** What one call writes into each map, if anything. *)
Definition prereqOutcome (cat : Catalog) (completed : list string)
    (m : Module_) : option (list string) :=
  if m_fluff m then None
  else match checkPrerequisites cat (m_code m) completed with
       | Some result =>
           if negb (satisfied result) && (0 <? Z.of_nat (length (missing result)))
           then Some (missing result) else None
       | None => None
       end.

Definition offeringOutcome (cat : Catalog) (semNum : Z) (m : Module_)
    : option string :=
  if m_fluff m then None
  else match checkModuleOffered cat (m_code m) semNum with
       | Some offering =>
           if negb (offered offering)
           then Some ("Not offered in Semester " +:+ showDigit semNum) else None
       | None => None
       end.

(** A catalog in which [CS2040S] requires [CS1101S] and every module is
    offered (scenarios 1 and 2 of the specification). *)
Definition scenarioCatalog : Catalog :=
  mkCatalog
    (fun code completed =>
       if String.eqb code "CS2040S" then
         if bool_decide ("CS1101S" ∈ completed) then Some (mkPrereq true [])
         else Some (mkPrereq false ["CS1101S"])
       else Some (mkPrereq true []))
    (fun _ _ => Some (mkOffered true)).

Definition cs1101s : Module_ := mkModule "CS1101S" "Programming Methodology" (Some 4) false.
Definition cs2040s : Module_ := mkModule "CS2040S" "Data Structures & Algos" (Some 4) false.

Definition y1s1Both : Semester := mkSemester 1 "Semester 1" 8 [cs1101s; cs2040s] false.

(** Both modules in year 1, semester 1. *)
Definition yearSameSemester : AcademicYear :=
  mkYear 1 "Year 1" "2025/2026" 8 [y1s1Both; mkSemester 2 "Semester 2" 0 [] false].

(** [CS1101S] in semester 1 and [CS2040S] in semester 2 of year 1. *)
Definition yearInOrder : AcademicYear :=
  mkYear 1 "Year 1" "2025/2026" 8
    [ mkSemester 1 "Semester 1" 4 [cs1101s] false;
      mkSemester 2 "Semester 2" 4 [cs2040s] false ].

(** *** The progress snapshot as a ledger

    The reading of the snapshot as a partition: every exempted staged module
    and every placed module is an entry with its credits and the bucket its
    semester order assigns; a code is counted the first time it occurs. *)
Inductive Bucket := Completed | Current | Planned.

#[global] Instance Bucket_eq_dec : EqDecision Bucket.
Proof. solve_decision. Defined.

Record Entry := mkEntry { e_code : string; e_credit : Z; e_bucket : Bucket }.

Definition bucketOf (semId currentSemId : Z) : Bucket :=
  if semId <? currentSemId then Completed
  else if semId =? currentSemId then Current
  else Planned.

Definition stagedLedger (staged : list StagedModule) : list Entry :=
  (fun m => mkEntry (st_code m) (Js.orFour (st_mcs m)) Completed)
  <$> filter (fun m => st_type m = exempted) staged.

Definition planLedger (ays : list AcademicYear) (currentSemId : Z) : list Entry :=
  y ← ays; s ← y_semesters y;
  (fun m => mkEntry (m_code m) (unitsOrFour m)
                    (bucketOf (semOrder y s) currentSemId)) <$> s_modules s.

Definition ledger (ays : list AcademicYear) (staged : list StagedModule)
    (currentSemId : Z) : list Entry :=
  stagedLedger staged ++ planLedger ays currentSemId.

Fixpoint countedFrom (seen : list string) (l : list Entry) : list Entry :=
  match l with
  | [] => []
  | e :: l' =>
      if bool_decide (e_code e ∈ seen) then countedFrom seen l'
      else e :: countedFrom (e_code e :: seen) l'
  end.

Definition counted (l : list Entry) : list Entry := countedFrom [] l.

Fixpoint creditsIn (b : Bucket) (l : list Entry) : Z :=
  match l with
  | [] => 0
  | e :: l' => (if bool_decide (e_bucket e = b) then e_credit e else 0)
               + creditsIn b l'
  end.

Definition countEntry (st : Stats) (e : Entry) : Stats :=
  if bool_decide (e_code e ∈ seenCodes st) then st
  else
    let seen := Js.setAdd (e_code e) (seenCodes st) in
    match e_bucket e with
    | Completed => mkStats (completed st + e_credit e) (current st) (planned st) seen
    | Current => mkStats (completed st) (current st + e_credit e) (planned st) seen
    | Planned => mkStats (completed st) (current st) (planned st + e_credit e) seen
    end.

(** The plan with the [fluff] flag of every module set by [flag]. *)
Definition reflag (flag : Module_ → bool) (ays : list AcademicYear)
    : list AcademicYear :=
  mapSemesters
    (fun s => setModules s
                ((fun m => mkModule (m_code m) (m_title m) (m_units m) (flag m))
                 <$> s_modules s) (s_units s)) ays.

(** *** Special terms and exchange semesters *)

(** The tests the component uses to style a semester as special or as an
    exchange semester. *)
Definition isSpecialOrExchange (s : Semester) : bool :=
  Js.includes (s_name s) "Special" || s_isExchange s.

(** The plan with the modules of special terms and exchange semesters left
    out. *)
Definition withoutSpecial (ays : list AcademicYear) : list AcademicYear :=
  mapSemesters (fun s => if isSpecialOrExchange s
                         then setModules s [] (s_units s) else s) ays.

(** The reading under which special terms and exchange semesters stand
    outside credit accounting and outside the order of regular semesters. *)
Definition specialTermsExcluded (ays : list AcademicYear)
    (staged : list StagedModule) (cy cs : Z) : Prop :=
  progressionStats ays staged cy cs
  = progressionStats (withoutSpecial ays) staged cy cs
  ∧ ∀ ord, completedBefore ays staged ord
           = completedBefore (withoutSpecial ays) staged ord.

(** The plan with every semester renamed to the regular semester that has
    the same number, and no exchange flag. *)
Definition asRegular (ays : list AcademicYear) : list AcademicYear :=
  mapSemesters
    (fun s => mkSemester (s_id s)
                (if Js.includes (s_name s) "1" then "Semester 1" else "Semester 2")
                (s_units s) (s_modules s) false) ays.

(** The default plan after [addSpecialTerm(1, 'Special Term 1')] and the
    selection of [CS2220] in the search box of the new term. *)
Definition planWithSpecialTerm : list AcademicYear :=
  academicYears
    (handleModuleSelect
       (mkBoard (addSpecialTerm DEFAULT_PLAN 1 "Special Term 1") [] None None None)
       103 "CS2220" "Introduction to Computational Biology").

(** *** Duplicate placements *)

(** The code is in a semester other than the one it is dragged from. *)
Definition heldElsewhere (ays : list AcademicYear) (code : string)
    (source : DragSource) (sourceId : option Z) : Prop :=
  ∃ y s m, y ∈ ays ∧ s ∈ y_semesters y
           ∧ ¬ (source = fromSemester ∧ Some (s_id s) = sourceId)
           ∧ m ∈ s_modules s ∧ m_code m = code.

(** What the user is shown after a drop. *)
Definition feedback (b : Board) : option Toast * option Z :=
  (toast b, shakingSemId b).

(** *** Uniqueness of codes *)

Definition uniqueCodes (b : Board) : Prop :=
  NoDup (planCodes (academicYears b) ++ stagedCodes (stagedModules b)).

(** The reading under which a result is only published for the plan that is
    current when the run completes. *)
Definition publishesCurrentPlan (cat : Catalog) : Prop :=
  ∀ plan events i,
    let rt := execute cat plan events in
    is_Some (rtInFlight rt !! i) →
    rtPublished (step cat rt (RunCompletes i)) = runOn cat (rtPlan rt).

(** Every semester of the plan, in display order. *)
Definition planSemesters (ays : list AcademicYear) : list Semester :=
  y ← ays; y_semesters y.

Definition codesOf (s : Semester) : list string := m_code <$> s_modules s.

(** The drag began on a card of the plan, or in the staging area. *)
Definition dragFromPlan (b : Board) : Prop :=
  ∀ d, draggingModule b = Some d → d_source d = fromSemester →
       d_code d ∈ planCodes (academicYears b).

Definition uniqueSemesterIds (ays : list AcademicYear) : Prop :=
  NoDup (s_id <$> planSemesters ays).

(** What [placeIn] adds to a semester and what it keeps of it. *)
Definition addedCodes (code : string) (source : DragSource)
    (sourceId : option Z) (targetSemId : Z) (s : Semester) : list string :=
  if negb (isSource source sourceId s) && (s_id s =? targetSemId)
     && negb (hasCode code (s_modules s))
  then [code] else [].

Definition keptCodes (code : string) (source : DragSource)
    (sourceId : option Z) (s : Semester) : list string :=
  if isSource source sourceId s then filter (fun c => c ≠ code) (codesOf s)
  else codesOf s.

(** ** The colour of a requirement row *)

Inductive SlotStatus := slotDone | slotCurrent | slotFuture | slotOpen.

(** [semContainsCourse] of the requirement checklist. *)
Definition semContainsCourse (courseCode : string) (sem : Semester) : bool :=
  let courseBase := getBaseCode courseCode in
  existsb (fun m =>
             String.eqb (getBaseCode (m_code m)) courseBase
             || (Js.endsWith courseCode "%"
                 && Js.startsWith (m_code m) (Js.sliceInit courseCode)))
          (s_modules sem).

Definition isInFuturePlan (ays : list AcademicYear) (isDone : bool)
    (currentSemId : Z) (courseCode : string) : bool :=
  negb isDone
  && existsb (fun year =>
                existsb (fun sem => (currentSemId <? semOrder year sem)
                                    && semContainsCourse courseCode sem)
                        (y_semesters year)) ays.

Definition isInCurrentYear (ays : list AcademicYear) (isDone : bool)
    (currentSemId : Z) (courseCode : string) : bool :=
  negb isDone
  && existsb (fun year =>
                existsb (fun sem => (semOrder year sem =? currentSemId)
                                    && semContainsCourse courseCode sem)
                        (y_semesters year)) ays.

(** The choice made by [bgClass], [iconClass] and [textClass]. *)
Definition slotStatus (ays : list AcademicYear) (staged : list StagedModule)
    (currentYearNum currentSemNum : Z) (courseCode : string) : SlotStatus :=
  let isDone := checkRequirement ays staged currentYearNum currentSemNum courseCode in
  let currentSemId := currentYearNum * 10 + currentSemNum in
  if isDone then slotDone
  else if isInCurrentYear ays isDone currentSemId courseCode then slotCurrent
  else if isInFuturePlan ays isDone currentSemId courseCode then slotFuture
  else slotOpen.

(** ** Deleting modules and special terms *)

(** The updater of the delete button of a module card in semester [semId]. *)
Definition removeModule (ays : list AcademicYear) (semId : Z) (code : string)
    : list AcademicYear :=
  mapSemesters
    (fun s => if s_id s =? semId
              then setModules s (filter (fun m => m_code m ≠ code) (s_modules s))
                              (s_units s - 4)
              else s) ays.

(** [deleteSpecialTerm]: the toast is not modelled. *)
Definition deleteSpecialTerm (ays : list AcademicYear) (yearNum semId : Z)
    : list AcademicYear :=
  (fun year =>
     if y_year year =? yearNum then
       mkYear (y_year year) (y_label year) (y_academicYear year)
         (y_totalUnits year)
         (filter (fun s => s_id s ≠ semId) (y_semesters year))
     else year) <$> ays.

(** The id [addSpecialTerm] gives to a new term. *)
Definition specialTermId (yearNum : Z) (termType : string) : Z :=
  yearNum * 100 + (if String.eqb termType "Special Term 1" then 3 else 4).

(** A board on which [CS1101S] is dragged from semester 1. *)
Definition boardDragging : Board :=
  mkBoard [yearInOrder] [mkStaged "2" "MA1301" exempted 4]
          (Some (mkDragging "CS1101S" fromSemester (Some 1))) None None.

(** ** Academic-year strings *)

(** [String(n)] for an integer. *)
Definition showZ (n : Z) : string :=
  DecimalString.NilZero.string_of_int (Z.to_int n).

(** [s.substring(n)] *)
Definition substringFrom (n : nat) (s : string) : string :=
  String.substring n (String.length s - n) s.

(** [s.padStart(2, '0')] *)
Definition padStart2 (s : string) : string :=
  match String.length s with
  | 0%nat => "00"
  | 1%nat => "0" +:+ s
  | _ => s
  end.

(** [parseAcademicYear] of the board. *)
Definition parseAcademicYear (ayString : string) : Z :=
  if Js.startsWith ayString "AY" then
    let yearPart := Js.split (substringFrom 2 ayString) "/" !! 0%nat in
    match Js.parseInt yearPart with
    | None => 2024
    | Some year => if year <? 100 then 2000 + year else year
    end
  else
    match Js.parseInt (Js.split ayString "/" !! 0%nat) with
    | None => 2024
    | Some year => year
    end.

(** One entry of [academicYearOptions] of the left sidebar; [currentYear] is
    [new Date().getFullYear()]. *)
Definition academicYearOption (currentYear i : Z) : string :=
  let year := currentYear - 2 + i in
  let shortYear := Z.rem year 100 in
  let nextShortYear := Z.rem (year + 1) 100 in
  "AY" +:+ padStart2 (showZ shortYear) +:+ "/" +:+ padStart2 (showZ nextShortYear).

Definition academicYearOptions (currentYear : Z) : list string :=
  academicYearOption currentYear <$> [0; 1; 2; 3; 4; 5].

(** ** The saved and the exported plan *)

(** One value of the [modules] object of the payload. *)
Record SavedModule := mkSaved {
  sm_id : string;
  sm_year : string;
  sm_semester : Z;
  sm_index : Z;
  sm_moduleCode : string
}.

(** [`${n}`] for a number that may be [NaN]. *)
Definition showNum (n : option Z) : string :=
  match n with
  | Some z => showZ z
  | None => "NaN"
  end.

(** [s.replace(pat, '')]: the first occurrence of [pat] is removed. *)
Fixpoint removeFirst (pat s : string) : string :=
  if String.prefix pat s
  then String.substring (String.length pat) (String.length s - String.length pat) s
  else match s with
       | EmptyString => EmptyString
       | String c s' => String c (removeFirst pat s')
       end.

(** [getAYString] *)
Definition getAYString (yearLabel : string) : string :=
  let startYear := 2024 in
  let yearIndex :=
    (fun n => n - 1) <$> Js.parseInt (Some (removeFirst "Year " yearLabel)) in
  showNum ((fun i => startYear + i) <$> yearIndex) +:+ "/"
  +:+ showNum ((fun i => startYear + i + 1) <$> yearIndex).

(** The elements of an array with their indices, as [forEach((x, index) => ...)]
    visits them. *)
Definition indexed {A} (l : list A) : list (Z * A) :=
  imap (fun i x => (Z.of_nat i, x)) l.

(** [modulesMap[idCounter.toString()] = { id, year, semester, index,
    moduleCode }; idCounter++] *)
Definition putModule (year : string) (semester index : Z) (moduleCode : string)
    (st : gmap string SavedModule * Z) : gmap string SavedModule * Z :=
  let '(modulesMap, idCounter) := st in
  (<[showZ idCounter :=
       mkSaved (showZ idCounter) year semester index moduleCode]> modulesMap,
   idCounter + 1).

(** The [modules] field that [generateSavePayload] builds. *)
Definition generateSavePayload (years : list AcademicYear)
    (staged : list StagedModule) : gmap string SavedModule :=
  let st :=
    foldl (fun st year =>
             let ayString := getAYString (y_label year) in
             foldl (fun st sem =>
                      let semNum := if Js.includes (s_name sem) "1" then 1 else 2 in
                      foldl (fun st '(index, md) =>
                               putModule ayString semNum index (m_code md) st)
                            st (indexed (s_modules sem)))
                   st (y_semesters year))
          (∅, 1) years in
  (foldl (fun st '(index, md) => putModule "-1" (-1) index (st_code md) st)
         st (indexed staged)).1.

(** The semester number [handleExportPlan] writes. *)
Definition exportSemNum (name : string) : Z :=
  if String.eqb name "Semester 2" then 2
  else if String.eqb name "Special Term 1" then 3
  else if String.eqb name "Special Term 2" then 4
  else 1.

(** The [modules] field that [handleExportPlan] builds. *)
Definition handleExportPlan (startAcademicYear : string)
    (ays : list AcademicYear) (staged : list StagedModule)
    : gmap string SavedModule :=
  let startYear := Js.parseInt (Js.split startAcademicYear "/" !! 0%nat) in
  let st :=
    foldl (fun st '(yearIdx, year) =>
             foldl (fun st sem =>
                      let semNum := exportSemNum (s_name sem) in
                      foldl (fun st '(modIdx, md) =>
                               putModule
                                 (showNum ((fun y => y + yearIdx) <$> startYear)
                                  +:+ "/"
                                  +:+ showNum ((fun y => y + yearIdx + 1) <$> startYear))
                                 semNum modIdx (m_code md) st)
                            st (indexed (s_modules sem)))
                   st (y_semesters year))
          (∅, 1) (indexed ays) in
  (foldl (fun st '(idx, md) => putModule "-1" (-1) idx (st_code md) st)
         st (indexed staged)).1.

(** The placements in the order in which they are written: year string,
    semester number, index in the semester, code. *)
Definition Row : Type := string * Z * Z * string.

Definition putRow (st : gmap string SavedModule * Z) (r : Row)
    : gmap string SavedModule * Z :=
  let '(year, semester, index, moduleCode) := r in
  putModule year semester index moduleCode st.

Definition moduleRows (year : string) (semester : Z) (mods : list Module_)
    : list Row :=
  (fun '(index, md) => (year, semester, index, m_code md)) <$> indexed mods.

Definition stagedRows (staged : list StagedModule) : list Row :=
  (fun '(index, md) => ("-1", -1, index, st_code md)) <$> indexed staged.

Definition saveRows (years : list AcademicYear) (staged : list StagedModule)
    : list Row :=
  (year ← years; sem ← y_semesters year;
   moduleRows (getAYString (y_label year))
              (if Js.includes (s_name sem) "1" then 1 else 2) (s_modules sem))
  ++ stagedRows staged.

Definition exportRows (startAcademicYear : string) (ays : list AcademicYear)
    (staged : list StagedModule) : list Row :=
  let startYear := Js.parseInt (Js.split startAcademicYear "/" !! 0%nat) in
  ('(yearIdx, year) ← indexed ays; sem ← y_semesters year;
   moduleRows (showNum ((fun y => y + yearIdx) <$> startYear) +:+ "/"
               +:+ showNum ((fun y => y + yearIdx + 1) <$> startYear))
              (exportSemNum (s_name sem)) (s_modules sem))
  ++ stagedRows staged.

Definition savedAs (id : Z) (r : Row) : SavedModule :=
  let '(year, semester, index, moduleCode) := r in
  mkSaved (showZ id) year semester index moduleCode.
Definition rowCode (r : Row) : string := r.2.
Definition rowSemester (r : Row) : Z := r.1.1.2.
Definition rowYear (r : Row) : string := r.1.1.1.

(** ** Conversion of a generated plan *)

(** One value of [plan.courses]; the [type] field is not read. *)
Record CourseInfo := mkCourseInfo {
  ci_title : string;
  ci_credit : Z;
  ci_fluff : option bool
}.

(** The [plan] field of [GeneratePlanResponse], as far as the board reads
    it. *)
Record GeneratedPlan := mkGenerated {
  gp_sep_semester : option string;
  gp_plan : gmap string (list string);
  gp_exempted : option (list string);
  gp_courses : gmap string CourseInfo
}.

(** [courseInfo?.credit || 4] *)
Definition creditOrFour (courseInfo : option CourseInfo) : Z :=
  match courseInfo with
  | Some ci => Js.orFour (ci_credit ci)
  | None => 4
  end.

(** [convertModules] *)
Definition convertModules (plan : GeneratedPlan) (codes : list string)
    : list Module_ :=
  (fun code =>
     let courseInfo := gp_courses plan !! code in
     mkModule code
       (match courseInfo with
        | Some ci => if String.eqb (ci_title ci) "" then code else ci_title ci
        | None => code
        end)
       (Some (creditOrFour courseInfo))
       (match courseInfo with
        | Some ci => default false (ci_fluff ci)
        | None => false
        end)) <$> codes.

(** [mods.reduce((sum, m) => sum + (m.units || 4), 0)] *)
Definition sumUnits (mods : list Module_) : Z :=
  foldl (fun sum m => sum + unitsOrFour m) 0 mods.

(** [plan.plan[key] || []] *)
Definition semCodes (plan : GeneratedPlan) (key : string) : list string :=
  default [] (gp_plan plan !! key).

(** One element of [newAcademicYears]. *)
Definition convertYear (startYear : Z) (plan : GeneratedPlan) (yearNum : Z)
    : AcademicYear :=
  let sem1Key := "y" +:+ showZ yearNum +:+ "s1" in
  let sem2Key := "y" +:+ showZ yearNum +:+ "s2" in
  let sem1Modules := convertModules plan (semCodes plan sem1Key) in
  let sem2Modules := convertModules plan (semCodes plan sem2Key) in
  let sem1Units := sumUnits sem1Modules in
  let sem2Units := sumUnits sem2Modules in
  mkYear yearNum ("Year " +:+ showZ yearNum)
    (showZ (startYear + yearNum - 1) +:+ "/" +:+ showZ (startYear + yearNum))
    (sem1Units + sem2Units)
    [ mkSemester (yearNum * 10 + 1) "Semester 1" sem1Units sem1Modules
        (bool_decide (Some sem1Key = gp_sep_semester plan));
      mkSemester (yearNum * 10 + 2) "Semester 2" sem2Units sem2Modules
        (bool_decide (Some sem2Key = gp_sep_semester plan)) ].

Definition convertExempted (plan : GeneratedPlan) (codes : list string)
    : list StagedModule :=
  (fun code => mkStaged code code exempted (creditOrFour (gp_courses plan !! code)))
  <$> codes.

(** The effect that processes [generatedPlan]: the plan is replaced, the
    exempted modules only when the response lists them. *)
Definition processGeneratedPlan (b : Board) (startAcademicYear : string)
    (plan : GeneratedPlan) : Board :=
  let startYear := parseAcademicYear startAcademicYear in
  mkBoard (convertYear startYear plan <$> [1; 2; 3; 4])
    (match gp_exempted plan with
     | Some codes => convertExempted plan codes
     | None => stagedModules b
     end)
    (draggingModule b)
    (Some (mkToast "Study plan generated successfully!" toastSuccess))
    (shakingSemId b).

(** [year.semesters.reduce((acc, sem) => acc + (sem.isExchange ? 0 :
    sem.modules.length * 4), 0)], the units shown in the header of a year. *)
Definition yearTotalUnits (year : AcademicYear) : Z :=
  foldl (fun acc sem =>
           acc + (if s_isExchange sem then 0
                  else Z.of_nat (length (s_modules sem)) * 4))
        0 (y_semesters year).

Definition sumZ (l : list Z) : Z := foldr Z.add 0 l.

(** The credits that [progressionStats] reads from the board when no code
    is met twice. *)
Definition boardCredits (ays : list AcademicYear) (staged : list StagedModule)
    : Z :=
  sumZ (unitsOrFour <$> planModules ays)
  + sumZ ((fun m => Js.orFour (st_mcs m))
            <$> filter (fun m => st_type m = exempted) staged).

(** A response with three placed courses, one of two credits, and one
    exempted course. *)
Definition generatedExample : GeneratedPlan :=
  mkGenerated (Some "y2s1")
    (<["y1s1" := ["CS1101S"; "MA1521"]]> (<["y1s2" := ["CFG1002"]]> ∅))
    (Some ["MA1301"])
    (<["CS1101S" := mkCourseInfo "Programming Methodology" 4 None]>
       (<["CFG1002" := mkCourseInfo "Career Catalyst" 2 (Some true)]> ∅)).

(** ** The vocabulary of the specification, written out

    The definitions of this part use none of the functions of the component.
    They spell out the order of a semester, the codes taken before a pointer,
    the base code of a course code, the match of a code with a slot pattern
    and the credits of a module, so that the theorems on the matcher, the
    validator and the progress snapshot compare the component with them. *)

(** The semester number: 1 for [Semester 1], 2 for [Semester 2], read off
    the name as the character [1] being present or not. *)
Definition semesterNumber (s : Semester) : Z :=
  if Js.includes (s_name s) "1" then 1 else 2.

(** [order = year * 10 + semesterNumber] *)
Definition slotOrder (y : AcademicYear) (s : Semester) : Z :=
  y_year y * 10 + semesterNumber s.

(** Some module with the code [c] is placed in a semester whose order is
    strictly below [o]. *)
Definition placedEarlier (ays : list AcademicYear) (o : Z) (c : string) : Prop :=
  ∃ y s m, y ∈ ays ∧ s ∈ y_semesters y ∧ m ∈ s_modules s ∧ m_code m = c
           ∧ slotOrder y s < o.

(** [c] is the code of an exempted (staged) module. *)
Definition isExempted (staged : list StagedModule) (c : string) : Prop :=
  ∃ e, e ∈ staged ∧ st_code e = c.

(** The codes available at order [o]: placed strictly earlier, or exempted. *)
Definition availableAt (ays : list AcademicYear) (staged : list StagedModule)
    (o : Z) (c : string) : Prop :=
  placedEarlier ays o c ∨ isExempted staged c.

Definition isCapital (c : ascii) : Prop := (65 ≤ nat_of_ascii c ≤ 90)%nat.

Definition isDecimal (c : ascii) : Prop := (48 ≤ nat_of_ascii c ≤ 57)%nat.

Fixpoint allOf (P : ascii → Prop) (s : string) : Prop :=
  match s with
  | EmptyString => True
  | String c s' => P c ∧ allOf P s'
  end.

(** [code] begins with two to four capital letters followed by four digits,
    and [b] is that beginning. *)
Definition hasBase (code b : string) : Prop :=
  ∃ letters digits rest,
    code = letters +:+ digits +:+ rest ∧ b = letters +:+ digits
    ∧ (2 ≤ String.length letters ≤ 4)%nat ∧ allOf isCapital letters
    ∧ String.length digits = 4%nat ∧ allOf isDecimal digits.

(** The base code of [code]: its beginning of letters and four digits, any
    suffix ignored, and the code itself when it has no such beginning. *)
Definition baseCodeOf (code b : string) : Prop :=
  hasBase code b ∨ ((∀ b', ¬ hasBase code b') ∧ b = code).

Definition sameBase (c pattern : string) : Prop :=
  ∃ b, baseCodeOf c b ∧ baseCodeOf pattern b.

(** [pattern] ends in [%] and [c] starts with what precedes the [%]. *)
Definition wildcardMatch (c pattern : string) : Prop :=
  ∃ prefix rest, pattern = prefix +:+ "%" ∧ c = prefix +:+ rest.

(** The code [c] matches the slot pattern. *)
Definition matchesSlot (pattern c : string) : Prop :=
  sameBase c pattern ∨ wildcardMatch c pattern.

(** The credit value of a placed module: its units, and 4 when the units
    are absent or 0. *)
Definition creditOf (m : Module_) : Z :=
  match m_units m with
  | Some u => if u =? 0 then 4 else u
  | None => 4
  end.

(** The credit value of an exempted module. *)
Definition exemptedCredit (e : StagedModule) : Z :=
  if st_mcs e =? 0 then 4 else st_mcs e.

(** ** Answers of the catalog as they arrive

    [response.json()] is not checked against the declared result type: a
    body that the server sends with an ok status reaches the validator as it
    is, and a field that the validator reads may be absent ([undefined]).
    The records below are the answers with each field that is read made
    optional; the fields that are present have their declared type. *)
Record RawPrereqResult := mkRawPrereq {
  raw_satisfied : option bool;
  raw_missing : option (list string)
}.

Record RawOfferedResult := mkRawOffered { raw_offered : option bool }.

(** [None] stands for a thrown error, as in [Catalog]. *)
Record RawCatalog := mkRawCatalog {
  rawCheckPrerequisites : string -> list string -> option RawPrereqResult;
  rawCheckModuleOffered : string -> Z -> option RawOfferedResult
}.

(** The truth value of a field that may be absent: [undefined] is falsy. *)
Definition truthy (b : option bool) : bool := default false b.

(** The callback of [checkModule] on such answers.  In
    [!result.satisfied && result.missing.length > 0] the read of [length] on
    an absent [missing] throws a [TypeError], which the [catch] of the
    prerequisite lookup ignores. *)
Definition checkModuleRaw (cat : RawCatalog) (completed : list string)
    (semNum : Z) (v : Violations) (md : Module_) : Violations :=
  if m_fluff md then v
  else
    let pV :=
      match rawCheckPrerequisites cat (m_code md) completed with
      | Some result =>
          if negb (truthy (raw_satisfied result)) then
            match raw_missing result with
            | Some missing =>
                if 0 <? Z.of_nat (length missing)
                then <[m_code md := missing]> (prereqViolations v)
                else prereqViolations v
            | None => prereqViolations v
            end
          else prereqViolations v
      | None => prereqViolations v
      end in
    let oV :=
      match rawCheckModuleOffered cat (m_code md) semNum with
      | Some offering =>
          if negb (truthy (raw_offered offering))
          then <[m_code md := "Not offered in Semester " +:+ showDigit semNum]>
                 (offeringViolations v)
          else offeringViolations v
      | None => offeringViolations v
      end in
    mkViolations pV oV.

Definition checkSemesterRaw (cat : RawCatalog) (ays : list AcademicYear)
    (staged : list StagedModule) (year : AcademicYear) (v : Violations)
    (sem : Semester) : Violations :=
  let semOrd := semOrder year sem in
  let semNum := semNumOf (s_name sem) in
  foldl (checkModuleRaw cat (completedBefore ays staged semOrd) semNum) v
        (s_modules sem).

Definition checkAllConstraintsRaw (cat : RawCatalog) (ays : list AcademicYear)
    (staged : list StagedModule) : Violations :=
  foldl (fun v year => foldl (checkSemesterRaw cat ays staged year) v
                             (y_semesters year))
        noViolations ays.

(** An answer of the declared type, as it arrives. *)
Definition asRaw (cat : Catalog) : RawCatalog :=
  mkRawCatalog
    (fun code completed =>
       (fun r => mkRawPrereq (Some (satisfied r)) (Some (missing r)))
       <$> checkPrerequisites cat code completed)
    (fun code semNum =>
       (fun r => mkRawOffered (Some (offered r)))
       <$> checkModuleOffered cat code semNum).

(** The answer of the declared type that has the same effect on the
    validator, if any; an answer whose read throws has the effect of a thrown
    lookup. *)
Definition typedView (cat : RawCatalog) : Catalog :=
  mkCatalog
    (fun code completed =>
       match rawCheckPrerequisites cat code completed with
       | Some result =>
           if truthy (raw_satisfied result) then Some (mkPrereq true [])
           else mkPrereq false <$> raw_missing result
       | None => None
       end)
    (fun code semNum =>
       (fun r => mkOffered (truthy (raw_offered r)))
       <$> rawCheckModuleOffered cat code semNum).

(** An unknown-code result of the offering lookup: an answer that does not
    carry the field of the declared result. *)
Definition unknownOffering (r : RawOfferedResult) : Prop :=
  raw_offered r = None.

(** The reading of fail-open that includes unknown-code results: when every
    offering lookup for the code throws or returns an unknown-code result,
    no offering violation is recorded for it. *)
Definition failOpenOnUnknown (cat : RawCatalog) (ays : list AcademicYear)
    (staged : list StagedModule) : Prop :=
  ∀ c,
    (∀ y s m, y ∈ ays → s ∈ y_semesters y → m ∈ s_modules s → m_code m = c →
       rawCheckModuleOffered cat c (semesterNumber s) = None
       ∨ ∃ r, rawCheckModuleOffered cat c (semesterNumber s) = Some r
              ∧ unknownOffering r) →
    offeringViolations (checkAllConstraintsRaw cat ays staged) !! c = None.

(** A catalog that knows no code: both lookups return a body without the
    fields of the declared result. *)
Definition unknownCatalog : RawCatalog :=
  mkRawCatalog (fun _ _ => Some (mkRawPrereq None None))
               (fun _ _ => Some (mkRawOffered None)).

(** A catalog whose lookups all throw. *)
Definition throwingCatalog : RawCatalog :=
  mkRawCatalog (fun _ _ => None) (fun _ _ => None).

(** *** Unrestricted electives *)

(** Some slot outside the unrestricted electives matches the code. *)
Definition consumedByOther (c : string) : Prop :=
  ∃ pattern, pattern ∈ nonElectiveSlots REQUIREMENTS ∧ matchesSlot pattern c.

(** A code that is available at order [o] and that no slot outside the
    unrestricted electives matches. *)
Definition unconsumedTaken (ays : list AcademicYear) (staged : list StagedModule)
    (o : Z) (c : string) : Prop :=
  availableAt ays staged o c ∧ ¬ consumedByOther c.

(** The reading of the overflow rule over the whole plan: with [U] the
    unconsumed codes of the plan and of the exempted modules, [min (|U|, M)]
    slots of the unrestricted electives are reported fulfilled. *)
Definition overflowOverPlan (ays : list AcademicYear)
    (staged : list StagedModule) (cy cs : Z) : Prop :=
  ∀ U : list string,
    NoDup U →
    (∀ c, c ∈ U
          ↔ ((∃ y s m, y ∈ ays ∧ s ∈ y_semesters y ∧ m ∈ s_modules s
                       ∧ m_code m = c)
             ∨ isExempted staged c)
            ∧ ¬ consumedByOther c) →
    length (filter (fun slot => checkRequirement ays staged cy cs slot = true)
                   ueSlots)
    = (length U `min` length ueSlots)%nat.

(** Three modules that no slot outside the unrestricted electives matches,
    placed in year 1, semester 1. *)
Definition planThreeElectives : list AcademicYear :=
  [ mkYear 1 "Year 1" "2025/2026" 12
      [ mkSemester 1 "Semester 1" 12
          [ mkModule "LAJ1201" "Japanese 1" (Some 4) false;
            mkModule "PC1101" "Frontiers of Physics" (Some 4) false;
            mkModule "MA1301" "Introductory Mathematics" (Some 4) false ] false;
        mkSemester 2 "Semester 2" 0 [] false ] ].

(** *** The progress snapshot, written out

    Every exempted module is an entry of the completed bucket with its
    credit value; every placed module is an entry with its credit value in
    the bucket that the order [year * 10 + semesterNumber] of its semester
    selects against the order of the pointer. *)
Definition bucketAt (order currentOrder : Z) : Bucket :=
  if order <? currentOrder then Completed
  else if order =? currentOrder then Current
  else Planned.

Definition exemptedEntries (staged : list StagedModule) : list Entry :=
  (fun e => mkEntry (st_code e) (exemptedCredit e) Completed)
  <$> filter (fun e => st_type e = exempted) staged.

Definition placedEntries (ays : list AcademicYear) (currentOrder : Z)
    : list Entry :=
  y ← ays; s ← y_semesters y;
  (fun m => mkEntry (m_code m) (creditOf m)
                    (bucketAt (y_year y * 10 + semesterNumber s) currentOrder))
  <$> s_modules s.

Definition snapshotEntries (ays : list AcademicYear)
    (staged : list StagedModule) (currentOrder : Z) : list Entry :=
  exemptedEntries staged ++ placedEntries ays currentOrder.

(** The total of one bucket in the statistics. *)
Definition bucketTotal (b : Bucket) (st : Stats) : Z :=
  match b with
  | Completed => completed st
  | Current => current st
  | Planned => planned st
  end.

(** A plan with credits of 4, 2, 12 and an absent value, and a fluff module
    of 2 credits in year 1, semester 2. *)
Definition cfgFluff : Module_ := mkModule "CFG1002" "Career Catalyst" (Some 2) true.

Definition planMixedCredits : list AcademicYear :=
  [ mkYear 1 "Year 1" "2025/2026" 6
      [ mkSemester 1 "Semester 1" 4 [cs1101s] false;
        mkSemester 2 "Semester 2" 2 [cfgFluff] false ];
    mkYear 2 "Year 2" "2026/2027" 16
      [ mkSemester 3 "Semester 1" 16
          [ mkModule "CP3880" "Advanced Technology Attachment" (Some 12) false;
            mkModule "CS2030S" "Programming Methodology II" None false ] false;
        mkSemester 4 "Semester 2" 0 [] false ] ].

(** *** Duplicate placements, on drags that begin on a card *)

(** [handleDragStart]: the drag state is set; the drag image is not
    modelled.  The cards of the plan call it with [source = 'semester'] and
    the id of their semester. *)
Definition handleDragStart (b : Board) (moduleCode : string)
    (source : DragSource) (sourceId : option Z) : Board :=
  mkBoard (academicYears b) (stagedModules b)
          (Some (mkDragging moduleCode source sourceId)) (toast b)
          (shakingSemId b).

(** The ids of the semesters other than [sourceId] that hold the code. *)
Definition otherHolders (ays : list AcademicYear) (code : string)
    (sourceId : Z) : list Z :=
  y ← ays; s ← y_semesters y;
  (if hasCode code (s_modules s) && negb (s_id s =? sourceId)
   then [s_id s] else []).

(** The reading under which a rejected drop tells which semester holds the
    conflicting code: a semester that holds it, other than the one the card
    is dragged from, can be read off the feedback. *)
Definition rejectionTellsHolder : Prop :=
  ∃ informs : option Toast * option Z → Z,
    ∀ b targetSemId insertAtIndex code sourceId,
      draggingModule b = Some (mkDragging code fromSemester (Some sourceId)) →
      sourceId ≠ targetSemId →
      (∃ y s, y ∈ academicYears b ∧ s ∈ y_semesters y ∧ s_id s = targetSemId) →
      heldElsewhere (academicYears b) code fromSemester (Some sourceId) →
      informs (feedback (handleDrop b targetSemId insertAtIndex))
      ∈ otherHolders (academicYears b) code sourceId.

(** A response of the plan generator that places [CS1101S] in both
    semesters of year [k]. *)
Definition generatedTwice (k : Z) : GeneratedPlan :=
  mkGenerated None
    (<["y" +:+ showZ k +:+ "s1" := ["CS1101S"]]>
       (<["y" +:+ showZ k +:+ "s2" := ["CS1101S"]]> ∅))
    None ∅.

(** The board after that response is processed and the card of [CS1101S]
    in semester 2 of year [k] is picked up. *)
Definition boardTwice (k : Z) : Board :=
  handleDragStart
    (processGeneratedPlan initialBoard "2024/2025" (generatedTwice k))
    "CS1101S" fromSemester (Some (k * 10 + 2)).

(** * Properties *)

#[local] Set Warnings "-clear-no-such-hyp".

(** ** The definitions on concrete inputs *)

Example getBaseCode_suffix : getBaseCode "CS2040S" = "CS2040".
Proof. reflexivity. Qed.

Example getBaseCode_wildcard : getBaseCode "GEC%" = "GEC%".
Proof. reflexivity. Qed.

Example getBaseCode_five_letters : getBaseCode "ABCDE1234" = "ABCDE1234".
Proof. reflexivity. Qed.

Example getBaseCode_three_digits : getBaseCode "MA152" = "MA152".
Proof. reflexivity. Qed.

Example parseInt_slot : Js.parseInt (Js.split "UE 10" " " !! 1%nat) = Some 10.
Proof. reflexivity. Qed.

Example parseInt_absent : Js.parseInt (Js.split "UE" " " !! 1%nat) = None.
Proof. reflexivity. Qed.

Example parseCurrentSemester_examples :
  parseCurrentSemester "Y2S1" = (2, 1)
  ∧ parseCurrentSemester "Y0S0" = (0, 0)
  ∧ parseCurrentSemester "incoming" = (1, 1).
Proof. repeat split; reflexivity. Qed.

Example semNumOf_examples :
  semNumOf "Semester 1" = 1 ∧ semNumOf "Semester 2" = 2
  ∧ semNumOf "Special Term 1" = 1 ∧ semNumOf "Special Term 2" = 2.
Proof. repeat split; reflexivity. Qed.

(** Scenario 3 of the specification, with the pointer after the semester
    that holds [GEC1021]. *)
Example scenario_wildcard : checkRequirement planWithGEC [] 1 2 "GEC%" = true.
Proof. vm_compute. reflexivity. Qed.

(** ** Sets and membership *)

Lemma elem_of_setAdd x y s : x ∈ Js.setAdd y s ↔ x = y ∨ x ∈ s.
Proof.
  unfold Js.setAdd. case_bool_decide as Hy.
  - split; [auto|]. intros [->|]; done.
  - rewrite elem_of_app, list_elem_of_singleton. tauto.
Qed.

Lemma NoDup_setAdd y s : NoDup s → NoDup (Js.setAdd y s).
Proof.
  intros Hs. unfold Js.setAdd. case_bool_decide as Hy; [done|].
  apply NoDup_app. split_and!; [done| |apply NoDup_singleton].
  intros x Hx ->%list_elem_of_singleton. done.
Qed.

Lemma newSet_from acc l :
  (∀ x, x ∈ foldl (fun s x => Js.setAdd x s) acc l ↔ x ∈ acc ∨ x ∈ l)
  ∧ (NoDup acc → NoDup (foldl (fun s x => Js.setAdd x s) acc l)).
Proof.
  revert acc. induction l as [|a l IH]; intros acc; simpl.
  - split; [|done]. intros x. rewrite elem_of_nil. tauto.
  - destruct (IH (Js.setAdd a acc)) as [IH1 IH2]. split.
    + intros x. rewrite IH1, elem_of_setAdd, elem_of_cons. tauto.
    + intros Hacc. by apply IH2, NoDup_setAdd.
Qed.

Lemma elem_of_newSet x l : x ∈ Js.newSet l ↔ x ∈ l.
Proof.
  unfold Js.newSet. rewrite (proj1 (newSet_from [] l)), elem_of_nil. tauto.
Qed.

Lemma NoDup_newSet l : NoDup (Js.newSet l).
Proof. apply newSet_from, NoDup_nil_2. Qed.

Lemma existsb_elem_of {A} (f : A → bool) (l : list A) :
  existsb f l = true ↔ ∃ x, x ∈ l ∧ f x = true.
Proof.
  rewrite existsb_exists. setoid_rewrite list_elem_of_In. done.
Qed.

Lemma existsb_false_elem_of {A} (f : A → bool) (l : list A) :
  existsb f l = false ↔ ∀ x, x ∈ l → f x = false.
Proof.
  rewrite <-not_true_iff_false, existsb_elem_of. split.
  - intros H x Hx. apply not_true_iff_false. naive_solver.
  - intros H (x & Hx & Hf). rewrite (H x Hx) in Hf. done.
Qed.


Lemma elem_of_codesBefore ays ord c :
  c ∈ (y ← ays; s ← y_semesters y;
       (if semOrder y s <? ord then m_code <$> s_modules s else []))
  ↔ placedBefore ays ord c.
Proof.
  unfold placedBefore. rewrite list_elem_of_bind. split.
  - intros (y & Hc & Hy). apply list_elem_of_bind in Hc as (s & Hc & Hs).
    destruct (Z.ltb_spec (semOrder y s) ord); [|by apply elem_of_nil in Hc].
    apply list_elem_of_fmap in Hc as (m & -> & Hm). eauto 10.
  - intros (y & s & m & Hy & Hs & Hlt & Hm & <-). exists y. split; [|done].
    apply list_elem_of_bind. exists s. split; [|done].
    apply Z.ltb_lt in Hlt. rewrite Hlt. apply list_elem_of_fmap. eauto.
Qed.

Lemma elem_of_allTakenModules ays staged cy cs c :
  c ∈ allTakenModules ays staged cy cs
  ↔ placedBefore ays (cy * 10 + cs) c ∨ c ∈ stagedCodes staged.
Proof.
  unfold allTakenModules. cbv zeta.
  rewrite elem_of_newSet, elem_of_app, elem_of_codesBefore. done.
Qed.

Lemma elem_of_completedBefore ays staged ord c :
  c ∈ completedBefore ays staged ord
  ↔ placedBefore ays ord c ∨ c ∈ stagedCodes staged.
Proof.
  unfold completedBefore. rewrite elem_of_app, elem_of_codesBefore. done.
Qed.

(** ** The requirement matcher *)

Lemma substring_length n m s :
  String.length (String.substring n m s) = (m `min` (String.length s - n))%nat.
Proof.
  revert n m. induction s as [|c s IH]; intros [|n] [|m];
    cbn [String.substring String.length]; rewrite ?IH; lia.
Qed.

Lemma matchBaseWith_length n code b :
  matchBaseWith n code = Some b → String.length b = (n + 4)%nat.
Proof.
  unfold matchBaseWith. intros H.
  destruct (_ && _) eqn:Hc in H; [|done]. injection H as <-.
  repeat (apply andb_true_iff in Hc as [Hc ?]).
  match goal with H : (_ =? 4)%nat = true |- _ => apply Nat.eqb_eq in H; rename H into H4 end.
  rewrite substring_length in H4 |- *. lia.
Qed.

(** A base code is the code itself or has at least six characters. *)
Lemma getBaseCode_short code :
  (String.length (getBaseCode code) < 6)%nat → getBaseCode code = code.
Proof.
  unfold getBaseCode, matchBase.
  destruct (matchBaseWith 4 code) as [b|] eqn:H4.
  { apply matchBaseWith_length in H4. lia. }
  destruct (matchBaseWith 3 code) as [b|] eqn:H3.
  { apply matchBaseWith_length in H3. lia. }
  destruct (matchBaseWith 2 code) as [b|] eqn:H2; [|done].
  apply matchBaseWith_length in H2. lia.
Qed.

Lemma consumeStep_slotConsumes c consumed myCode :
  consumeStep c consumed myCode =
  if slotConsumes (c_code c) myCode then Js.setAdd myCode consumed else consumed.
Proof.
  unfold consumeStep, slotConsumes. cbv zeta.
  destruct (String.eqb _ _); [done|]. by destruct (_ && _).
Qed.

Lemma elem_of_consume_taken c takenSet consumed x :
  x ∈ foldl (consumeStep c) consumed takenSet
  ↔ x ∈ consumed ∨ (x ∈ takenSet ∧ slotConsumes (c_code c) x = true).
Proof.
  revert consumed. induction takenSet as [|t ts IH]; intros consumed; simpl.
  - rewrite elem_of_nil. tauto.
  - rewrite IH, consumeStep_slotConsumes, elem_of_cons.
    destruct (slotConsumes (c_code c) t) eqn:Ht.
    + rewrite elem_of_setAdd. split; [|naive_solver].
      intros [[->|?]|[? ?]]; eauto.
    + split; [naive_solver|]. intros [?|[[->|?] ?]]; eauto. congruence.
Qed.

Lemma elem_of_consume_courses cs takenSet consumed x :
  x ∈ foldl (fun consumed c => foldl (consumeStep c) consumed takenSet) consumed cs
  ↔ x ∈ consumed
    ∨ (x ∈ takenSet ∧ ∃ p, p ∈ c_code <$> cs ∧ slotConsumes p x = true).
Proof.
  revert consumed. induction cs as [|c cs IH]; intros consumed; simpl.
  - split; [auto|]. intros [?|[_ (p & Hp & _)]]; [done|].
    by apply elem_of_nil in Hp.
  - rewrite IH, elem_of_consume_taken. setoid_rewrite elem_of_cons.
    split; [naive_solver|]. intros [?|[? (p & [->|?] & ?)]]; eauto 10.
Qed.

Lemma elem_of_consumedBy_from reqs takenSet consumed x :
  x ∈ foldl (fun consumed cat =>
               if String.eqb (category cat) "Unrestricted Electives" then consumed
               else foldl (fun consumed c => foldl (consumeStep c) consumed takenSet)
                          consumed (courses cat)) consumed reqs
  ↔ x ∈ consumed ∨ (x ∈ takenSet ∧ isConsumed reqs x = true).
Proof.
  unfold isConsumed. setoid_rewrite existsb_elem_of.
  revert consumed. induction reqs as [|cat reqs IH]; intros consumed.
  - simpl. split; [auto|]. intros [?|[_ (p & Hp & _)]]; [done|].
    by apply elem_of_nil in Hp.
  - cbn [foldl]. rewrite IH. unfold nonElectiveSlots. rewrite bind_cons.
    setoid_rewrite elem_of_app.
    destruct (String.eqb (category cat) "Unrestricted Electives").
    + setoid_rewrite elem_of_nil. naive_solver.
    + rewrite elem_of_consume_courses. naive_solver.
Qed.

Lemma elem_of_consumedBy reqs takenSet x :
  x ∈ consumedBy reqs takenSet ↔ x ∈ takenSet ∧ isConsumed reqs x = true.
Proof.
  unfold consumedBy. rewrite elem_of_consumedBy_from, elem_of_nil. tauto.
Qed.

Lemma filter_ext_elem {A} (P Q : A → Prop) `{∀ x, Decision (P x)}
    `{∀ x, Decision (Q x)} (l : list A) :
  (∀ x, x ∈ l → P x ↔ Q x) → filter P l = filter Q l.
Proof.
  induction l as [|a l IH]; intros Hl; [done|].
  rewrite !filter_cons.
  rewrite IH by (intros x Hx; apply Hl; by right).
  destruct (decide (P a)) as [Hp|Hp], (decide (Q a)) as [Hq|Hq]; try done;
    exfalso; apply (Hl a (list_elem_of_here _ _)) in Hp || apply (Hl a (list_elem_of_here _ _)) in Hq; done.
Qed.

Lemma unconsumed_filter reqs takenSet :
  unconsumed reqs takenSet = filter (fun c => isConsumed reqs c = false) takenSet.
Proof.
  unfold unconsumed. apply filter_ext_elem. intros x Hx.
  rewrite elem_of_consumedBy. destruct (isConsumed reqs x); naive_solver.
Qed.

Lemma direct_match_false takenSet label :
  getBaseCode label = label → (String.length label < 6)%nat →
  label ∉ takenSet →
  existsb (fun takenCode => String.eqb (getBaseCode takenCode) (getBaseCode label))
          takenSet = false.
Proof.
  intros Hb Hlen Hnot. apply existsb_false_elem_of. intros t Ht.
  apply not_true_iff_false. intros Heq%String.eqb_eq.
  rewrite Hb in Heq. assert (getBaseCode t = t) as Ht'.
  { apply getBaseCode_short. by rewrite Heq. }
  congruence.
Qed.

Lemma checkRequirementIn_ue reqs takenSet label n :
  getBaseCode label = label → (String.length label < 6)%nat →
  Js.endsWith label "%" = false → Js.startsWith label "UE" = true →
  Js.parseInt (Js.split label " " !! 1%nat) = Some n →
  label ∉ takenSet →
  checkRequirementIn reqs takenSet label
  = (n - 1 <? Z.of_nat (length (filter (fun c => isConsumed reqs c = false)
                                       takenSet))).
Proof.
  intros Hb Hlen Hend Hstart Hparse Hnot. unfold checkRequirementIn. cbv zeta.
  rewrite direct_match_false, Hend, Hstart, Hparse, unconsumed_filter by done.
  done.
Qed.

Lemma count_prefix_true {A} (f : A → bool) (l : list A) (n : nat) :
  (∀ i x, l !! i = Some x → f x = bool_decide (i < n)%nat) →
  length (filter (fun x => f x = true) l) = (n `min` length l)%nat.
Proof.
  revert n. induction l as [|a l IH]; intros n Hl; [simpl; lia|].
  pose proof (Hl 0%nat a eq_refl) as Ha.
  assert (length (filter (fun x => f x = true) l) = (pred n `min` length l)%nat)
    as Hrec.
  { apply IH. intros i x Hi. rewrite (Hl (S i) x Hi).
    apply bool_decide_ext. lia. }
  rewrite filter_cons. destruct (decide (f a = true)) as [Hfa|Hfa].
  - rewrite Hfa in Ha. symmetry in Ha. apply bool_decide_eq_true in Ha.
    cbn [length]. rewrite Hrec. lia.
  - apply not_true_is_false in Hfa. rewrite Hfa in Ha. symmetry in Ha.
    apply bool_decide_eq_false in Ha. rewrite Hrec. cbn [length]. lia.
Qed.

Lemma ueSlots_shape i slot :
  ueSlots !! i = Some slot →
  getBaseCode slot = slot ∧ (String.length slot < 6)%nat
  ∧ Js.endsWith slot "%" = false ∧ Js.startsWith slot "UE" = true
  ∧ Js.parseInt (Js.split slot " " !! 1%nat) = Some (Z.of_nat i + 1).
Proof.
  intros Hi.
  do 10 (destruct i as [|i];
         [injection Hi as <-; vm_compute; split_and!; (reflexivity || lia)|]).
  done.
Qed.

Lemma checkRequirementIn_pattern reqs takenSet reqCode :
  Js.startsWith reqCode "UE" = false ∨ Js.endsWith reqCode "%" = true →
  checkRequirementIn reqs takenSet reqCode = true
  ↔ ∃ c, c ∈ takenSet
         ∧ (getBaseCode c = getBaseCode reqCode
            ∨ (Js.endsWith reqCode "%" = true
               ∧ Js.startsWith c (Js.sliceInit reqCode) = true)).
Proof.
  intros Hshape. unfold checkRequirementIn. cbv zeta.
  destruct (existsb _ takenSet) eqn:Hdirect.
  { apply existsb_elem_of in Hdirect as (c & Hc & Heq%String.eqb_eq).
    split; [eauto|done]. }
  assert (∀ c, c ∈ takenSet → getBaseCode c ≠ getBaseCode reqCode) as Hne.
  { intros c Hc Heq. apply existsb_false_elem_of with (x := c) in Hdirect; [|done].
    apply String.eqb_neq in Hdirect. done. }
  destruct (Js.endsWith reqCode "%") eqn:Hend.
  - rewrite existsb_elem_of. split.
    + intros (c & Hc & Hp). eauto.
    + intros (c & Hc & [Heq|[_ Hp]]); [by destruct (Hne c Hc)|eauto].
  - destruct Hshape as [Hue|?]; [|done]. rewrite Hue. split; [done|].
    intros (c & Hc & [Heq|[? _]]); [by destruct (Hne c Hc)|done].
Qed.

(** C2 as stated fails: with [GEC1021] placed in the current semester
    (year 1, semester 1) the plan holds a code that starts with [GEC], yet the
    slot [GEC%] is not reported fulfilled. *)
Lemma checkRequirement_not_whole_plan :
  let '(cy, cs) := parseCurrentSemester "Y1S1" in
  ¬ (checkRequirement planWithGEC [] cy cs "GEC%" = true
     ↔ fulfilledByPlan planWithGEC [] "GEC%").
Proof.
  simpl. intros [_ Hfrom].
  assert (checkRequirement planWithGEC [] 1 1 "GEC%" = true) as Hcheck.
  { apply Hfrom. exists "GEC1021". split.
    - apply list_elem_of_here.
    - right. split; reflexivity. }
  vm_compute in Hcheck. discriminate Hcheck.
Qed.

(** ** The constraint validator *)

Section Validator.
Variable cat : Catalog.
Variable ays : list AcademicYear.
Variable staged : list StagedModule.

Lemma checkAllConstraints_from (l : list AcademicYear) (v : Violations) :
  foldl (fun v year => foldl (checkSemester cat ays staged year) v
                             (y_semesters year)) v l
  = foldl (checkTask cat ays staged) v (tasksOf l).
Proof.
  revert v. induction l as [|y l IH]; intros v; [done|].
  unfold tasksOf in *. cbn [foldl]. rewrite bind_cons, foldl_app, IH.
  f_equal. clear IH. generalize (y_semesters y). intros ss. revert v.
  induction ss as [|s ss IHs]; intros v; [done|].
  cbn [foldl]. rewrite bind_cons, foldl_app, IHs. f_equal.
  unfold checkSemester. cbv zeta. generalize (s_modules s). intros ms.
  clear IHs. revert v. induction ms as [|m ms IHm]; intros v; [done|].
  cbn [foldl fmap list_fmap]. apply IHm.
Qed.

Lemma checkAllConstraints_tasks :
  checkAllConstraints cat ays staged
  = foldl (checkTask cat ays staged) noViolations (tasksOf ays).
Proof. apply checkAllConstraints_from. Qed.

Lemma checkTask_prereq v t :
  prereqViolations (checkTask cat ays staged v t)
  = match prereqOutcome cat (completedBefore ays staged (tk_order t))
                        (tk_module t) with
    | Some ms => <[tk_code t := ms]> (prereqViolations v)
    | None => prereqViolations v
    end.
Proof.
  unfold checkTask, checkModule, prereqOutcome, tk_code.
  destruct (m_fluff _); [done|]. cbn.
  destruct (checkPrerequisites _ _ _) as [r|]; [|done].
  by destruct (_ && _).
Qed.

Lemma checkTask_offering v t :
  offeringViolations (checkTask cat ays staged v t)
  = match offeringOutcome cat (tk_semNum t) (tk_module t) with
    | Some msg => <[tk_code t := msg]> (offeringViolations v)
    | None => offeringViolations v
    end.
Proof.
  unfold checkTask, checkModule, offeringOutcome, tk_code.
  destruct (m_fluff _); [done|]. cbn.
  destruct (checkModuleOffered _ _ _) as [r|]; [|done].
  by destruct (negb _).
Qed.

(** Calls for other codes, and calls that write nothing, leave the entry
    of a code as it was. *)
Lemma prereq_untouched c ts v :
  (∀ t, t ∈ ts → tk_code t = c →
        prereqOutcome cat (completedBefore ays staged (tk_order t))
                      (tk_module t) = None) →
  prereqViolations (foldl (checkTask cat ays staged) v ts) !! c
  = prereqViolations v !! c.
Proof.
  revert v. induction ts as [|t ts IH]; intros v Hts; [done|].
  cbn [foldl]. rewrite IH by (intros t' Ht'; apply Hts; by right).
  rewrite checkTask_prereq.
  destruct (prereqOutcome _ _ _) as [ms|] eqn:Hout; [|done].
  destruct (decide (tk_code t = c)) as [Heq|Hne].
  - rewrite Hts in Hout; [done|by left|done].
  - by rewrite lookup_insert_ne.
Qed.

Lemma offering_untouched c ts v :
  (∀ t, t ∈ ts → tk_code t = c →
        offeringOutcome cat (tk_semNum t) (tk_module t) = None) →
  offeringViolations (foldl (checkTask cat ays staged) v ts) !! c
  = offeringViolations v !! c.
Proof.
  revert v. induction ts as [|t ts IH]; intros v Hts; [done|].
  cbn [foldl]. rewrite IH by (intros t' Ht'; apply Hts; by right).
  rewrite checkTask_offering.
  destruct (offeringOutcome _ _ _) as [ms|] eqn:Hout; [|done].
  destruct (decide (tk_code t = c)) as [Heq|Hne].
  - rewrite Hts in Hout; [done|by left|done].
  - by rewrite lookup_insert_ne.
Qed.

(** When codes are distinct, the entry of a code is what its one call
    wrote. *)
Lemma prereq_of_task ts v t :
  NoDup (tk_code <$> ts) → t ∈ ts →
  prereqViolations (foldl (checkTask cat ays staged) v ts) !! tk_code t
  = match prereqOutcome cat (completedBefore ays staged (tk_order t))
                        (tk_module t) with
    | Some ms => Some ms
    | None => prereqViolations v !! tk_code t
    end.
Proof.
  revert v. induction ts as [|t0 ts IH]; intros v Hnd Ht.
  { by apply elem_of_nil in Ht. }
  rewrite fmap_cons in Hnd. apply NoDup_cons in Hnd as [Hfresh Hnd].
  cbn [foldl]. apply elem_of_cons in Ht as [->|Ht].
  - rewrite prereq_untouched.
    + rewrite checkTask_prereq. destruct (prereqOutcome _ _ _); [|done].
      by rewrite lookup_insert_eq.
    + intros t' Ht' Heq. destruct Hfresh. rewrite <-Heq.
      by apply list_elem_of_fmap_2.
  - rewrite IH by done. destruct (prereqOutcome _ _ (tk_module t)); [done|].
    rewrite checkTask_prereq. destruct (prereqOutcome _ _ _); [|done].
    rewrite lookup_insert_ne; [done|]. intros Heq. destruct Hfresh.
    rewrite Heq. by apply list_elem_of_fmap_2.
Qed.

Lemma offering_of_task ts v t :
  NoDup (tk_code <$> ts) → t ∈ ts →
  offeringViolations (foldl (checkTask cat ays staged) v ts) !! tk_code t
  = match offeringOutcome cat (tk_semNum t) (tk_module t) with
    | Some msg => Some msg
    | None => offeringViolations v !! tk_code t
    end.
Proof.
  revert v. induction ts as [|t0 ts IH]; intros v Hnd Ht.
  { by apply elem_of_nil in Ht. }
  rewrite fmap_cons in Hnd. apply NoDup_cons in Hnd as [Hfresh Hnd].
  cbn [foldl]. apply elem_of_cons in Ht as [->|Ht].
  - rewrite offering_untouched.
    + rewrite checkTask_offering. destruct (offeringOutcome _ _ _); [|done].
      by rewrite lookup_insert_eq.
    + intros t' Ht' Heq. destruct Hfresh. rewrite <-Heq.
      by apply list_elem_of_fmap_2.
  - rewrite IH by done. destruct (offeringOutcome _ _ (tk_module t)); [done|].
    rewrite checkTask_offering. destruct (offeringOutcome _ _ _); [|done].
    rewrite lookup_insert_ne; [done|]. intros Heq. destruct Hfresh.
    rewrite Heq. by apply list_elem_of_fmap_2.
Qed.
End Validator.

Lemma tasksOf_codes ays : tk_code <$> tasksOf ays = planCodes ays.
Proof.
  unfold planCodes, planModules, tasksOf.
  induction ays as [|y ays IH]; [done|].
  rewrite !bind_cons, !fmap_app, IH. f_equal.
  generalize (y_semesters y). intros ss.
  induction ss as [|s ss IHs]; [done|].
  rewrite !bind_cons, !fmap_app, IHs. f_equal.
  rewrite <-list_fmap_compose. done.
Qed.

Lemma elem_of_tasksOf ays t :
  t ∈ tasksOf ays
  ↔ ∃ y s, y ∈ ays ∧ s ∈ y_semesters y ∧ tk_module t ∈ s_modules s
           ∧ tk_order t = semOrder y s ∧ tk_semNum t = semNumOf (s_name s).
Proof.
  unfold tasksOf. rewrite list_elem_of_bind. split.
  - intros (y & Ht & Hy). apply list_elem_of_bind in Ht as (s & Ht & Hs).
    apply list_elem_of_fmap in Ht as (m & -> & Hm). eauto 10.
  - intros (y & s & Hy & Hs & Hm & Ho & Hn). exists y. split; [|done].
    apply list_elem_of_bind. exists s. split; [|done].
    apply list_elem_of_fmap. exists (tk_module t). split; [|done].
    destruct t; simpl in *; congruence.
Qed.

Lemma placedBefore_tasks ays ord c :
  placedBefore ays ord c ↔ ∃ t, t ∈ tasksOf ays ∧ tk_order t < ord ∧ tk_code t = c.
Proof.
  unfold placedBefore. split.
  - intros (y & s & m & Hy & Hs & Hlt & Hm & Hc).
    exists (mkTask m (semOrder y s) (semNumOf (s_name s))). split_and!; [|done..].
    apply elem_of_tasksOf. eauto 10.
  - intros (t & (y & s & Hy & Hs & Hm & Ho & Hn)%elem_of_tasksOf & Hlt & Hc).
    exists y, s, (tk_module t). rewrite <-Ho. eauto 10.
Qed.

Lemma NoDup_fmap_inj_on {A B} (f : A → B) (l : list A) x y :
  NoDup (f <$> l) → x ∈ l → y ∈ l → f x = f y → x = y.
Proof.
  intros Hnd (i & Hi)%list_elem_of_lookup_1 (j & Hj)%list_elem_of_lookup_1 Heq.
  assert (i = j) as ->.
  { eapply NoDup_lookup; [done| |].
    - by rewrite list_lookup_fmap, Hi.
    - rewrite list_lookup_fmap, Hj. simpl. by rewrite Heq. }
  congruence.
Qed.

Lemma task_of_module ays y s m :
  y ∈ ays → s ∈ y_semesters y → m ∈ s_modules s →
  mkTask m (semOrder y s) (semNumOf (s_name s)) ∈ tasksOf ays.
Proof. intros Hy Hs Hm. apply elem_of_tasksOf. simpl. eauto 10. Qed.

Lemma recorded_prereq cat ays staged y s m :
  NoDup (planCodes ays) →
  y ∈ ays → s ∈ y_semesters y → m ∈ s_modules s →
  prereqViolations (checkAllConstraints cat ays staged) !! m_code m
  = prereqOutcome cat (completedBefore ays staged (semOrder y s)) m.
Proof.
  intros Hnd Hy Hs Hm. rewrite checkAllConstraints_tasks.
  rewrite <-tasksOf_codes in Hnd.
  rewrite (prereq_of_task cat ays staged _ _ _ Hnd (task_of_module _ _ _ _ Hy Hs Hm)).
  simpl. by destruct (prereqOutcome _ _ _).
Qed.

Lemma recorded_offering cat ays staged y s m :
  NoDup (planCodes ays) →
  y ∈ ays → s ∈ y_semesters y → m ∈ s_modules s →
  offeringViolations (checkAllConstraints cat ays staged) !! m_code m
  = offeringOutcome cat (semNumOf (s_name s)) m.
Proof.
  intros Hnd Hy Hs Hm. rewrite checkAllConstraints_tasks.
  rewrite <-tasksOf_codes in Hnd.
  rewrite (offering_of_task cat ays staged _ _ _ Hnd (task_of_module _ _ _ _ Hy Hs Hm)).
  simpl. by destruct (offeringOutcome _ _ _).
Qed.

Lemma same_semester_not_before ays y s p :
  NoDup (planCodes ays) →
  y ∈ ays → s ∈ y_semesters y → p ∈ s_modules s →
  ¬ placedBefore ays (semOrder y s) (m_code p).
Proof.
  intros Hnd Hy Hs Hp (t & Ht & Hlt & Hc)%placedBefore_tasks.
  rewrite <-tasksOf_codes in Hnd.
  pose proof (task_of_module _ _ _ _ Hy Hs Hp) as Htp.
  assert (t = mkTask p (semOrder y s) (semNumOf (s_name s))) as ->.
  { by eapply (NoDup_fmap_inj_on tk_code). }
  simpl in Hlt. lia.
Qed.

Lemma NoDup_holds (l : list string) : bool_decide (NoDup l) = true → NoDup l.
Proof. apply bool_decide_eq_true_1. Qed.

(** Scenarios 1 and 2 of the specification, evaluated. *)
Example scenario_in_order :
  prereqViolations (checkAllConstraints scenarioCatalog [yearInOrder] [])
  !! "CS2040S" = None.
Proof. vm_compute. reflexivity. Qed.

Example scenario_same_semester :
  prereqViolations (checkAllConstraints scenarioCatalog [yearSameSemester] [])
  !! "CS2040S" = Some ["CS1101S"].
Proof. vm_compute. reflexivity. Qed.

(** ** Progression statistics *)

Lemma countStaged_entry st m :
  countStaged st m
  = if decide (st_type m = exempted)
    then countEntry st (mkEntry (st_code m) (Js.orFour (st_mcs m)) Completed)
    else st.
Proof.
  unfold countStaged, countEntry. simpl.
  destruct (decide (st_type m = exempted)) as [He|He].
  - rewrite bool_decide_eq_true_2 by done. by case_bool_decide.
  - by rewrite bool_decide_eq_false_2 by done.
Qed.

Lemma countModule_entry semId cur st m :
  countModule semId cur st m
  = countEntry st (mkEntry (m_code m) (unitsOrFour m) (bucketOf semId cur)).
Proof.
  unfold countModule, countEntry, bucketOf. simpl.
  case_bool_decide; [done|]. simpl.
  destruct (semId <? cur); [done|]. by destruct (semId =? cur).
Qed.

Lemma foldl_countStaged st staged :
  foldl countStaged st staged = foldl countEntry st (stagedLedger staged).
Proof.
  unfold stagedLedger. revert st.
  induction staged as [|m ms IH]; intros st; [done|].
  cbn [foldl]. rewrite IH, countStaged_entry, filter_cons.
  by destruct (decide (st_type m = exempted)).
Qed.

Lemma foldl_countModule cur ays st :
  foldl (fun st year =>
           foldl (fun st sem =>
                    foldl (countModule (semOrder year sem) cur) st (s_modules sem))
                 st (y_semesters year)) st ays
  = foldl countEntry st (planLedger ays cur).
Proof.
  unfold planLedger. revert st.
  induction ays as [|y ays IH]; intros st; [done|].
  cbn [foldl]. rewrite bind_cons, foldl_app, IH. f_equal. clear IH.
  generalize (y_semesters y). intros ss. revert st.
  induction ss as [|s ss IHs]; intros st; [done|].
  cbn [foldl]. rewrite bind_cons, foldl_app, IHs. f_equal. clear IHs.
  generalize (s_modules s). intros ms. revert st.
  induction ms as [|m ms IHm]; intros st; [done|].
  cbn [foldl fmap list_fmap]. rewrite countModule_entry. apply IHm.
Qed.

Lemma progressionStats_ledger ays staged cy cs :
  progressionStats ays staged cy cs
  = foldl countEntry (mkStats 0 0 0 []) (ledger ays staged (cy * 10 + cs)).
Proof.
  unfold progressionStats, ledger. cbv zeta.
  by rewrite foldl_countModule, foldl_countStaged, foldl_app.
Qed.

Lemma foldl_countEntry l st seen :
  (∀ x, x ∈ seen ↔ x ∈ seenCodes st) →
  let r := foldl countEntry st l in
  completed r = completed st + creditsIn Completed (countedFrom seen l)
  ∧ current r = current st + creditsIn Current (countedFrom seen l)
  ∧ planned r = planned st + creditsIn Planned (countedFrom seen l).
Proof.
  revert st seen. induction l as [|e l IH]; intros st seen Hseen.
  { simpl. lia. }
  cbn [foldl countedFrom]. unfold countEntry at 2 4 6.
  destruct (decide (e_code e ∈ seenCodes st)) as [Hin|Hout].
  - rewrite bool_decide_eq_true_2 by done.
    rewrite (bool_decide_eq_true_2 (e_code e ∈ seen)) by by apply Hseen.
    by apply IH.
  - rewrite bool_decide_eq_false_2 by done.
    rewrite (bool_decide_eq_false_2 (e_code e ∈ seen)) by by rewrite Hseen.
    cbv zeta.
    assert (∀ st', seenCodes st' = Js.setAdd (e_code e) (seenCodes st) →
                   ∀ x, x ∈ e_code e :: seen ↔ x ∈ seenCodes st') as Hseen'.
    { intros st' -> x. rewrite elem_of_setAdd, elem_of_cons, Hseen. done. }
    cbn [creditsIn].
    destruct (e_bucket e) eqn:Hb;
      match goal with
      | |- context [foldl countEntry ?st' l] =>
          destruct (IH st' (e_code e :: seen) (Hseen' st' eq_refl)) as (H1 & H2 & H3)
      end;
      rewrite H1, H2, H3; simpl; split_and!; lia.
Qed.

Lemma creditsIn_none b seen l :
  (∀ e, e ∈ l → e_bucket e ≠ b) → creditsIn b (countedFrom seen l) = 0.
Proof.
  revert seen. induction l as [|e l IH]; intros seen Hl; [done|].
  cbn [countedFrom]. case_bool_decide.
  - apply IH. intros e' He'. apply Hl. by right.
  - cbn [creditsIn]. rewrite bool_decide_eq_false_2 by (apply Hl; by left).
    rewrite IH; [done|]. intros e' He'. apply Hl. by right.
Qed.

Lemma creditsIn_app_none b seen l1 l2 :
  (∀ e, e ∈ l2 → e_bucket e ≠ b) →
  creditsIn b (countedFrom seen (l1 ++ l2)) = creditsIn b (countedFrom seen l1).
Proof.
  intros Hl2. revert seen. induction l1 as [|e l1 IH]; intros seen.
  { by apply creditsIn_none. }
  cbn [app countedFrom]. case_bool_decide; [apply IH|].
  cbn [creditsIn]. by rewrite IH.
Qed.

Lemma countedFrom_NoDup seen l :
  NoDup (e_code <$> l) → (∀ e, e ∈ l → e_code e ∉ seen) →
  countedFrom seen l = l.
Proof.
  revert seen. induction l as [|e l IH]; intros seen Hnd Hseen; [done|].
  rewrite fmap_cons in Hnd. apply NoDup_cons in Hnd as [Hfresh Hnd].
  cbn [countedFrom]. rewrite bool_decide_eq_false_2 by (apply Hseen; by left).
  f_equal. apply IH; [done|]. intros e' He' [Heq|Hin]%elem_of_cons.
  - destruct Hfresh. rewrite <-Heq. by apply list_elem_of_fmap_2.
  - apply (Hseen e'); [by right|done].
Qed.

Lemma progression_sums ays staged cy cs :
  let st := progressionStats ays staged cy cs in
  let L := counted (ledger ays staged (cy * 10 + cs)) in
  completed st = creditsIn Completed L
  ∧ current st = creditsIn Current L
  ∧ planned st = creditsIn Planned L.
Proof.
  intros st L. subst st L. rewrite progressionStats_ledger.
  destruct (foldl_countEntry (ledger ays staged (cy * 10 + cs))
              (mkStats 0 0 0 []) []) as (H1 & H2 & H3); [done|].
  rewrite H1, H2, H3. simpl. done.
Qed.

Lemma planLedger_codes ays cur : e_code <$> planLedger ays cur = planCodes ays.
Proof.
  unfold planCodes, planModules, planLedger.
  induction ays as [|y ays IH]; [done|].
  rewrite !bind_cons, !fmap_app, IH. f_equal.
  generalize (y_semesters y). intros ss.
  induction ss as [|s ss IHs]; [done|].
  rewrite !bind_cons, !fmap_app, IHs. f_equal.
  rewrite <-list_fmap_compose. done.
Qed.

Lemma bind_mapSemesters {B} (G : Z → Semester → list B) f ays :
  (∀ yr s, G yr (f s) = G yr s) →
  (y ← mapSemesters f ays; s ← y_semesters y; G (y_year y) s)
  = (y ← ays; s ← y_semesters y; G (y_year y) s).
Proof.
  intros HG. unfold mapSemesters.
  induction ays as [|y ays IH]; [done|].
  rewrite fmap_cons, !bind_cons, IH. f_equal. simpl.
  generalize (y_semesters y). intros ss.
  induction ss as [|s ss IHs]; [done|].
  by rewrite fmap_cons, !bind_cons, IHs, HG.
Qed.

Lemma planLedger_reflag flag ays cur :
  planLedger (reflag flag ays) cur = planLedger ays cur.
Proof.
  unfold planLedger, semOrder, reflag.
  apply (bind_mapSemesters
           (fun yr s => (fun m => mkEntry (m_code m) (unitsOrFour m)
                                   (bucketOf (yr * 10 + semNumOf (s_name s)) cur))
                        <$> s_modules s)).
  intros yr s. simpl. rewrite <-list_fmap_compose. done.
Qed.

(** ** Special terms *)

Lemma semNumOf_regular name :
  semNumOf (if Js.includes name "1" then "Semester 1" else "Semester 2")
  = semNumOf name.
Proof. unfold semNumOf. by destruct (Js.includes name "1"). Qed.

Lemma codesBefore_asRegular ays ord :
  (y ← asRegular ays; s ← y_semesters y;
   (if semOrder y s <? ord then m_code <$> s_modules s else []))
  = (y ← ays; s ← y_semesters y;
     (if semOrder y s <? ord then m_code <$> s_modules s else [])).
Proof.
  unfold semOrder, asRegular.
  apply (bind_mapSemesters
           (fun yr s => if yr * 10 + semNumOf (s_name s) <? ord
                        then m_code <$> s_modules s else [])).
  intros yr s. simpl. by rewrite semNumOf_regular.
Qed.

Lemma completedBefore_asRegular ays staged ord :
  completedBefore (asRegular ays) staged ord = completedBefore ays staged ord.
Proof. unfold completedBefore. by rewrite codesBefore_asRegular. Qed.

Lemma tasksOf_asRegular ays : tasksOf (asRegular ays) = tasksOf ays.
Proof.
  unfold tasksOf, semOrder, asRegular.
  apply (bind_mapSemesters
           (fun yr s => (fun m => mkTask m (yr * 10 + semNumOf (s_name s))
                                         (semNumOf (s_name s))) <$> s_modules s)).
  intros yr s. simpl. by rewrite semNumOf_regular.
Qed.

Lemma planLedger_asRegular ays cur :
  planLedger (asRegular ays) cur = planLedger ays cur.
Proof.
  unfold planLedger, semOrder, asRegular.
  apply (bind_mapSemesters
           (fun yr s => (fun m => mkEntry (m_code m) (unitsOrFour m)
                                   (bucketOf (yr * 10 + semNumOf (s_name s)) cur))
                        <$> s_modules s)).
  intros yr s. simpl. by rewrite semNumOf_regular.
Qed.

Lemma foldl_ext_elem {A B} (f g : A → B → A) (l : list B) (a : A) :
  (∀ a b, f a b = g a b) → foldl f a l = foldl g a l.
Proof.
  intros Hfg. revert a. induction l as [|b l IH]; intros a; [done|].
  simpl. by rewrite Hfg, IH.
Qed.

(** C8 (amended).  Special terms and exchange semesters are not set apart:
    a semester named [Special Term 1] has order [year * 10 + 1] and one named
    [Special Term 2] has order [year * 10 + 2], and the progress statistics,
    the codes counted as placed earlier, both violation maps and the taken
    modules are those of the plan in which every semester is renamed to the
    regular semester of the same number and carries no exchange flag. *)
Theorem special_terms_as_regular cat ays staged cy cs :
  (∀ y i u ms ex,
     semOrder y (mkSemester i "Special Term 1" u ms ex) = y_year y * 10 + 1
     ∧ semOrder y (mkSemester i "Special Term 2" u ms ex) = y_year y * 10 + 2)
  ∧ progressionStats (asRegular ays) staged cy cs
    = progressionStats ays staged cy cs
  ∧ (∀ ord, completedBefore (asRegular ays) staged ord
            = completedBefore ays staged ord)
  ∧ checkAllConstraints cat (asRegular ays) staged
    = checkAllConstraints cat ays staged
  ∧ allTakenModules (asRegular ays) staged cy cs
    = allTakenModules ays staged cy cs.
Proof.
  split; [|split; [|split; [|split]]].
  - intros y i u ms ex. split; reflexivity.
  - rewrite !progressionStats_ledger. unfold ledger.
    by rewrite planLedger_asRegular.
  - intros ord. apply completedBefore_asRegular.
  - rewrite !checkAllConstraints_tasks, tasksOf_asRegular.
    apply foldl_ext_elem. intros v t. unfold checkTask.
    by rewrite completedBefore_asRegular.
  - unfold allTakenModules. cbv zeta. by rewrite codesBefore_asRegular.
Qed.

(** C8 as stated fails: a module placed in [Special Term 1] of year 1 adds
    its credits to the completed total once the pointer is at year 1,
    semester 2. *)
Lemma special_term_counted_and_ordered :
  ¬ specialTermsExcluded planWithSpecialTerm [] 1 2.
Proof.
  intros [Hstats Hbefore].
  apply (f_equal completed) in Hstats. vm_compute in Hstats.
  discriminate Hstats.
Qed.

Example special_term_position :
  completed (progressionStats planWithSpecialTerm [] 1 2) = 4
  ∧ completedBefore planWithSpecialTerm [] 12 = ["CS2220"].
Proof. vm_compute. auto. Qed.

(** ** Plan mutations *)

Lemma hasCode_true code mods :
  hasCode code mods = true ↔ ∃ m, m ∈ mods ∧ m_code m = code.
Proof.
  unfold hasCode. rewrite existsb_elem_of.
  by setoid_rewrite String.eqb_eq.
Qed.

Lemma isSource_true source sourceId s :
  isSource source sourceId s = true
  ↔ source = fromSemester ∧ Some (s_id s) = sourceId.
Proof.
  unfold isSource. rewrite andb_true_iff, !bool_decide_eq_true. done.
Qed.

Lemma moduleExistsInPlan_true ays code source sourceId :
  moduleExistsInPlan ays code source sourceId = true
  ↔ heldElsewhere ays code source sourceId.
Proof.
  unfold moduleExistsInPlan, heldElsewhere. rewrite existsb_elem_of. split.
  - intros (y & Hy & (s & Hs & Hs')%existsb_elem_of).
    destruct (isSource source sourceId s) eqn:Hsrc; [done|].
    apply hasCode_true in Hs' as (m & Hm & Hc).
    exists y, s, m. split_and!; try done.
    rewrite <-isSource_true, Hsrc. done.
  - intros (y & s & m & Hy & Hs & Hsrc & Hm & Hc). exists y. split; [done|].
    apply existsb_elem_of. exists s. split; [done|].
    rewrite <-isSource_true in Hsrc. apply not_true_is_false in Hsrc.
    rewrite Hsrc. apply hasCode_true. eauto.
Qed.

Lemma planCodes_semesters ays :
  planCodes ays = planSemesters ays ≫= codesOf.
Proof.
  unfold planCodes, planModules, planSemesters, codesOf.
  induction ays as [|y ays IH]; [done|].
  rewrite !bind_cons, fmap_app, bind_app, IH. f_equal.
  generalize (y_semesters y). intros ss.
  induction ss as [|s ss IHs]; [done|].
  by rewrite !bind_cons, fmap_app, IHs.
Qed.

Lemma planSemesters_mapSemesters f ays :
  planSemesters (mapSemesters f ays) = f <$> planSemesters ays.
Proof.
  unfold planSemesters, mapSemesters.
  induction ays as [|y ays IH]; [done|].
  by rewrite fmap_cons, !bind_cons, fmap_app, IH.
Qed.

Lemma spliceInsert_perm {A} (l : list A) start x :
  spliceInsert l start x ≡ₚ x :: l.
Proof.
  unfold spliceInsert. cbv zeta.
  rewrite <-Permutation_middle. by rewrite take_drop.
Qed.

Lemma reorderIn_perm code i sem :
  s_modules (reorderIn code i sem) ≡ₚ s_modules sem.
Proof.
  unfold reorderIn.
  destruct (findIndex _ _) as [k|]; [|done].
  destruct (negb _); [|done].
  destruct (s_modules sem !! k) as [m|] eqn:Hk; [|done].
  simpl. rewrite spliceInsert_perm, <-delete_take_drop.
  by rewrite <-delete_Permutation.
Qed.

Lemma bind_perm_pointwise {A B} (f g : A → list B) (l : list A) :
  (∀ x, x ∈ l → f x ≡ₚ g x) → l ≫= f ≡ₚ l ≫= g.
Proof.
  induction l as [|a l IH]; intros Hfg; [done|].
  rewrite !bind_cons. f_equiv.
  - apply Hfg. by left.
  - apply IH. intros x Hx. apply Hfg. by right.
Qed.

Lemma planCodes_mapSemesters_perm f ays :
  (∀ s, s_modules (f s) ≡ₚ s_modules s) →
  planCodes (mapSemesters f ays) ≡ₚ planCodes ays.
Proof.
  intros Hf. rewrite !planCodes_semesters, planSemesters_mapSemesters.
  rewrite list_fmap_bind. apply bind_perm_pointwise. intros s _.
  unfold codesOf. simpl. by rewrite Hf.
Qed.

Section Place.
Variable code : string.
Variable source : DragSource.
Variable sourceId : option Z.
Variable targetSemId : Z.
Variable insertAtIndex : option Z.

#[local] Abbreviation addedTo := (addedCodes code source sourceId targetSemId).
#[local] Abbreviation keptOf := (keptCodes code source sourceId).

Lemma codesOf_filter (mods : list Module_) :
  m_code <$> filter (fun m => m_code m ≠ code) mods
  = filter (fun c => c ≠ code) (m_code <$> mods).
Proof.
  induction mods as [|m mods IH]; [done|].
  rewrite fmap_cons, !filter_cons. destruct (decide (m_code m ≠ code)); [|done].
  by rewrite fmap_cons, IH.
Qed.

Lemma placeIn_codes s :
  codesOf (placeIn code source sourceId targetSemId insertAtIndex s)
  ≡ₚ addedTo s ++ keptOf s.
Proof.
  unfold placeIn, addedCodes, keptCodes, codesOf.
  destruct (isSource source sourceId s); simpl; [by rewrite codesOf_filter|].
  destruct (s_id s =? targetSemId); simpl; [|done].
  destruct (hasCode code (s_modules s)); simpl; [done|].
  assert (∀ l : list Module_,
            l ≡ₚ mkModule code code (Some 4) false :: s_modules s →
            m_code <$> l ≡ₚ code :: (m_code <$> s_modules s)) as Hl.
  { intros l ->. done. }
  destruct insertAtIndex as [i|]; [destruct (0 <=? i)|]; apply Hl;
    try apply spliceInsert_perm; by rewrite <-Permutation_cons_append.
Qed.

Lemma keptOf_sublist s : keptOf s `sublist_of` codesOf s.
Proof.
  unfold keptCodes. destruct (isSource source sourceId s); [|done].
  apply sublist_filter.
Qed.

Lemma bind_app_perm {A B} (f g : A → list B) (l : list A) :
  l ≫= (fun x => f x ++ g x) ≡ₚ (l ≫= f) ++ (l ≫= g).
Proof.
  induction l as [|a l IH]; [done|].
  rewrite !bind_cons, IH, <-!app_assoc. f_equiv.
  rewrite !app_assoc. f_equiv. apply Permutation_app_comm.
Qed.

Lemma bind_sublist {A B} (f g : A → list B) (l : list A) :
  (∀ x, f x `sublist_of` g x) → l ≫= f `sublist_of` l ≫= g.
Proof.
  intros Hfg. induction l as [|a l IH]; [done|].
  rewrite !bind_cons. by apply sublist_app.
Qed.

Lemma placed_codes ays :
  planCodes (mapSemesters (placeIn code source sourceId targetSemId insertAtIndex)
                          ays)
  ≡ₚ (planSemesters ays ≫= addedTo) ++ (planSemesters ays ≫= keptOf).
Proof.
  rewrite planCodes_semesters, planSemesters_mapSemesters, list_fmap_bind.
  rewrite <-bind_app_perm. apply bind_perm_pointwise. intros s _.
  apply placeIn_codes.
Qed.

Lemma added_at_most_once ss :
  NoDup (s_id <$> ss) → ss ≫= addedTo = [] ∨ ss ≫= addedTo = [code].
Proof.
  induction ss as [|s ss IH]; intros Hnd; [by left|].
  rewrite fmap_cons in Hnd. apply NoDup_cons in Hnd as [Hfresh Hnd].
  rewrite bind_cons. destruct (Z.eqb_spec (s_id s) targetSemId) as [Heq|Hne].
  - assert (ss ≫= addedTo = []) as ->.
    { clear IH Hnd. induction ss as [|s' ss IHs]; [done|].
      rewrite bind_cons, IHs.
      - unfold addedCodes. destruct (Z.eqb_spec (s_id s') targetSemId) as [Heq'|_].
        + destruct Hfresh. rewrite Heq, <-Heq', fmap_cons. by left.
        + by rewrite andb_false_r.
      - intros Hin. apply Hfresh. rewrite fmap_cons. by right. }
    rewrite app_nil_r. unfold addedCodes. destruct (_ && _); auto.
  - assert (addedTo s = []) as ->; [|by apply IH].
    unfold addedCodes. apply Z.eqb_neq in Hne. by rewrite Hne, andb_false_r.
Qed.

Lemma added_means_target ays :
  planSemesters ays ≫= addedTo ≠ [] → targetFound ays targetSemId = true.
Proof.
  intros Hadd. unfold targetFound. apply existsb_elem_of.
  assert (∃ s, s ∈ planSemesters ays ∧ s_id s = targetSemId) as (s & Hs & Hid).
  { induction (planSemesters ays) as [|s ss IH]; [done|].
    rewrite bind_cons in Hadd.
    destruct (addedTo s) as [|c l] eqn:Hs.
    - destruct IH as (s' & Hs' & Hid); [done|]. exists s'. split; [by right|done].
    - exists s. split; [by left|]. unfold addedCodes in Hs.
      destruct (Z.eqb_spec (s_id s) targetSemId); [done|].
      by rewrite andb_false_r in Hs. }
  apply list_elem_of_bind in Hs as (y & Hs & Hy). exists y. split; [done|].
  apply existsb_elem_of. exists s. split; [done|]. by apply Z.eqb_eq.
Qed.

Lemma kept_without_code ays :
  moduleExistsInPlan ays code source sourceId = false →
  code ∉ planSemesters ays ≫= keptOf.
Proof.
  intros Hnone (s & Hc & Hs)%list_elem_of_bind.
  apply list_elem_of_bind in Hs as (y & Hs & Hy).
  unfold keptCodes in Hc. destruct (isSource source sourceId s) eqn:Hsrc.
  - apply list_elem_of_filter in Hc as [Hne _]. done.
  - apply not_true_iff_false in Hnone. apply Hnone.
    apply moduleExistsInPlan_true.
    apply list_elem_of_fmap in Hc as (m & Hc & Hm).
    exists y, s, m. split_and!; try done.
    rewrite <-isSource_true, Hsrc. done.
Qed.
End Place.

Lemma stagedCodes_filter code (staged : list StagedModule) :
  stagedCodes (filter (fun m => st_code m ≠ code) staged)
  = filter (fun c => c ≠ code) (stagedCodes staged).
Proof.
  unfold stagedCodes. induction staged as [|m ms IH]; [done|].
  rewrite fmap_cons, !filter_cons. destruct (decide (st_code m ≠ code)); [|done].
  by rewrite fmap_cons, IH.
Qed.

(** X6.  A drop keeps the codes of the plan and of the staged modules distinct:
    reordering permutes a semester, a duplicate is rejected, and a move takes
    the module out of its source before it is added to the target. *)
Lemma handleDrop_keeps_codes_unique b targetSemId insertAtIndex :
  uniqueCodes b → uniqueSemesterIds (academicYears b) → dragFromPlan b →
  uniqueCodes (handleDrop b targetSemId insertAtIndex).
Proof.
  unfold uniqueCodes, uniqueSemesterIds, dragFromPlan, handleDrop.
  intros Hu Hids Hdrag.
  destruct (draggingModule b) as [[code source sourceId]|]; [|done].
  specialize (Hdrag _ eq_refl). simpl in Hdrag.
  destruct (_ && _) eqn:Hreorder in |- *.
  { (* the same semester: the modules are permuted *)
    simpl. destruct insertAtIndex as [i|]; [|done].
    rewrite planCodes_mapSemesters_perm; [done|].
    intros s. destruct (s_id s =? targetSemId); [|done]. apply reorderIn_perm. }
  destruct (_ && _) eqn:Hreject in |- *; [exact Hu|].
  simpl. rewrite placed_codes.
  set (staged' := if bool_decide (source = fromStaged)
                  then filter (fun m => st_code m ≠ code) (stagedModules b)
                  else stagedModules b).
  assert (stagedCodes staged' `sublist_of` stagedCodes (stagedModules b)) as Hsub.
  { subst staged'. destruct source; simpl; [|reflexivity].
    rewrite stagedCodes_filter. apply sublist_filter. }
  assert (code ∉ stagedCodes staged') as Hfresh.
  { subst staged'. destruct source; simpl.
    - rewrite stagedCodes_filter. intros [? _]%list_elem_of_filter. done.
    - intros Hin. apply NoDup_app in Hu as (_ & Hdisj & _).
      apply (Hdisj code); [|done]. by apply Hdrag. }
  assert (NoDup ((planSemesters (academicYears b) ≫= keptCodes code source sourceId)
                 ++ stagedCodes staged')) as Hkept.
  { eapply sublist_NoDup; [exact Hu|]. apply sublist_app; [|done].
    rewrite planCodes_semesters. apply bind_sublist. intros s.
    apply keptOf_sublist. }
  destruct (added_at_most_once code source sourceId targetSemId
              (planSemesters (academicYears b)) Hids) as [Hadd|Hadd].
  { by rewrite Hadd. }
  rewrite Hadd. simpl. apply NoDup_cons. split; [|done].
  assert (targetFound (academicYears b) targetSemId = true) as Hfound.
  { apply (added_means_target code source sourceId). by rewrite Hadd. }
  rewrite Hfound in Hreject. simpl in Hreject.
  intros [Hin|Hin]%elem_of_app; [|done].
  by apply (kept_without_code code source sourceId (academicYears b)).
Qed.



(** C4.  From the initial board, whose codes are distinct, adding as
    exempted a course that is exempted already, adding through search a
    course that is exempted, and adding as exempted a course just placed
    through search each reach a board on which a code occurs twice. *)
Theorem exempted_addition_breaks_uniqueness :
  uniqueCodes initialBoard
  ∧ ¬ uniqueCodes (addExempted initialBoard "3"
                     (mkResult "MA1301" "Mathematics Bridging" 4))
  ∧ ¬ uniqueCodes (addBySearch initialBoard 1
                     [mkResult "MA1301" "Mathematics Bridging" 4] 0)
  ∧ ¬ uniqueCodes (addExempted
                     (addBySearch initialBoard 1
                        [mkResult "CS1101S" "Programming Methodology" 4] 0)
                     "3" (mkResult "CS1101S" "Programming Methodology" 4)).
Proof.
  unfold uniqueCodes. split_and!.
  - apply NoDup_holds. vm_compute. reflexivity.
  - intros Hnd. apply (bool_decide_eq_true_2 _) in Hnd. vm_compute in Hnd.
    discriminate Hnd.
  - intros Hnd. apply (bool_decide_eq_true_2 _) in Hnd. vm_compute in Hnd.
    discriminate Hnd.
  - intros Hnd. apply (bool_decide_eq_true_2 _) in Hnd. vm_compute in Hnd.
    discriminate Hnd.
Qed.

(** ** The debounced validation effect *)

Lemma execute_snoc cat plan events e :
  execute cat plan (events ++ [e]) = step cat (execute cat plan events) e.
Proof. unfold execute. by rewrite foldl_app. Qed.

Lemma history_snoc plan events e :
  history plan (events ++ [e])
  = history plan events
    ++ match e with Mutate next => [next] | _ => [] end.
Proof.
  unfold history. rewrite omap_app. simpl. by destruct e.
Qed.

Lemma execute_invariant cat plan events :
  let rt := execute cat plan events in
  rtPlan rt ∈ history plan events
  ∧ (∀ snap, rtTimer rt = Some snap → snap = rtPlan rt)
  ∧ (∀ snap, snap ∈ rtInFlight rt → snap ∈ history plan events).
Proof.
  induction events as [|e events IH] using rev_ind.
  { unfold history. simpl. split_and!.
    - apply list_elem_of_here.
    - intros snap [= <-]. done.
    - intros snap Hin. by apply elem_of_nil in Hin. }
  rewrite execute_snoc, history_snoc. cbv zeta in IH.
  destruct IH as (Hplan & Htimer & Hflight).
  set (rt := execute cat plan events) in *.
  destruct e as [next| |i]; cbn [step].
  - cbn [rtPlan rtTimer rtInFlight]. split_and!.
    + apply elem_of_app. right. apply list_elem_of_here.
    + intros snap [= <-]. done.
    + intros snap Hin. apply elem_of_app. left. by apply Hflight.
  - rewrite app_nil_r. destruct (rtTimer rt) as [snap0|] eqn:Ht.
    + cbn [rtPlan rtTimer rtInFlight]. split_and!; [done|done|].
      intros snap [Hin| ->%list_elem_of_singleton]%elem_of_app; [by apply Hflight|].
      by rewrite (Htimer snap0 eq_refl).
    + split_and!; [done| |done]. rewrite Ht. done.
  - rewrite app_nil_r. destruct (rtInFlight rt !! i) as [snap0|] eqn:Hi.
    + cbn [rtPlan rtTimer rtInFlight]. split_and!; [done|done|].
      intros snap Hin. apply Hflight. by eapply list_elem_of_delete_inv.
    + split_and!; done.
Qed.

(** C10 (amended).  In every reachable state the pending timer, if any,
    holds the current plan, and a mutation replaces it (a run that has not
    started is cancelled) while leaving the runs in flight and the published
    maps as they are; every run in flight holds a plan that was current at
    some point, and when it completes the maps computed from that plan are
    published. *)
Theorem started_run_is_published cat plan events :
  let rt := execute cat plan events in
  (∀ snap, rtTimer rt = Some snap → snap = rtPlan rt)
  ∧ (∀ next, rtTimer (step cat rt (Mutate next)) = Some next
             ∧ rtInFlight (step cat rt (Mutate next)) = rtInFlight rt
             ∧ rtPublished (step cat rt (Mutate next)) = rtPublished rt)
  ∧ (∀ snap, snap ∈ rtInFlight rt → snap ∈ history plan events)
  ∧ (∀ i snap, rtInFlight rt !! i = Some snap →
       rtPublished (step cat rt (RunCompletes i)) = runOn cat snap).
Proof.
  intros rt. destruct (execute_invariant cat plan events) as (_ & Htimer & Hflight).
  split; [|split; [|split]].
  - exact Htimer.
  - intros next. simpl. done.
  - exact Hflight.
  - intros i snap Hi. simpl. by rewrite Hi.
Qed.

Lemma started_run_is_published_witness :
  let stale := mkSnapshot [yearSameSemester] [] in
  let fresh := mkSnapshot [yearInOrder] [] in
  let rt := execute scenarioCatalog stale [TimerFires; Mutate fresh] in
  rtPlan rt = fresh
  ∧ rtPublished (step scenarioCatalog rt (RunCompletes 0))
    = runOn scenarioCatalog stale.
Proof.
  intros stale fresh rt. split; [reflexivity|].
  destruct (started_run_is_published scenarioCatalog stale [TimerFires; Mutate fresh])
    as (_ & _ & _ & Hpub).
  apply (Hpub 0%nat stale). reflexivity.
Defined.

(** C10 as stated fails: a run started on a plan with a violation
    completes after the plan has been replaced by one without, and its
    result is published. *)
Lemma stale_result_published : ¬ publishesCurrentPlan scenarioCatalog.
Proof.
  intros Hpub.
  specialize (Hpub (mkSnapshot [yearSameSemester] [])
                [TimerFires; Mutate (mkSnapshot [yearInOrder] [])] 0%nat).
  cbv zeta in Hpub.
  assert (prereqViolations
            (rtPublished
               (step scenarioCatalog
                  (execute scenarioCatalog (mkSnapshot [yearSameSemester] [])
                     [TimerFires; Mutate (mkSnapshot [yearInOrder] [])])
                  (RunCompletes 0))) !! "CS2040S"
          = prereqViolations
              (runOn scenarioCatalog (mkSnapshot [yearInOrder] [])) !! "CS2040S")
    as Hlookup.
  { rewrite Hpub; [done|]. by eexists. }
  vm_compute in Hlookup. discriminate Hlookup.
Qed.

(** ** Base codes *)

Lemma prefix_substring k s : String.prefix (String.substring 0 k s) s = true.
Proof.
  revert k. induction s as [|c s IH]; intros [|k]; simpl; try done.
  rewrite IH. by destruct (ascii_dec c c).
Qed.

Lemma matchBaseWith_again n n' code b :
  matchBaseWith n code = Some b → (n < n')%nat → matchBaseWith n' b = None.
Proof.
  intros Hb Hlt. pose proof (matchBaseWith_length _ _ _ Hb) as Hlen.
  unfold matchBaseWith.
  assert ((String.length (String.substring n' 4 b) =? 4)%nat = false) as ->.
  { apply Nat.eqb_neq. rewrite substring_length. lia. }
  by rewrite andb_false_r.
Qed.

Lemma substring_none n s : String.substring n 0 s = EmptyString.
Proof. revert n. induction s as [|c s IH]; intros [|n]; simpl; auto. Qed.

Lemma substring_substring n k m s :
  String.substring n k (String.substring 0 m s)
  = String.substring n (k `min` (m - n)) s.
Proof.
  revert n k m. induction s as [|c s IH]; intros n k m.
  - destruct n, k, m; reflexivity.
  - destruct m as [|m].
    + replace (k `min` (0 - n))%nat with 0%nat by lia.
      rewrite !substring_none. destruct n, k; reflexivity.
    + destruct n as [|n]; cbn [String.substring].
      * destruct k as [|k]; [reflexivity|].
        cbn [String.substring Nat.min Nat.sub]. f_equal. rewrite IH. f_equal. lia.
      * rewrite IH. reflexivity.
Qed.

Lemma matchBaseWith_same n code b :
  matchBaseWith n code = Some b → matchBaseWith n b = Some b.
Proof.
  intros Hb. pose proof Hb as Hlen%matchBaseWith_length.
  unfold matchBaseWith in Hb |- *.
  destruct (_ && _) eqn:Hc in Hb; [|done]. injection Hb as <-.
  rewrite !substring_substring.
  replace (n `min` (n + 4 - 0))%nat with n by lia.
  replace (4 `min` (n + 4 - n))%nat with 4%nat by lia.
  replace ((n + 4) `min` (n + 4 - 0))%nat with (n + 4)%nat by lia.
  by rewrite Hc.
Qed.

Lemma getBaseCode_of_match code b : matchBase code = Some b → matchBase b = Some b.
Proof.
  unfold matchBase. intros Hb.
  destruct (matchBaseWith 4 code) as [b4|] eqn:H4.
  { injection Hb as ->. by rewrite (matchBaseWith_same 4 code b). }
  destruct (matchBaseWith 3 code) as [b3|] eqn:H3.
  { injection Hb as ->.
    rewrite (matchBaseWith_again 3 4 code b) by (done || lia).
    by rewrite (matchBaseWith_same 3 code b). }
  rewrite (matchBaseWith_again 2 4 code b), (matchBaseWith_again 2 3 code b)
    by (done || lia).
  by rewrite (matchBaseWith_same 2 code b).
Qed.

Lemma matchBaseWith_prefix n code b :
  matchBaseWith n code = Some b → String.prefix b code = true.
Proof.
  unfold matchBaseWith. destruct (_ && _); [|done].
  intros [= <-]. apply prefix_substring.
Qed.

Lemma matchBase_prefix code b :
  matchBase code = Some b → String.prefix b code = true.
Proof.
  unfold matchBase.
  destruct (matchBaseWith 4 code) eqn:H4;
    [intros [= <-]; by eapply matchBaseWith_prefix|].
  destruct (matchBaseWith 3 code) eqn:H3;
    [intros [= <-]; by eapply matchBaseWith_prefix|].
  apply matchBaseWith_prefix.
Qed.

Lemma prefix_refl s : String.prefix s s = true.
Proof. induction s as [|c s IH]; [done|]. simpl. by destruct (ascii_dec c c). Qed.

(** X1.  The base code of a base code is that base code, and every code
    starts with its base code. *)
Theorem getBaseCode_idempotent code :
  getBaseCode (getBaseCode code) = getBaseCode code
  ∧ Js.startsWith code (getBaseCode code) = true.
Proof.
  unfold getBaseCode at 2 3 4. destruct (matchBase code) as [b|] eqn:Hb.
  - split.
    + unfold getBaseCode. by rewrite (getBaseCode_of_match code b).
    + by apply matchBase_prefix.
  - split.
    + unfold getBaseCode. by rewrite Hb.
    + apply prefix_refl.
Qed.

(** ** Monotonicity of the matcher *)

Lemma unconsumed_length_mono reqs (T T' : list string) :
  NoDup T → (∀ c, c ∈ T → c ∈ T') →
  (length (unconsumed reqs T) ≤ length (unconsumed reqs T'))%nat.
Proof.
  intros Hnd Hsub. rewrite !unconsumed_filter.
  apply submseteq_length, NoDup_submseteq.
  - by apply NoDup_filter.
  - intros c [Hc Hin]%list_elem_of_filter. apply list_elem_of_filter. auto.
Qed.

Lemma existsb_mono {A} (f : A → bool) (l l' : list A) :
  (∀ x, x ∈ l → x ∈ l') → existsb f l = true → existsb f l' = true.
Proof.
  intros Hsub (x & Hx & Hf)%existsb_elem_of. apply existsb_elem_of. eauto.
Qed.

Lemma checkRequirementIn_mono reqs (T T' : list string) reqCode :
  NoDup T → (∀ c, c ∈ T → c ∈ T') →
  checkRequirementIn reqs T reqCode = true →
  checkRequirementIn reqs T' reqCode = true.
Proof.
  intros Hnd Hsub. unfold checkRequirementIn. cbv zeta.
  destruct (existsb _ T) eqn:Hdirect.
  { intros _. by rewrite (existsb_mono _ T T' Hsub Hdirect). }
  destruct (existsb _ T') eqn:Hdirect'; [done|].
  destruct (Js.endsWith reqCode "%").
  { by apply existsb_mono. }
  destruct (Js.startsWith reqCode "UE"); [|done].
  destruct (Js.parseInt _) as [n|]; [|done].
  intros Hlt%Z.ltb_lt. apply Z.ltb_lt.
  pose proof (unconsumed_length_mono reqs T T' Hnd Hsub). lia.
Qed.

(** X2.  A requirement slot that is fulfilled stays fulfilled when the
    current-semester pointer moves forward and when exempted modules are
    added. *)
Theorem checkRequirement_monotone ays staged extra cy cs cy' cs' reqCode :
  cy * 10 + cs ≤ cy' * 10 + cs' →
  checkRequirement ays staged cy cs reqCode = true →
  checkRequirement ays (staged ++ extra) cy' cs' reqCode = true.
Proof.
  intros Hle. unfold checkRequirement. apply checkRequirementIn_mono.
  - apply NoDup_newSet.
  - intros c. rewrite !elem_of_allTakenModules. intros [Hplaced|Hstaged].
    + left. destruct Hplaced as (y & s & m & Hy & Hs & Hlt & Hm & Hc).
      exists y, s, m. split_and!; try done. lia.
    + right. unfold stagedCodes in *. rewrite fmap_app. apply elem_of_app. by left.
Qed.

Lemma checkRequirement_monotone_witness :
  checkRequirement planWithGEC ([] ++ [mkStaged "2" "MA1301" exempted 4]) 2 1 "GEC%"
  = true.
Proof.
  apply (checkRequirement_monotone planWithGEC [] _ 1 2 2 1 "GEC%").
  - lia.
  - vm_compute. reflexivity.
Defined.

(** ** The colour of a requirement row *)

Lemma elem_of_planCodes ays c :
  c ∈ planCodes ays
  ↔ ∃ y s m, y ∈ ays ∧ s ∈ y_semesters y ∧ m ∈ s_modules s ∧ m_code m = c.
Proof.
  unfold planCodes, planModules. rewrite list_elem_of_fmap. split.
  - intros (m & -> & (y & (s & Hm & Hs)%list_elem_of_bind & Hy)%list_elem_of_bind).
    eauto 10.
  - intros (y & s & m & Hy & Hs & Hm & <-). exists m. split; [done|].
    apply list_elem_of_bind. exists y. split; [|done].
    apply list_elem_of_bind. eauto.
Qed.

Lemma semContainsCourse_true courseCode sem :
  semContainsCourse courseCode sem = true
  ↔ ∃ m, m ∈ s_modules sem
         ∧ (getBaseCode (m_code m) = getBaseCode courseCode
            ∨ (Js.endsWith courseCode "%" = true
               ∧ Js.startsWith (m_code m) (Js.sliceInit courseCode) = true)).
Proof.
  unfold semContainsCourse. cbv zeta. rewrite existsb_elem_of.
  split; intros (m & Hm & Hmatch); exists m; (split; [done|]).
  - apply orb_true_iff in Hmatch as [Heq%String.eqb_eq|[? ?]%andb_true_iff]; auto.
  - apply orb_true_iff. destruct Hmatch as [Heq|[? ?]].
    + left. by apply String.eqb_eq.
    + right. by apply andb_true_iff.
Qed.

Lemma placed_with_order (test : Z → bool) ays courseCode :
  existsb (fun year =>
             existsb (fun sem => test (semOrder year sem)
                                 && semContainsCourse courseCode sem)
                     (y_semesters year)) ays = true
  ↔ ∃ y s m, y ∈ ays ∧ s ∈ y_semesters y ∧ test (semOrder y s) = true
             ∧ m ∈ s_modules s
             ∧ (getBaseCode (m_code m) = getBaseCode courseCode
                ∨ (Js.endsWith courseCode "%" = true
                   ∧ Js.startsWith (m_code m) (Js.sliceInit courseCode) = true)).
Proof.
  rewrite existsb_elem_of. split.
  - intros (y & Hy & (s & Hs & [Ht (m & Hm & Hmatch)%semContainsCourse_true]%andb_true_iff)%existsb_elem_of).
    eauto 10.
  - intros (y & s & m & Hy & Hs & Ht & Hm & Hmatch). exists y. split; [done|].
    apply existsb_elem_of. exists s. split; [done|]. rewrite Ht. simpl.
    apply semContainsCourse_true. eauto.
Qed.

(** X3.  For a slot that is not an unrestricted-elective slot, the row of
    the checklist is shown as done exactly when the matcher reports the slot
    fulfilled, and as open exactly when no code of the plan or of the exempted
    modules matches the slot; a matching code placed in the current or a later
    semester gives one of the two colours in between. *)
Theorem slotStatus_cases ays staged cy cs courseCode :
  Js.startsWith courseCode "UE" = false ∨ Js.endsWith courseCode "%" = true →
  (slotStatus ays staged cy cs courseCode = slotDone
   ↔ checkRequirement ays staged cy cs courseCode = true)
  ∧ (slotStatus ays staged cy cs courseCode = slotOpen
     ↔ ¬ fulfilledByPlan ays staged courseCode).
Proof.
  intros Hshape. unfold slotStatus, isInCurrentYear, isInFuturePlan. cbv zeta.
  assert (checkRequirement ays staged cy cs courseCode = true
          ↔ ∃ c, (placedBefore ays (cy * 10 + cs) c ∨ c ∈ stagedCodes staged)
                 ∧ (getBaseCode c = getBaseCode courseCode
                    ∨ (Js.endsWith courseCode "%" = true
                       ∧ Js.startsWith c (Js.sliceInit courseCode) = true)))
    as Hdone.
  { unfold checkRequirement. rewrite checkRequirementIn_pattern by done.
    by setoid_rewrite elem_of_allTakenModules. }
  pose proof (placed_with_order (fun o => o =? cy * 10 + cs) ays courseCode) as Hcur.
  pose proof (placed_with_order (fun o => cy * 10 + cs <? o) ays courseCode) as Hfut.
  cbv beta in Hcur, Hfut.
  destruct (checkRequirement ays staged cy cs courseCode) eqn:Hcheck.
  { split; [done|]. split; [done|]. intros Hnone. destruct Hnone.
    destruct (proj1 Hdone eq_refl) as (c & [Hplaced|Hstaged] & Hmatch);
      exists c; (split; [|done]); apply elem_of_app; [left|by right].
    destruct Hplaced as (y & s & m & ? & ? & ? & ? & ?).
    apply elem_of_planCodes. eauto 10. }
  simpl. split.
  { split; [|done]. by repeat destruct (existsb _ ays). }
  assert (¬ ∃ c, (placedBefore ays (cy * 10 + cs) c ∨ c ∈ stagedCodes staged)
                 ∧ (getBaseCode c = getBaseCode courseCode
                    ∨ (Js.endsWith courseCode "%" = true
                       ∧ Js.startsWith c (Js.sliceInit courseCode) = true)))
    as Hnot by (rewrite <-Hdone; done).
  destruct (existsb _ ays) eqn:Hc in |- *.
  { split; [done|]. intros Hnone. destruct Hnone.
    destruct (proj1 Hcur Hc) as (y & s & m & ? & ? & ? & ? & ?).
    exists (m_code m). split; [|done]. apply elem_of_app. left.
    apply elem_of_planCodes. eauto 10. }
  destruct (existsb _ ays) eqn:Hf in |- *.
  { split; [done|]. intros Hnone. destruct Hnone.
    destruct (proj1 Hfut Hf) as (y & s & m & ? & ? & ? & ? & ?).
    exists (m_code m). split; [|done]. apply elem_of_app. left.
    apply elem_of_planCodes. eauto 10. }
  split; [|done]. intros _ (c & [Hplan|Hstaged]%elem_of_app & Hmatch).
  - apply elem_of_planCodes in Hplan as (y & s & m & Hy & Hs & Hm & <-).
    destruct (Z.lt_trichotomy (semOrder y s) (cy * 10 + cs)) as [Hlt|[Heq|Hgt]].
    + apply Hnot. exists (m_code m). split; [|done]. left.
      exists y, s, m. eauto 10.
    + apply not_true_iff_false in Hc. apply Hc, Hcur.
      exists y, s, m. split_and!; try done. by apply Z.eqb_eq.
    + apply not_true_iff_false in Hf. apply Hf, Hfut.
      exists y, s, m. split_and!; try done. by apply Z.ltb_lt.
  - apply Hnot. exists c. auto.
Qed.

Lemma slotStatus_cases_witness :
  slotStatus planWithGEC [] 1 1 "GEC%" = slotCurrent
  ∧ ¬ (slotStatus planWithGEC [] 1 1 "GEC%" = slotOpen).
Proof.
  split; [reflexivity|].
  intros Hopen.
  apply (proj2 (slotStatus_cases planWithGEC [] 1 1 "GEC%"
                  (or_intror eq_refl))) in Hopen.
  apply Hopen. exists "GEC1021". split; [apply list_elem_of_here|].
  right. split; reflexivity.
Defined.

(** ** The total of the progress snapshot *)

Lemma countEntry_total st e :
  total (countEntry st e)
  = total st + (if bool_decide (e_code e ∈ seenCodes st) then 0 else e_credit e)
  ∧ seenCodes (countEntry st e)
    = (if bool_decide (e_code e ∈ seenCodes st) then seenCodes st
       else Js.setAdd (e_code e) (seenCodes st)).
Proof.
  unfold countEntry, total. case_bool_decide; [split; [lia|done]|].
  destruct (e_bucket e); simpl; (split; [lia|done]).
Qed.

Lemma foldl_countEntry_total (l l' : list Entry) st st' :
  (fun e => (e_code e, e_credit e)) <$> l = (fun e => (e_code e, e_credit e)) <$> l' →
  total st = total st' → seenCodes st = seenCodes st' →
  total (foldl countEntry st l) = total (foldl countEntry st' l').
Proof.
  revert l' st st'. induction l as [|e l IH]; intros [|e' l'] st st' Heq Ht Hs;
    try done.
  rewrite !fmap_cons in Heq. injection Heq as Hcode Hcredit Hrest.
  cbn [foldl]. apply IH; [done| |].
  - rewrite (proj1 (countEntry_total st e)), (proj1 (countEntry_total st' e')).
    rewrite Ht, Hs, Hcode, Hcredit. done.
  - rewrite (proj2 (countEntry_total st e)), (proj2 (countEntry_total st' e')).
    rewrite Hs, Hcode. done.
Qed.

Lemma planLedger_unbucket ays cur cur' :
  (fun e => (e_code e, e_credit e)) <$> planLedger ays cur
  = (fun e => (e_code e, e_credit e)) <$> planLedger ays cur'.
Proof.
  unfold planLedger. induction ays as [|y ays IH]; [done|].
  rewrite !bind_cons, !fmap_app, IH. f_equal.
  generalize (y_semesters y). intros ss.
  induction ss as [|s ss IHs]; [done|].
  rewrite !bind_cons, !fmap_app, IHs. f_equal.
  rewrite <-!list_fmap_compose. done.
Qed.

(** X4.  The total of completed, current and planned credits does not
    depend on the current-semester pointer. *)
Theorem progression_total_pointer_free ays staged cy cs cy' cs' :
  total (progressionStats ays staged cy cs)
  = total (progressionStats ays staged cy' cs').
Proof.
  rewrite !progressionStats_ledger. apply foldl_countEntry_total; [|done..].
  unfold ledger. rewrite !fmap_app. f_equal. apply planLedger_unbucket.
Qed.

(** ** Where recorded violations come from *)

Lemma prereq_recorded_from cat ays staged ts v c ms :
  prereqViolations (foldl (checkTask cat ays staged) v ts) !! c = Some ms →
  prereqViolations v !! c = Some ms
  ∨ ∃ t, t ∈ ts ∧ tk_code t = c
         ∧ prereqOutcome cat (completedBefore ays staged (tk_order t))
                         (tk_module t) = Some ms.
Proof.
  revert v. induction ts as [|t ts IH]; intros v Hrec; [by left|].
  cbn [foldl] in Hrec. apply IH in Hrec as [Hrec|(t' & Ht' & Hc & Hout)].
  - rewrite checkTask_prereq in Hrec.
    destruct (prereqOutcome _ _ _) as [ms'|] eqn:Hout; [|by left].
    destruct (decide (tk_code t = c)) as [Heq|Hne].
    + rewrite Heq, lookup_insert_eq in Hrec. injection Hrec as ->.
      right. exists t. split_and!; [by left|done..].
    + rewrite lookup_insert_ne in Hrec by done. by left.
  - right. exists t'. split_and!; [by right|done..].
Qed.

Lemma offering_recorded_from cat ays staged ts v c msg :
  offeringViolations (foldl (checkTask cat ays staged) v ts) !! c = Some msg →
  offeringViolations v !! c = Some msg
  ∨ ∃ t, t ∈ ts ∧ tk_code t = c
         ∧ offeringOutcome cat (tk_semNum t) (tk_module t) = Some msg.
Proof.
  revert v. induction ts as [|t ts IH]; intros v Hrec; [by left|].
  cbn [foldl] in Hrec. apply IH in Hrec as [Hrec|(t' & Ht' & Hc & Hout)].
  - rewrite checkTask_offering in Hrec.
    destruct (offeringOutcome _ _ _) as [msg'|] eqn:Hout; [|by left].
    destruct (decide (tk_code t = c)) as [Heq|Hne].
    + rewrite Heq, lookup_insert_eq in Hrec. injection Hrec as ->.
      right. exists t. split_and!; [by left|done..].
    + rewrite lookup_insert_ne in Hrec by done. by left.
  - right. exists t'. split_and!; [by right|done..].
Qed.

(** X5.  Every recorded violation comes from an answer of the catalog for a
    module of the plan that is not fluff: a prerequisite entry is the
    non-empty missing list of an unsatisfied answer for the codes completed
    before the semester of the module, an offering entry is the message for
    the semester number of a module that is not offered. *)
Theorem recorded_violations_sound cat ays staged c :
  (∀ ms, prereqViolations (checkAllConstraints cat ays staged) !! c = Some ms →
     ms ≠ []
     ∧ ∃ y s m result,
         y ∈ ays ∧ s ∈ y_semesters y ∧ m ∈ s_modules s
         ∧ m_code m = c ∧ m_fluff m = false
         ∧ checkPrerequisites cat c (completedBefore ays staged (semOrder y s))
           = Some result
         ∧ satisfied result = false ∧ missing result = ms)
  ∧ (∀ msg, offeringViolations (checkAllConstraints cat ays staged) !! c = Some msg →
       ∃ y s m,
         y ∈ ays ∧ s ∈ y_semesters y ∧ m ∈ s_modules s
         ∧ m_code m = c ∧ m_fluff m = false
         ∧ checkModuleOffered cat c (semNumOf (s_name s)) = Some (mkOffered false)
         ∧ msg = "Not offered in Semester " +:+ showDigit (semNumOf (s_name s))).
Proof.
  split.
  - intros ms Hrec. rewrite checkAllConstraints_tasks in Hrec.
    apply prereq_recorded_from in Hrec as [Hrec|(t & Ht & Hc & Hout)]; [done|].
    apply elem_of_tasksOf in Ht as (y & s & Hy & Hs & Hm & Ho & _).
    unfold prereqOutcome in Hout. destruct (m_fluff (tk_module t)) eqn:Hf; [done|].
    unfold tk_code in Hc. rewrite Hc, Ho in Hout.
    destruct (checkPrerequisites _ _ _) as [result|] eqn:Hres; [|done].
    destruct (negb (satisfied result)) eqn:Hsat; [|done]. simpl in Hout.
    destruct (Z.ltb_spec 0 (Z.of_nat (length (missing result)))) as [Hlen|];
      [|done].
    injection Hout as <-. split.
    + intros Hnil. rewrite Hnil in Hlen. simpl in Hlen. lia.
    + exists y, s, (tk_module t), result. split_and!; try done.
      by apply negb_true_iff.
  - intros msg Hrec. rewrite checkAllConstraints_tasks in Hrec.
    apply offering_recorded_from in Hrec as [Hrec|(t & Ht & Hc & Hout)]; [done|].
    apply elem_of_tasksOf in Ht as (y & s & Hy & Hs & Hm & _ & Hn).
    unfold offeringOutcome in Hout. destruct (m_fluff (tk_module t)) eqn:Hf; [done|].
    unfold tk_code in Hc. rewrite Hc, Hn in Hout.
    destruct (checkModuleOffered _ _ _) as [[off]|] eqn:Hres; [|done].
    simpl in Hout. destruct off; [done|]. injection Hout as <-.
    exists y, s, (tk_module t). split_and!; done.
Qed.

Lemma recorded_violations_sound_witness :
  ["CS1101S"] ≠ [].
Proof.
  destruct (recorded_violations_sound scenarioCatalog [yearSameSemester] []
              "CS2040S") as [Hp _].
  apply (Hp ["CS1101S"]). vm_compute. reflexivity.
Defined.

(** ** Moving a module between semesters *)

Lemma NoDup_bind_same {A B} (f : A → list B) (l : list A) a b y :
  NoDup (l ≫= f) → a ∈ l → b ∈ l → y ∈ f a → y ∈ f b → a = b.
Proof.
  induction l as [|x l IH]; intros Hnd Ha Hb Hya Hyb.
  { by apply elem_of_nil in Ha. }
  rewrite bind_cons in Hnd. apply NoDup_app in Hnd as (_ & Hdisj & Hnd).
  apply elem_of_cons in Ha as [->|Ha]; apply elem_of_cons in Hb as [->|Hb].
  - done.
  - destruct (Hdisj y Hya). apply list_elem_of_bind. eauto.
  - destruct (Hdisj y Hyb). apply list_elem_of_bind. eauto.
  - by apply IH.
Qed.

Lemma NoDup_extract (l : list string) x :
  NoDup l → x ∈ l → l ≡ₚ x :: filter (fun c => c ≠ x) l.
Proof.
  induction l as [|a l IH]; intros Hnd Hx; [by apply elem_of_nil in Hx|].
  apply NoDup_cons in Hnd as [Hfresh Hnd]. rewrite filter_cons.
  apply elem_of_cons in Hx as [->|Hx].
  - destruct (decide (a ≠ a)); [done|]. f_equiv.
    clear IH. induction l as [|b l IHl]; [done|].
    rewrite filter_cons. apply not_elem_of_cons in Hfresh as [Hne Hfresh].
    apply NoDup_cons in Hnd as [_ Hnd].
    destruct (decide (b ≠ a)) as [?|Hnn]; [|destruct Hnn; congruence].
    f_equiv. by apply IHl.
  - destruct (decide (a ≠ x)) as [Hne|Heq].
    + rewrite (IH Hnd Hx) at 1. apply Permutation_swap.
    + destruct Hfresh. apply dec_stable in Heq. by rewrite Heq.
Qed.

Section Move.
Variable b : Board.
Variable code : string.
Variable sourceId targetSemId : Z.
Variable insertAtIndex : option Z.

Hypothesis Hdrag :
  draggingModule b = Some (mkDragging code fromSemester (Some sourceId)).
Hypothesis Hother : sourceId ≠ targetSemId.
Hypothesis Hunique : uniqueCodes b.
Hypothesis Hids : uniqueSemesterIds (academicYears b).
Hypothesis Hfound : targetFound (academicYears b) targetSemId = true.
Hypothesis Hsource :
  ∃ s, s ∈ planSemesters (academicYears b) ∧ s_id s = sourceId
       ∧ code ∈ codesOf s.

Lemma move_plan_unique : NoDup (planCodes (academicYears b)).
Proof. unfold uniqueCodes in Hunique. by apply NoDup_app in Hunique as (? & _ & _). Qed.

Lemma move_only_in_source s :
  s ∈ planSemesters (academicYears b) → code ∈ codesOf s → s_id s = sourceId.
Proof.
  intros Hs Hc. destruct Hsource as (s0 & Hs0 & Hid & Hc0).
  pose proof move_plan_unique as Hnd. rewrite planCodes_semesters in Hnd.
  by rewrite (NoDup_bind_same codesOf _ s s0 code Hnd Hs Hs0 Hc Hc0).
Qed.

Lemma move_not_rejected :
  moduleExistsInPlan (academicYears b) code fromSemester (Some sourceId) = false.
Proof.
  apply not_true_iff_false. intros (y & s & m & Hy & Hs & Hsrc & Hm & Hc)%moduleExistsInPlan_true.
  apply Hsrc. split; [done|]. f_equal. apply move_only_in_source.
  - apply list_elem_of_bind. eauto.
  - unfold codesOf. apply list_elem_of_fmap. eauto.
Qed.

Lemma move_handleDrop :
  handleDrop b targetSemId insertAtIndex
  = endDrag (mapSemesters
               (placeIn code fromSemester (Some sourceId) targetSemId insertAtIndex)
               (academicYears b))
            (stagedModules b) (toast b) (shakingSemId b).
Proof.
  unfold handleDrop. rewrite Hdrag.
  rewrite (bool_decide_eq_false_2 (Some sourceId = Some targetSemId))
    by (intros [= ?]; done).
  rewrite andb_false_r, move_not_rejected, andb_false_r. done.
Qed.

Lemma move_added :
  planSemesters (academicYears b)
  ≫= addedCodes code fromSemester (Some sourceId) targetSemId = [code].
Proof.
  destruct (added_at_most_once code fromSemester (Some sourceId) targetSemId
              (planSemesters (academicYears b)) Hids) as [Hnone|?]; [|done].
  exfalso. unfold targetFound in Hfound.
  apply existsb_elem_of in Hfound as (y & Hy & (s & Hs & Hid%Z.eqb_eq)%existsb_elem_of).
  assert (s ∈ planSemesters (academicYears b)) as Hin
    by (apply list_elem_of_bind; eauto).
  assert (code ∈ planSemesters (academicYears b)
                 ≫= addedCodes code fromSemester (Some sourceId) targetSemId)
    as Hadd.
  { apply list_elem_of_bind. exists s. split; [|done]. unfold addedCodes.
    assert (isSource fromSemester (Some sourceId) s = false) as ->.
    { apply not_true_iff_false. intros [_ [= ?]]%isSource_true. congruence. }
    assert (hasCode code (s_modules s) = false) as ->.
    { apply not_true_iff_false. intros (m & Hm & Hc)%hasCode_true.
      apply Hother. rewrite <-Hid. symmetry. apply move_only_in_source; [done|].
      unfold codesOf. apply list_elem_of_fmap. eauto. }
    apply Z.eqb_eq in Hid. rewrite Hid. simpl. by left. }
  rewrite Hnone in Hadd. by apply elem_of_nil in Hadd.
Qed.

Lemma move_kept :
  planSemesters (academicYears b) ≫= keptCodes code fromSemester (Some sourceId)
  = filter (fun c => c ≠ code) (planCodes (academicYears b)).
Proof.
  rewrite planCodes_semesters.
  assert (∀ s, s ∈ planSemesters (academicYears b) →
               code ∈ codesOf s → s_id s = sourceId) as Honly
    by apply move_only_in_source.
  revert Honly. generalize (planSemesters (academicYears b)). intros ss.
  induction ss as [|s ss IH]; intros Honly; [done|].
  rewrite !bind_cons, filter_app, IH by (intros s' Hs'; apply Honly; by right).
  f_equal. unfold keptCodes.
  destruct (isSource fromSemester (Some sourceId) s) eqn:Hsrc; [done|].
  clear IH. assert (code ∉ codesOf s) as Hfresh.
  { intros Hc. apply not_true_iff_false in Hsrc. apply Hsrc, isSource_true.
    split; [done|]. f_equal. apply Honly; [by left|done]. }
  induction (codesOf s) as [|c l IHl]; [done|].
  apply not_elem_of_cons in Hfresh as [Hne Hfresh].
  rewrite filter_cons. destruct (decide (c ≠ code)) as [?|Hnn]; [|by destruct Hnn].
  f_equal. by apply IHl.
Qed.

Lemma move_code_placed : code ∈ planCodes (academicYears b).
Proof.
  destruct Hsource as (s & Hs & _ & Hc). rewrite planCodes_semesters.
  apply list_elem_of_bind. eauto.
Qed.

Lemma move_modules_fresh m :
  m ∈ planModules
        (mapSemesters
           (placeIn code fromSemester (Some sourceId) targetSemId insertAtIndex)
           (academicYears b)) →
  m_code m = code → m = mkModule code code (Some 4) false.
Proof.
  intros Hm Hc. unfold planModules in Hm.
  apply list_elem_of_bind in Hm as (y' & Hm & Hy').
  apply list_elem_of_bind in Hm as (s' & Hm & Hs').
  unfold mapSemesters in Hy'. apply list_elem_of_fmap in Hy' as (y & -> & Hy).
  simpl in Hs'. apply list_elem_of_fmap in Hs' as (s & -> & Hs).
  assert (s ∈ planSemesters (academicYears b)) as Hin
    by (apply list_elem_of_bind; eauto).
  unfold placeIn in Hm.
  destruct (isSource fromSemester (Some sourceId) s) eqn:Hsrc.
  { simpl in Hm. apply list_elem_of_filter in Hm as [Hne _]. done. }
  assert (∀ m', m' ∈ s_modules s → m_code m' ≠ code) as Hfresh.
  { intros m' Hm' Hc'. apply not_true_iff_false in Hsrc. apply Hsrc, isSource_true.
    split; [done|]. f_equal. apply move_only_in_source; [done|].
    unfold codesOf. apply list_elem_of_fmap. eauto. }
  destruct (s_id s =? targetSemId); [|by destruct (Hfresh m Hm)].
  destruct (hasCode code (s_modules s)); [by destruct (Hfresh m Hm)|].
  simpl in Hm.
  assert (m ∈ mkModule code code (Some 4) false :: s_modules s) as Hcases.
  { destruct insertAtIndex as [i|]; [destruct (0 <=? i)|].
    - by rewrite <-(spliceInsert_perm (s_modules s) i).
    - apply elem_of_app in Hm as [?|?%list_elem_of_singleton]; set_solver.
    - apply elem_of_app in Hm as [?|?%list_elem_of_singleton]; set_solver. }
  apply elem_of_cons in Hcases as [->|Hold]; [done|]. by destruct (Hfresh m Hold).
Qed.
End Move.

(** X8.  An accepted move of a module between two semesters keeps the
    codes of the plan up to their order and the exempted modules as they
    are; afterwards the code is held by the target semester only, and the
    module placed there has the code as its title, four units and no fluff
    flag. *)
Theorem handleDrop_move b code sourceId targetSemId insertAtIndex :
  draggingModule b = Some (mkDragging code fromSemester (Some sourceId)) →
  sourceId ≠ targetSemId →
  uniqueCodes b → uniqueSemesterIds (academicYears b) →
  targetFound (academicYears b) targetSemId = true →
  (∃ s, s ∈ planSemesters (academicYears b) ∧ s_id s = sourceId
        ∧ code ∈ codesOf s) →
  let b' := handleDrop b targetSemId insertAtIndex in
  planCodes (academicYears b') ≡ₚ planCodes (academicYears b)
  ∧ stagedModules b' = stagedModules b
  ∧ (∀ s, s ∈ planSemesters (academicYears b') →
          (code ∈ codesOf s ↔ s_id s = targetSemId))
  ∧ (∀ m, m ∈ planModules (academicYears b') → m_code m = code →
          m = mkModule code code (Some 4) false).
Proof.
  intros Hdrag Hother Hunique Hids Hfound Hsource b'. subst b'.
  rewrite (move_handleDrop b code sourceId targetSemId insertAtIndex) by done.
  simpl. split; [|split; [done|split]].
  - rewrite placed_codes, move_added, move_kept by done. simpl.
    symmetry. apply NoDup_extract; [by apply move_plan_unique|].
    by eapply move_code_placed.
  - intros s'. rewrite planSemesters_mapSemesters.
    intros (s & -> & Hs)%list_elem_of_fmap.
    pose proof (move_only_in_source b code sourceId Hunique Hsource s Hs) as Honly.
    unfold placeIn, codesOf.
    destruct (isSource fromSemester (Some sourceId) s) eqn:Hsrc.
    { apply isSource_true in Hsrc as [_ [= Hid]]. simpl. rewrite codesOf_filter.
      split; [intros [? _]%list_elem_of_filter; done|congruence]. }
    assert (code ∉ codesOf s) as Hfresh.
    { intros Hc. apply not_true_iff_false in Hsrc. apply Hsrc, isSource_true.
      split; [done|]. f_equal. by apply Honly. }
    destruct (Z.eqb_spec (s_id s) targetSemId) as [Hid|Hid]; [|done].
    assert (hasCode code (s_modules s) = false) as ->.
    { apply not_true_iff_false. intros (m & Hm & Hc)%hasCode_true.
      apply Hfresh. unfold codesOf. apply list_elem_of_fmap. eauto. }
    simpl. split; [done|]. intros _.
    apply list_elem_of_fmap. exists (mkModule code code (Some 4) false).
    split; [done|].
    destruct insertAtIndex as [i|]; [destruct (0 <=? i)|].
    + rewrite spliceInsert_perm. by left.
    + apply elem_of_app. right. by left.
    + apply elem_of_app. right. by left.
  - intros m. by apply move_modules_fresh.
Qed.

Lemma handleDrop_move_witness :
  planCodes (academicYears (handleDrop boardDragging 2 None))
  ≡ₚ planCodes (academicYears boardDragging).
Proof.
  apply (handleDrop_move boardDragging "CS1101S" 1 2 None).
  - reflexivity.
  - lia.
  - apply NoDup_holds. vm_compute. reflexivity.
  - apply (bool_decide_eq_true_1 _). vm_compute. reflexivity.
  - reflexivity.
  - exists (mkSemester 1 "Semester 1" 4 [cs1101s] false).
    split; [apply list_elem_of_here|]. split; [reflexivity|apply list_elem_of_here].
Defined.

Lemma handleDrop_keeps_codes_unique_witness :
  uniqueCodes (handleDrop boardDragging 2 (Some 0)).
Proof.
  apply handleDrop_keeps_codes_unique.
  - apply NoDup_holds. vm_compute. reflexivity.
  - apply (bool_decide_eq_true_1 _). vm_compute. reflexivity.
  - intros d [= <-] _. simpl. apply list_elem_of_here.
Defined.


(** ** Reordering inside a semester *)

Lemma findIndex_Some {A} (p : A → bool) (l : list A) i :
  findIndex p l = Some i → ∃ x, l !! i = Some x ∧ p x = true.
Proof.
  revert i. induction l as [|a l IH]; intros i; [done|]. simpl.
  destruct (p a) eqn:Hp.
  - intros [= <-]. eauto.
  - destruct (findIndex p l) as [j|]; [|done]. intros [= <-].
    destruct (IH j eq_refl) as (x & ? & ?). eauto.
Qed.

Lemma spliceInsert_lookup {A} (l : list A) (start : Z) x :
  0 ≤ start ≤ Z.of_nat (length l) →
  spliceInsert l start x !! Z.to_nat start = Some x.
Proof.
  intros Hrange. unfold spliceInsert. cbv zeta.
  rewrite (proj2 (Z.ltb_ge start 0)) by lia. rewrite Z.min_l by lia.
  rewrite lookup_app_r by (rewrite length_take; lia).
  rewrite length_take. replace (Z.to_nat start - _)%nat with 0%nat by lia. done.
Qed.

(** X9.  Dropping a module inside its own semester permutes the modules of
    the semester; the module lands at the drop index, or one before it when
    it came from an earlier position, and the id, name and units of the
    semester are kept. *)
Theorem reorderIn_lands code i sem cur :
  findIndex (fun m => String.eqb (m_code m) code) (s_modules sem) = Some cur →
  0 ≤ i ≤ Z.of_nat (length (s_modules sem)) →
  let sem' := reorderIn code i sem in
  let landing := if Z.of_nat cur <? i then i - 1 else i in
  s_modules sem' ≡ₚ s_modules sem
  ∧ s_modules sem' !! Z.to_nat landing = s_modules sem !! cur
  ∧ (∃ m, s_modules sem !! cur = Some m ∧ m_code m = code)
  ∧ s_id sem' = s_id sem ∧ s_name sem' = s_name sem ∧ s_units sem' = s_units sem.
Proof.
  intros Hfind Hrange sem' landing. split; [apply reorderIn_perm|].
  destruct (findIndex_Some _ _ _ Hfind) as (m & Hm & Hc%String.eqb_eq).
  assert (cur < length (s_modules sem))%nat as Hlt by by eapply lookup_lt_Some.
  assert (sem' = if negb (Z.of_nat cur =? i)
                 then setModules sem
                        (spliceInsert (take cur (s_modules sem)
                                       ++ drop (S cur) (s_modules sem))
                                      landing m) (s_units sem)
                 else sem) as ->.
  { subst sem' landing. unfold reorderIn. rewrite Hfind. cbv beta iota.
    by rewrite Hm. }
  subst landing.
  destruct (Z.eqb_spec (Z.of_nat cur) i) as [Heq|Hne]; simpl.
  { rewrite (proj2 (Z.ltb_ge _ _)) by lia. rewrite <-Heq, Nat2Z.id. eauto 10. }
  split; [|eauto 10]. rewrite Hm. apply spliceInsert_lookup.
  rewrite length_app, length_take, length_drop.
  destruct (Z.ltb_spec (Z.of_nat cur) i); lia.
Qed.

Lemma reorderIn_lands_witness :
  s_modules (reorderIn "CS1101S" 2 y1s1Both) !! 1%nat = Some cs1101s.
Proof.
  apply (proj1 (proj2 (reorderIn_lands "CS1101S" 2 y1s1Both 0 eq_refl
                         ltac:(simpl; lia)))).
Defined.

(** ** Deleting a module *)

Lemma removeModule_semester ays semId code :
  planSemesters (removeModule ays semId code)
  = (fun s => if s_id s =? semId
              then setModules s (filter (fun m => m_code m ≠ code) (s_modules s))
                              (s_units s - 4)
              else s) <$> planSemesters ays.
Proof. apply planSemesters_mapSemesters. Qed.

(** X10.  The delete button of a module card removes the code from every
    semester with the id of the card, adds no code and leaves the other
    semesters as they are. *)
Theorem removeModule_removes ays semId code :
  planCodes (removeModule ays semId code) `sublist_of` planCodes ays
  ∧ (∀ s, s ∈ planSemesters (removeModule ays semId code) → s_id s = semId →
          code ∉ codesOf s)
  ∧ (∀ s, s ∈ planSemesters ays → s_id s ≠ semId →
          s ∈ planSemesters (removeModule ays semId code)).
Proof.
  split; [|split].
  - rewrite !planCodes_semesters, removeModule_semester, list_fmap_bind.
    apply bind_sublist. intros s. simpl.
    destruct (s_id s =? semId); [|done].
    unfold codesOf. simpl. rewrite codesOf_filter. apply sublist_filter.
  - intros s'. rewrite removeModule_semester.
    intros (s & -> & Hs)%list_elem_of_fmap.
    destruct (Z.eqb_spec (s_id s) semId) as [Hid|Hid]; [|done].
    intros _. unfold codesOf. simpl. rewrite codesOf_filter.
    intros [? _]%list_elem_of_filter. done.
  - intros s Hs Hid. rewrite removeModule_semester.
    apply list_elem_of_fmap. exists s. split; [|done].
    apply Z.eqb_neq in Hid. by rewrite Hid.
Qed.

Lemma filter_fresh_snoc code title (mods : list Module_) :
  hasCode code mods = false →
  filter (fun m => m_code m ≠ code) (mods ++ [mkModule code title (Some 4) false])
  = mods.
Proof.
  intros Hfresh. rewrite filter_app, filter_cons. simpl.
  destruct (decide (code ≠ code)); [done|]. rewrite filter_nil, app_nil_r.
  induction mods as [|m mods IH]; [done|]. simpl in Hfresh.
  apply orb_false_iff in Hfresh as [Hm%String.eqb_neq Hfresh].
  rewrite filter_cons. destruct (decide (m_code m ≠ code)); [|done].
  by rewrite IH.
Qed.

(** X11.  Deleting a module that was just added through the search box of
    a semester restores the plan, units included. *)
Theorem removeModule_after_select b semId code title :
  (∀ s, s ∈ planSemesters (academicYears b) → s_id s = semId →
        hasCode code (s_modules s) = false) →
  removeModule (academicYears (handleModuleSelect b semId code title)) semId code
  = academicYears b.
Proof.
  intros Hfresh. unfold removeModule, handleModuleSelect. simpl.
  assert (∀ y, y ∈ academicYears b → ∀ s, s ∈ y_semesters y → s_id s = semId →
               hasCode code (s_modules s) = false) as Hy.
  { intros y Hy s Hs. apply Hfresh. apply list_elem_of_bind. eauto. }
  clear Hfresh. unfold mapSemesters.
  induction (academicYears b) as [|y ays IH] in Hy |- *; [done|].
  rewrite !fmap_cons. f_equal.
  - destruct y as [yr lbl ay tu ss]. simpl. f_equal.
    assert (∀ s, s ∈ ss → s_id s = semId → hasCode code (s_modules s) = false)
      as Hs by (intros s Hs; apply (Hy _ (list_elem_of_here _ _)); done).
    clear Hy IH. induction ss as [|s ss IHs]; [done|].
    rewrite !fmap_cons. f_equal; [|apply IHs; intros s' Hs'; apply Hs; by right].
    destruct (Z.eqb_spec (s_id s) semId) as [Hid|Hid].
    + rewrite (Hs s (list_elem_of_here _ _) Hid). simpl.
      apply Z.eqb_eq in Hid. rewrite Hid.
      rewrite filter_fresh_snoc by (apply Hs; [by left|by apply Z.eqb_eq]).
      destruct s as [i n u ms ex]. unfold setModules. simpl. f_equal. lia.
    + apply Z.eqb_neq in Hid. by rewrite Hid.
  - apply IH. intros y' Hy'. apply Hy. by right.
Qed.

Lemma removeModule_after_select_witness :
  removeModule (academicYears (handleModuleSelect boardDragging 2 "MA1521" "Calculus"))
               2 "MA1521"
  = academicYears boardDragging.
Proof.
  apply removeModule_after_select.
  intros s Hs Hid. vm_compute in Hs. set_unfold.
  destruct Hs as [->|[->|[]]]; [discriminate Hid|reflexivity].
Defined.

(** ** Adding and deleting special terms *)

Lemma bind_addSpecialTerm {B} (G : Z → Semester → list B) ays yearNum termType :
  (∀ yr i name, G yr (mkSemester i name 0 [] false) = []) →
  (y ← addSpecialTerm ays yearNum termType; s ← y_semesters y; G (y_year y) s)
  = (y ← ays; s ← y_semesters y; G (y_year y) s).
Proof.
  intros HG. unfold addSpecialTerm.
  induction ays as [|y ays IH]; [done|].
  rewrite fmap_cons, !bind_cons, IH. f_equal.
  destruct (y_year y =? yearNum); [|done].
  destruct (existsb _ _); [done|]. simpl.
  by rewrite bind_app, bind_singleton, HG, app_nil_r.
Qed.

Lemma addSpecialTerm_idem ays yearNum termType :
  addSpecialTerm (addSpecialTerm ays yearNum termType) yearNum termType
  = addSpecialTerm ays yearNum termType.
Proof.
  unfold addSpecialTerm. rewrite <-list_fmap_compose.
  apply list_fmap_ext. intros _ y _. simpl.
  destruct (Z.eqb_spec (y_year y) yearNum) as [Hy|Hy].
  - destruct (existsb _ (y_semesters y)) eqn:Hex.
    + apply Z.eqb_eq in Hy. by rewrite Hy, Hex.
    + simpl. apply Z.eqb_eq in Hy. rewrite Hy.
      rewrite existsb_app. simpl. rewrite String.eqb_refl.
      by rewrite orb_true_r.
  - apply Z.eqb_neq in Hy. by rewrite Hy.
Qed.

(** X13.  Deleting a special term that was just added restores the plan,
    provided no semester of that year already had the id of the new term. *)
Theorem deleteSpecialTerm_after_add ays yearNum termType :
  (∀ y s, y ∈ ays → y_year y = yearNum → s ∈ y_semesters y →
          s_id s ≠ specialTermId yearNum termType) →
  deleteSpecialTerm (addSpecialTerm ays yearNum termType) yearNum
                    (specialTermId yearNum termType)
  = ays.
Proof.
  intros Hfresh. unfold deleteSpecialTerm, addSpecialTerm.
  rewrite <-list_fmap_compose.
  rewrite <-(list_fmap_id ays) at 2. apply list_fmap_ext. intros _ y Hy%list_elem_of_lookup_2.
  simpl. destruct (Z.eqb_spec (y_year y) yearNum) as [Hyr|Hyr].
  - assert (filter (fun s => s_id s ≠ specialTermId yearNum termType) (y_semesters y)
            = y_semesters y) as Hkeep.
    { pose proof (Hfresh y) as Hs. clear Hfresh.
      induction (y_semesters y) as [|s ss IH] in Hs |- *; [done|].
      rewrite filter_cons.
      destruct (decide (s_id s ≠ specialTermId yearNum termType)) as [?|Hnn].
      - f_equal. apply IH. intros s' ? ? ?. apply Hs; [done..|by right].
      - destruct Hnn. apply Hs; [done..|by left]. }
    destruct (existsb _ (y_semesters y)).
    + apply Z.eqb_eq in Hyr. rewrite Hyr, Hkeep. by destruct y.
    + simpl. apply Z.eqb_eq in Hyr. rewrite Hyr.
      rewrite filter_app, Hkeep, filter_cons. simpl.
      destruct (decide (_ ≠ _)) as [Hne|_]; [by destruct Hne|].
      rewrite filter_nil, app_nil_r. by destruct y.
  - apply Z.eqb_neq in Hyr. by rewrite Hyr.
Qed.

Lemma deleteSpecialTerm_after_add_witness :
  deleteSpecialTerm (addSpecialTerm DEFAULT_PLAN 2 "Special Term 2") 2
                    (specialTermId 2 "Special Term 2")
  = DEFAULT_PLAN.
Proof.
  apply deleteSpecialTerm_after_add.
  intros y s Hy Hyr Hs Hid. vm_compute in Hy. set_unfold.
  destruct Hy as [->|[->|[->|[->|[]]]]]; try discriminate Hyr.
  vm_compute in Hs. set_unfold. destruct Hs as [->|[->|[]]]; discriminate Hid.
Defined.

(** ** The debounced effect after a quiet period *)

(** X14.  When the plan changes and the timer then fires, the run that
    starts captures the new plan, and its completion publishes the violations
    of that plan, whatever happened before. *)
Theorem quiet_run_publishes_current cat plan events next :
  let rt := execute cat plan (events ++ [Mutate next; TimerFires]) in
  rtPlan rt = next
  ∧ rtTimer rt = None
  ∧ rtInFlight rt !! (length (rtInFlight rt) - 1)%nat = Some next
  ∧ rtPublished (step cat rt (RunCompletes (length (rtInFlight rt) - 1)))
    = runOn cat next.
Proof.
  intros rt. subst rt.
  replace (events ++ [Mutate next; TimerFires])
    with ((events ++ [Mutate next]) ++ [TimerFires]) by by rewrite <-app_assoc.
  rewrite !execute_snoc. set (rt0 := execute cat plan events).
  cbn [step rtTimer rtPlan rtInFlight rtPublished].
  assert ((rtInFlight rt0 ++ [next]) !! (length (rtInFlight rt0 ++ [next]) - 1)%nat
          = Some next) as Hlast.
  { rewrite length_app. simpl. rewrite lookup_app_r by lia.
    replace (_ - _)%nat with 0%nat by lia. done. }
  split_and!; try done. by rewrite Hlast.
Qed.

(** ** The current-semester pointer *)

Lemma isDigit_digitOf c : Js.isDigit c = true → 0 ≤ digitOf c ≤ 9.
Proof.
  unfold Js.isDigit, digitOf. cbv zeta.
  intros [H1%Nat.leb_le H2%Nat.leb_le]%andb_true_iff. lia.
Qed.

Lemma matchYS_step c s :
  matchYS (String c s) = matchYS s
  ∨ ∃ a b rest, c = "Y"%char ∧ s = String a (String "S" (String b rest))
                ∧ Js.isDigit a && Js.isDigit b = true
                ∧ matchYS (String c s) = Some (a, b).
Proof.
  destruct (ascii_dec c "Y") as [->|Hc].
  - destruct s as [|a [|c1 s2]]; try (left; reflexivity).
    destruct (ascii_dec c1 "S") as [->|Hc1].
    + destruct s2 as [|b rest]; [left; reflexivity|].
      cbn [matchYS]. destruct (Js.isDigit a && Js.isDigit b) eqn:Hd.
      * right. exists a, b, rest. done.
      * by left.
    + left. destruct c1 as [[] [] [] [] [] [] [] []]; try reflexivity.
      by destruct Hc1.
  - left. destruct c as [[] [] [] [] [] [] [] []]; try reflexivity.
    by destruct Hc.
Qed.

Lemma matchYS_digits s a b :
  matchYS s = Some (a, b) → Js.isDigit a = true ∧ Js.isDigit b = true.
Proof.
  induction s as [|c s IH]; [done|].
  destruct (matchYS_step c s) as [->|(a' & b' & rest & _ & _ & Hd & ->)]; [done|].
  intros [= <- <-]. by apply andb_true_iff.
Qed.

(** X15.  The current-semester pointer is parsed to two digits between 0
    and 9: a string that begins with [Y], a digit, [S] and a digit gives
    those two digits, and a string without such a match gives year 1,
    semester 1. *)
Theorem parseCurrentSemester_range currentSemester :
  (0 ≤ (parseCurrentSemester currentSemester).1 ≤ 9
   ∧ 0 ≤ (parseCurrentSemester currentSemester).2 ≤ 9)
  ∧ (∀ a b rest, Js.isDigit a = true → Js.isDigit b = true →
       parseCurrentSemester (String "Y" (String a (String "S" (String b rest))))
       = (digitOf a, digitOf b))
  ∧ (matchYS currentSemester = None → parseCurrentSemester currentSemester = (1, 1)).
Proof.
  split; [|split].
  - unfold parseCurrentSemester. destruct (String.eqb _ _); [simpl; lia|].
    destruct (matchYS currentSemester) as [[a b]|] eqn:Hm; [|simpl; lia].
    apply matchYS_digits in Hm as [Ha%isDigit_digitOf Hb%isDigit_digitOf]. done.
  - intros a b rest Ha Hb. unfold parseCurrentSemester.
    destruct (String.eqb _ "Y0S0") eqn:Heq.
    { apply String.eqb_eq in Heq. by injection Heq as -> -> ->. }
    cbn [matchYS]. by rewrite Ha, Hb.
  - intros Hnone. unfold parseCurrentSemester. rewrite Hnone.
    destruct (String.eqb _ _) eqn:Heq; [|done].
    apply String.eqb_eq in Heq. by rewrite Heq in Hnone.
Qed.

Lemma parseCurrentSemester_range_witness :
  parseCurrentSemester "Y3S2" = (digitOf "3", digitOf "2")
  ∧ parseCurrentSemester "Year 3" = (1, 1).
Proof.
  destruct (parseCurrentSemester_range "Year 3") as (_ & Hopt & Hnone).
  split; [apply (Hopt "3"%char "2"%char ""); reflexivity|apply Hnone; reflexivity].
Defined.

(** ** Academic-year strings *)

Lemma checked_on_range (P : Z → bool) lo len :
  forallb P (seqZ lo len) = true → ∀ z, lo ≤ z < lo + len → P z = true.
Proof.
  intros Hall z Hz. rewrite forallb_forall in Hall. apply Hall.
  apply list_elem_of_In, elem_of_seqZ. lia.
Qed.

(** X16.  Every academic year that the sidebar offers for a year between
    2000 and 2099 is parsed back by the board to that year. *)
Theorem academicYearOption_roundtrip currentYear i :
  2000 ≤ currentYear - 2 + i ≤ 2099 →
  parseAcademicYear (academicYearOption currentYear i) = currentYear - 2 + i.
Proof.
  intros Hrange. unfold academicYearOption. cbv zeta.
  generalize dependent (currentYear - 2 + i). intros year Hrange.
  apply Z.eqb_eq.
  apply (checked_on_range
           (fun year =>
              parseAcademicYear
                ("AY" +:+ padStart2 (showZ (Z.rem year 100)) +:+ "/"
                 +:+ padStart2 (showZ (Z.rem (year + 1) 100))) =? year)
           2000 100); [|lia].
  vm_compute. reflexivity.
Qed.

Lemma academicYearOption_roundtrip_witness :
  parseAcademicYear (academicYearOption 2026 0) = 2026 - 2 + 0.
Proof. apply academicYearOption_roundtrip. lia. Defined.

Example academicYearOptions_2026 :
  academicYearOptions 2026
  = ["AY24/25"; "AY25/26"; "AY26/27"; "AY27/28"; "AY28/29"; "AY29/30"].
Proof. vm_compute. reflexivity. Qed.

Example parseAcademicYear_examples :
  parseAcademicYear "2024/2025" = 2024 ∧ parseAcademicYear "AY24/25" = 2024
  ∧ parseAcademicYear "AY/25" = 2024 ∧ parseAcademicYear "" = 2024.
Proof. vm_compute. auto. Qed.

(** ** The saved and the exported plan *)

Lemma showZ_inj a b : showZ a = showZ b → a = b.
Proof.
  unfold showZ. intros Heq.
  assert (∀ z, Z.to_int z ≠ Decimal.Pos Decimal.Nil
               ∧ Z.to_int z ≠ Decimal.Neg Decimal.Nil) as Hnn.
  { intros [|p|p]; simpl; split; try done; intros [= H];
      by apply DecimalPos.Unsigned.to_uint_nonnil in H. }
  apply (f_equal DecimalString.NilZero.int_of_string) in Heq.
  rewrite !DecimalString.NilZero.isi in Heq by apply Hnn.
  injection Heq as Heq. apply (f_equal Z.of_int) in Heq.
  by rewrite !DecimalZ.of_to in Heq.
Qed.

Lemma foldl_putRow_spec rows mm id0 :
  (∀ k, id0 ≤ k → mm !! showZ k = None) →
  let st := foldl putRow (mm, id0) rows in
  st.2 = id0 + Z.of_nat (length rows)
  ∧ size st.1 = (size mm + length rows)%nat
  ∧ (∀ j r, rows !! j = Some r →
            st.1 !! showZ (id0 + Z.of_nat j) = Some (savedAs (id0 + Z.of_nat j) r))
  ∧ (∀ k, id0 + Z.of_nat (length rows) ≤ k → st.1 !! showZ k = None)
  ∧ (∀ k, k < id0 → st.1 !! showZ k = mm !! showZ k).
Proof.
  revert mm id0. induction rows as [|r rows IH]; intros mm id0 Hfresh.
  { simpl. split_and!; try done; try lia.
    intros k Hk. apply Hfresh. lia. }
  cbn [foldl]. destruct r as [[[year semester] index] moduleCode].
  cbn [putRow putModule].
  set (mm1 := <[showZ id0 := _]> mm).
  assert (∀ k, id0 + 1 ≤ k → mm1 !! showZ k = None) as Hfresh1.
  { intros k Hk. subst mm1. rewrite lookup_insert_ne.
    - apply Hfresh. lia.
    - intros Heq%showZ_inj. lia. }
  destruct (IH mm1 (id0 + 1) Hfresh1) as (Hid & Hsize & Hrows & Hafter & Hbefore).
  cbv zeta. split_and!.
  - rewrite Hid. simpl. lia.
  - rewrite Hsize. subst mm1. rewrite map_size_insert_None by (apply Hfresh; lia).
    simpl. lia.
  - intros [|j] r Hr.
    + injection Hr as <-. rewrite Z.add_0_r, Hbefore by lia. subst mm1.
      by rewrite lookup_insert_eq.
    + specialize (Hrows j r Hr).
      replace (id0 + Z.of_nat (S j)) with (id0 + 1 + Z.of_nat j) by lia. done.
  - intros k Hk. apply Hafter. simpl in Hk. lia.
  - intros k Hk. rewrite Hbefore by lia. subst mm1.
    rewrite lookup_insert_ne; [done|]. intros Heq%showZ_inj. lia.
Qed.

Lemma foldl_bind {A B C} (f : A → B → A) (g : C → list B) a l :
  foldl f a (l ≫= g) = foldl (fun a x => foldl f a (g x)) a l.
Proof.
  revert a. induction l as [|x l IH]; intros a; simpl; [done|].
  by rewrite foldl_app, IH.
Qed.

Lemma foldl_moduleRows year semester mods st :
  foldl (fun st '(index, md) => putModule year semester index (m_code md) st)
        st (indexed mods)
  = foldl putRow st (moduleRows year semester mods).
Proof.
  unfold moduleRows. rewrite foldl_fmap. apply foldl_ext_elem.
  by intros st' [index md].
Qed.

Lemma foldl_stagedRows staged st :
  foldl (fun st '(index, md) => putModule "-1" (-1) index (st_code md) st)
        st (indexed staged)
  = foldl putRow st (stagedRows staged).
Proof.
  unfold stagedRows. rewrite foldl_fmap. apply foldl_ext_elem.
  by intros st' [index md].
Qed.

Lemma generateSavePayload_rows years staged :
  generateSavePayload years staged
  = (foldl putRow (∅, 1) (saveRows years staged)).1.
Proof.
  unfold generateSavePayload, saveRows.
  rewrite foldl_app, foldl_stagedRows. do 2 f_equal.
  rewrite foldl_bind. apply foldl_ext_elem. intros st year.
  rewrite foldl_bind. apply foldl_ext_elem. intros st' sem.
  apply foldl_moduleRows.
Qed.

Lemma handleExportPlan_rows start ays staged :
  handleExportPlan start ays staged
  = (foldl putRow (∅, 1) (exportRows start ays staged)).1.
Proof.
  unfold handleExportPlan, exportRows. cbv zeta.
  rewrite foldl_app, foldl_stagedRows. do 2 f_equal.
  rewrite foldl_bind. apply foldl_ext_elem. intros st [yearIdx year].
  rewrite foldl_bind. apply foldl_ext_elem. intros st' sem.
  apply foldl_moduleRows.
Qed.

Lemma indexed_snd {A} (l : list A) : snd <$> indexed l = l.
Proof.
  unfold indexed. rewrite fmap_imap.
  induction l as [|x l IH] using rev_ind; [done|].
  rewrite imap_app, IH. simpl. done.
Qed.

Lemma moduleRows_codes year semester mods :
  rowCode <$> moduleRows year semester mods = m_code <$> mods.
Proof.
  unfold moduleRows. rewrite <-list_fmap_compose.
  rewrite <-(indexed_snd mods) at 2. rewrite <-list_fmap_compose.
  apply list_fmap_ext. by intros i [index md].
Qed.

Lemma stagedRows_codes staged :
  rowCode <$> stagedRows staged = stagedCodes staged.
Proof.
  unfold stagedRows, stagedCodes. rewrite <-list_fmap_compose.
  rewrite <-(indexed_snd staged) at 2. rewrite <-list_fmap_compose.
  apply list_fmap_ext. by intros i [index md].
Qed.

Lemma fmap_bind_list {A B C} (f : B → C) (g : A → list B) l :
  f <$> (l ≫= g) = l ≫= (fun x => f <$> g x).
Proof.
  induction l as [|x l IH]; [done|]. by rewrite !bind_cons, fmap_app, IH.
Qed.

Lemma bind_ext_list {A B} (f g : A → list B) l :
  (∀ x, f x = g x) → l ≫= f = l ≫= g.
Proof.
  intros H. induction l as [|x l IH]; [done|]. by rewrite !bind_cons, H, IH.
Qed.

Lemma bind_indexed {A B} (g : A → list B) (h : Z → A → list B) l :
  (∀ i x, h i x = g x) → (indexed l ≫= fun '(i, x) => h i x) = l ≫= g.
Proof.
  intros H. unfold indexed.
  induction l as [|x l IH] using rev_ind; [done|].
  rewrite imap_app, !bind_app, IH. simpl. by rewrite H.
Qed.

Lemma saveRows_codes years staged :
  rowCode <$> saveRows years staged = planCodes years ++ stagedCodes staged.
Proof.
  unfold saveRows. rewrite fmap_app, stagedRows_codes. f_equal.
  unfold planCodes, planModules. rewrite !fmap_bind_list.
  apply bind_ext_list. intros year. rewrite !fmap_bind_list.
  apply bind_ext_list. intros sem. apply moduleRows_codes.
Qed.

Lemma exportRows_codes start ays staged :
  rowCode <$> exportRows start ays staged = planCodes ays ++ stagedCodes staged.
Proof.
  unfold exportRows. cbv zeta. rewrite fmap_app, stagedRows_codes. f_equal.
  unfold planCodes, planModules. rewrite !fmap_bind_list.
  rewrite (bind_ext_list _
    (fun '(i, year) => m_code <$> (y_semesters year ≫= s_modules))).
  - by apply (bind_indexed (fun year => m_code <$> (y_semesters year ≫= s_modules))
                           (fun _ year => m_code <$> (y_semesters year ≫= s_modules))).
  - intros [i year]. rewrite !fmap_bind_list.
    apply bind_ext_list. intros sem. apply moduleRows_codes.
Qed.

(** X17.  The payload that is saved has one entry for each placed and each
    exempted module, under the keys ["1"], ["2"], ... in board order; the
    entries of placed modules carry semester 1 or 2, those of exempted
    modules year ["-1"] and semester [-1]. *)
Theorem generateSavePayload_entries years staged :
  let payload := generateSavePayload years staged in
  let codes := planCodes years ++ stagedCodes staged in
  size payload = length codes
  ∧ ∀ (j : nat) code, codes !! j = Some code →
      ∃ e, payload !! showZ (Z.of_nat j + 1) = Some e
           ∧ sm_id e = showZ (Z.of_nat j + 1)
           ∧ sm_moduleCode e = code
           ∧ if decide (j < length (planCodes years))%nat
             then sm_semester e = 1 ∨ sm_semester e = 2
             else sm_year e = "-1" ∧ sm_semester e = -1.
Proof.
  intros payload codes. subst payload codes.
  rewrite generateSavePayload_rows, <-saveRows_codes.
  destruct (foldl_putRow_spec (saveRows years staged) ∅ 1)
    as (_ & Hsize & Hrows & _); [intros; apply lookup_empty|].
  cbv zeta in *. split.
  { rewrite Hsize, map_size_empty, length_fmap. done. }
  intros j code Hj. apply list_lookup_fmap_Some in Hj as (r & -> & Hr).
  exists (savedAs (1 + Z.of_nat j) r).
  replace (Z.of_nat j + 1) with (1 + Z.of_nat j) by lia.
  split; [by apply Hrows|].
  destruct r as [[[year semester] index] moduleCode]. cbn.
  split; [done|]. split; [done|].
  assert (length (planCodes years)
          = length (year ← years; sem ← y_semesters year;
                    moduleRows (getAYString (y_label year))
                      (if Js.includes (s_name sem) "1" then 1 else 2)
                      (s_modules sem))) as Hlen.
  { pose proof (saveRows_codes years []) as H. unfold saveRows in H.
    simpl in H. rewrite !app_nil_r in H. by rewrite <-H, length_fmap. }
  unfold saveRows in Hr. case_decide as Hlt.
  - rewrite lookup_app_l in Hr by lia.
    apply list_elem_of_lookup_2 in Hr.
    apply list_elem_of_bind in Hr as (y & Hr & _).
    apply list_elem_of_bind in Hr as (s & Hr & _).
    unfold moduleRows in Hr. apply list_elem_of_fmap in Hr as ([i m] & [= _ -> _ _] & _).
    destruct (Js.includes _ _); auto.
  - rewrite lookup_app_r in Hr by lia.
    apply list_elem_of_lookup_2 in Hr.
    unfold stagedRows in Hr. apply list_elem_of_fmap in Hr as ([i m] & [= -> -> _ _] & _).
    done.
Qed.

Lemma foldl_putRow_inv rows mm id0 k e :
  (foldl putRow (mm, id0) rows).1 !! k = Some e →
  mm !! k = Some e
  ∨ ∃ (j : nat) r, rows !! j = Some r ∧ e = savedAs (id0 + Z.of_nat j) r.
Proof.
  revert mm id0. induction rows as [|r rows IH]; intros mm id0 Hk; [by left|].
  cbn [foldl] in Hk. destruct r as [[[year semester] index] moduleCode].
  cbn [putRow putModule] in Hk.
  apply IH in Hk as [Hk|(j & r & Hr & ->)].
  - apply lookup_insert_Some in Hk as [[_ <-]|[_ Hk]]; [|by left].
    right. exists 0%nat, (year, semester, index, moduleCode).
    split; [done|]. by rewrite Z.add_0_r.
  - right. exists (S j), r. split; [done|]. f_equal. lia.
Qed.

(** X18.  The exported plan has one entry for each placed and each exempted
    module, under the keys ["1"], ["2"], ... in board order; placed modules
    carry a semester number from 1 to 4, exempted modules year ["-1"] and
    semester [-1]. *)
Theorem handleExportPlan_entries start ays staged :
  let payload := handleExportPlan start ays staged in
  let codes := planCodes ays ++ stagedCodes staged in
  size payload = length codes
  ∧ ∀ (j : nat) code, codes !! j = Some code →
      ∃ e, payload !! showZ (Z.of_nat j + 1) = Some e
           ∧ sm_id e = showZ (Z.of_nat j + 1)
           ∧ sm_moduleCode e = code
           ∧ if decide (j < length (planCodes ays))%nat
             then 1 ≤ sm_semester e ≤ 4
             else sm_year e = "-1" ∧ sm_semester e = -1.
Proof.
  intros payload codes. subst payload codes.
  rewrite handleExportPlan_rows, <-exportRows_codes with (start := start).
  destruct (foldl_putRow_spec (exportRows start ays staged) ∅ 1)
    as (_ & Hsize & Hrows & _); [intros; apply lookup_empty|].
  cbv zeta in *. split.
  { rewrite Hsize, map_size_empty, length_fmap. done. }
  intros j code Hj. apply list_lookup_fmap_Some in Hj as (r & -> & Hr).
  exists (savedAs (1 + Z.of_nat j) r).
  replace (Z.of_nat j + 1) with (1 + Z.of_nat j) by lia.
  split; [by apply Hrows|].
  destruct r as [[[year semester] index] moduleCode]. cbn.
  split; [done|]. split; [done|].
  pose proof (exportRows_codes start ays []) as Hlen.
  apply (f_equal length) in Hlen.
  unfold exportRows in Hlen, Hr. cbv zeta in Hlen, Hr.
  simpl in Hlen. rewrite !app_nil_r, length_fmap in Hlen.
  case_decide as Hlt.
  - rewrite lookup_app_l in Hr by lia.
    apply list_elem_of_lookup_2 in Hr.
    apply list_elem_of_bind in Hr as ([yearIdx y] & Hr & _).
    apply list_elem_of_bind in Hr as (s & Hr & _).
    unfold moduleRows in Hr.
    apply list_elem_of_fmap in Hr as ([i m] & [= _ -> _ _] & _).
    unfold exportSemNum. repeat destruct (String.eqb _ _); lia.
  - rewrite lookup_app_r in Hr by lia.
    apply list_elem_of_lookup_2 in Hr.
    unfold stagedRows in Hr.
    apply list_elem_of_fmap in Hr as ([i m] & [= -> -> _ _] & _).
    done.
Qed.

Lemma append_empty_r (s : string) : s +:+ "" = s.
Proof.
  induction s as [|a s IH]; [done|].
  change (String a (s +:+ "") = String a s). by rewrite IH.
Qed.

Lemma append_snoc (s : string) c t : (s +:+ String c "") +:+ t = s +:+ String c t.
Proof.
  induction s as [|a s IH]; [done|].
  change (String a ((s +:+ String c "") +:+ t) = String a (s +:+ String c t)).
  by rewrite IH.
Qed.

Lemma splitAux_head sep cur s :
  ∃ t, Js.splitAux sep cur s !! 0%nat = Some (cur +:+ t).
Proof.
  revert cur. induction s as [|c s IH]; intros cur; cbn [Js.splitAux].
  - exists "". by rewrite append_empty_r.
  - destruct (Ascii.eqb c sep).
    + exists "". by rewrite append_empty_r.
    + destruct (IH (cur +:+ String c "")) as [t Ht]. exists (String c t).
      by rewrite Ht, append_snoc.
Qed.

Lemma parseInt_AY start :
  Js.startsWith start "AY" = true →
  Js.parseInt (Js.split start "/" !! 0%nat) = None.
Proof.
  unfold Js.startsWith.
  destruct start as [|a [|b rest]]; cbn [String.prefix].
  - done.
  - destruct (ascii_dec "A" a); done.
  - destruct (ascii_dec "A" a) as [<-|]; [|done].
    destruct (ascii_dec "Y" b) as [<-|]; [|done]. intros _.
    unfold Js.split. cbn [Js.splitAux Ascii.eqb Bool.eqb].
    destruct (splitAux_head "/" ("" +:+ "A" +:+ "Y") rest) as [t Ht].
    change (("" +:+ "A") +:+ "Y") with ("" +:+ "A" +:+ "Y").
    rewrite Ht. done.
Qed.

(** X19.  A start year in the form that the sidebar offers (["AY24/25"]) is
    not parsed by the export: every placed module is exported under the year
    ["NaN/NaN"]. *)
Theorem handleExportPlan_AY_start start ays staged k e :
  Js.startsWith start "AY" = true →
  handleExportPlan start ays staged !! k = Some e →
  sm_semester e ≠ -1 →
  sm_year e = "NaN/NaN".
Proof.
  intros Hstart Hk Hsem. rewrite handleExportPlan_rows in Hk.
  apply foldl_putRow_inv in Hk as [Hk|(j & r & Hr & ->)];
    [by rewrite lookup_empty in Hk|].
  apply list_elem_of_lookup_2 in Hr. unfold exportRows in Hr.
  cbv zeta in Hr. rewrite parseInt_AY in Hr by done.
  apply elem_of_app in Hr as [Hr|Hr].
  - apply list_elem_of_bind in Hr as ([yearIdx y] & Hr & _).
    apply list_elem_of_bind in Hr as (s & Hr & _).
    unfold moduleRows in Hr.
    by apply list_elem_of_fmap in Hr as ([i m] & -> & _).
  - unfold stagedRows in Hr.
    apply list_elem_of_fmap in Hr as ([i m] & -> & _). by destruct Hsem.
Qed.

Lemma handleExportPlan_AY_start_witness :
  sm_year (mkSaved "1" "NaN/NaN" 1 0 "CS1101S") = "NaN/NaN".
Proof.
  apply (handleExportPlan_AY_start "AY24/25" [yearInOrder] [] "1");
    [reflexivity|by vm_compute|done].
Defined.

Lemma includes_regular name :
  Js.includes (if Js.includes name "1" then "Semester 1" else "Semester 2") "1"
  = Js.includes name "1".
Proof. by destruct (Js.includes name "1"). Qed.

(** X20.  The saved payload does not tell a special term or an exchange
    semester from the regular semester with the same number. *)
Theorem generateSavePayload_asRegular ays staged :
  generateSavePayload (asRegular ays) staged = generateSavePayload ays staged.
Proof.
  rewrite !generateSavePayload_rows. do 2 f_equal.
  unfold saveRows. f_equal. unfold asRegular, mapSemesters.
  induction ays as [|y ays IH]; [done|].
  rewrite fmap_cons, !bind_cons, IH. f_equal. cbn [y_semesters y_label].
  induction (y_semesters y) as [|s ss IHs]; [done|].
  rewrite fmap_cons, !bind_cons, IHs. f_equal.
  cbn [s_name s_modules]. by rewrite includes_regular.
Qed.

(** ** Conversion of a generated plan *)

Lemma sumZ_app l k : sumZ (l ++ k) = sumZ l + sumZ k.
Proof. unfold sumZ. induction l as [|x l IH]; cbn [foldr app]; lia. Qed.

Lemma sumUnits_sumZ mods : sumUnits mods = sumZ (unitsOrFour <$> mods).
Proof.
  unfold sumUnits. assert (∀ a, foldl (fun sum m => sum + unitsOrFour m) a mods
                                = a + sumZ (unitsOrFour <$> mods)) as H.
  { induction mods as [|m mods IH]; intros a; [unfold sumZ; simpl; lia|].
    rewrite fmap_cons. cbn [foldl]. rewrite IH. unfold sumZ. cbn [foldr]. lia. }
  rewrite H. lia.
Qed.

Lemma creditsIn_all l :
  creditsIn Completed l + creditsIn Current l + creditsIn Planned l
  = sumZ (e_credit <$> l).
Proof.
  induction l as [|e l IH]; [done|].
  rewrite fmap_cons. cbn [creditsIn]. unfold sumZ in *. cbn [foldr].
  destruct (e_bucket e); simpl; lia.
Qed.

Lemma planLedger_credits ays cur :
  e_credit <$> planLedger ays cur = unitsOrFour <$> planModules ays.
Proof.
  unfold planModules, planLedger.
  induction ays as [|y ays IH]; [done|].
  rewrite !bind_cons, !fmap_app, IH. f_equal.
  generalize (y_semesters y). intros ss.
  induction ss as [|s ss IHs]; [done|].
  rewrite !bind_cons, !fmap_app, IHs. f_equal.
  rewrite <-list_fmap_compose. done.
Qed.

Lemma stagedLedger_codes_sublist staged :
  sublist (e_code <$> stagedLedger staged) (stagedCodes staged).
Proof.
  unfold stagedLedger, stagedCodes. rewrite <-list_fmap_compose.
  change (e_code ∘ _) with st_code.
  apply fmap_sublist, sublist_filter.
Qed.

Lemma progression_total_unique ays staged cy cs :
  NoDup (planCodes ays ++ stagedCodes staged) →
  total (progressionStats ays staged cy cs) = boardCredits ays staged.
Proof.
  intros Hnd. unfold total.
  destruct (progression_sums ays staged cy cs) as (-> & -> & ->).
  unfold counted. rewrite countedFrom_NoDup.
  - rewrite creditsIn_all. unfold ledger, boardCredits.
    rewrite fmap_app, sumZ_app, planLedger_credits.
    unfold stagedLedger. rewrite <-list_fmap_compose.
    change (e_credit ∘ _) with (fun m => Js.orFour (st_mcs m)). lia.
  - unfold ledger. rewrite fmap_app, planLedger_codes.
    apply NoDup_app in Hnd as (Hp & Hps & Hs).
    apply NoDup_app. split; [|split; [|done]].
    + eapply sublist_NoDup; [done|apply stagedLedger_codes_sublist].
    + intros c Hc Hc'. apply (Hps c); [done|].
      eapply elem_of_sublist; [|apply stagedLedger_codes_sublist]. done.
  - intros e _. apply not_elem_of_nil.
Qed.

Lemma bind_nil_list {A B} (f : A → list B) : [] ≫= f = [].
Proof. done. Qed.

Lemma convertModules_codes plan codes :
  m_code <$> convertModules plan codes = codes.
Proof.
  unfold convertModules. rewrite <-list_fmap_compose.
  induction codes as [|c codes IH]; [done|]. rewrite fmap_cons. by rewrite IH.
Qed.

Lemma creditOrFour_nonzero ci : creditOrFour ci ≠ 0.
Proof.
  unfold creditOrFour, Js.orFour. destruct ci as [ci|]; [|done].
  destruct (ci_credit ci =? 0) eqn:E; [done|]. by apply Z.eqb_neq.
Qed.

Lemma orFour_creditOrFour ci : Js.orFour (creditOrFour ci) = creditOrFour ci.
Proof.
  pose proof (creditOrFour_nonzero ci) as H. unfold Js.orFour at 1.
  apply Z.eqb_neq in H. by rewrite H.
Qed.

Lemma planModules_cons y ays :
  planModules (y :: ays) = (y_semesters y ≫= s_modules) ++ planModules ays.
Proof. unfold planModules. by rewrite bind_cons. Qed.

Lemma convertYear_credits startYear plan yearNum :
  let y := convertYear startYear plan yearNum in
  sumZ (unitsOrFour <$> (y_semesters y ≫= s_modules)) = y_totalUnits y.
Proof.
  unfold convertYear. cbv zeta. cbn [y_semesters y_totalUnits].
  rewrite !bind_cons, bind_nil_list. cbn [s_modules].
  rewrite app_nil_r, fmap_app, sumZ_app, !sumUnits_sumZ. done.
Qed.

(** X22.  After a generated plan is processed, and when no code is held
    twice on the board, the total of the progress statistics is the sum of
    the units stored for the four years plus the credits of the exempted
    modules, whatever the current-semester pointer is. *)
Theorem generated_plan_total b startAcademicYear plan cy cs :
  let b' := processGeneratedPlan b startAcademicYear plan in
  uniqueCodes b' →
  total (progressionStats (academicYears b') (stagedModules b') cy cs)
  = sumZ (y_totalUnits <$> academicYears b')
    + sumZ ((fun m => Js.orFour (st_mcs m))
              <$> filter (fun m => st_type m = exempted) (stagedModules b')).
Proof.
  intros b' Hunique. rewrite progression_total_unique by done.
  unfold boardCredits. f_equal. subst b'.
  unfold processGeneratedPlan. cbv zeta. cbn [academicYears].
  rewrite !fmap_cons, !planModules_cons, !fmap_app, !sumZ_app.
  rewrite !convertYear_credits. unfold sumZ. cbn [foldr]. simpl. lia.
Qed.

(** The units shown in the header of a year count four for each module of a
    semester that is not an exchange semester. *)
Lemma yearTotalUnits_count year :
  (∀ s, s ∈ y_semesters year → s_isExchange s = false) →
  (∀ s m, s ∈ y_semesters year → m ∈ s_modules s → unitsOrFour m = 4) →
  yearTotalUnits year = sumZ (unitsOrFour <$> (y_semesters year ≫= s_modules)).
Proof.
  unfold yearTotalUnits. generalize (y_semesters year). intros ss Hex Hfour.
  assert (∀ a, foldl (fun acc sem =>
                        acc + (if s_isExchange sem then 0
                               else Z.of_nat (length (s_modules sem)) * 4)) a ss
               = a + sumZ (unitsOrFour <$> (ss ≫= s_modules))) as H;
    [|rewrite H; lia].
  induction ss as [|s ss IH]; intros a; [unfold sumZ; simpl; lia|].
  cbn [foldl]. rewrite IH.
  - rewrite bind_cons, fmap_app, sumZ_app, (Hex s) by by left.
    assert (sumZ (unitsOrFour <$> s_modules s)
            = Z.of_nat (length (s_modules s)) * 4) as ->; [|lia].
    assert (∀ m, m ∈ s_modules s → unitsOrFour m = 4) as Hs
      by (intros m; apply Hfour; by left).
    induction (s_modules s) as [|m ms IHm]; [done|].
    rewrite fmap_cons. unfold sumZ in *. cbn [foldr length].
    rewrite IHm by (intros; apply Hs; by right).
    rewrite (Hs m) by by left. lia.
  - intros s' Hs'. apply Hex. by right.
  - intros s' m Hs'. apply Hfour. by right.
Qed.

(** X23.  When no code is held twice, no semester is an exchange semester
    and every placed module counts four credits, the units shown in the
    headers of the years and the credits of the exempted modules add up to
    the total of the progress statistics. *)
Theorem yearTotalUnits_progress ays staged cy cs :
  NoDup (planCodes ays ++ stagedCodes staged) →
  (∀ s, s ∈ planSemesters ays → s_isExchange s = false) →
  (∀ m, m ∈ planModules ays → unitsOrFour m = 4) →
  total (progressionStats ays staged cy cs)
  = sumZ (yearTotalUnits <$> ays)
    + sumZ ((fun m => Js.orFour (st_mcs m))
              <$> filter (fun m => st_type m = exempted) staged).
Proof.
  intros Hnd Hex Hfour. rewrite progression_total_unique by done.
  unfold boardCredits. f_equal. clear Hnd.
  induction ays as [|y ays IH]; [done|].
  rewrite planModules_cons, !fmap_cons, fmap_app, sumZ_app.
  rewrite IH.
  - rewrite yearTotalUnits_count; [unfold sumZ; cbn [foldr]; lia| |].
    + intros s Hs. apply Hex. unfold planSemesters. rewrite bind_cons.
      apply elem_of_app. by left.
    + intros s m Hs Hm. apply Hfour. rewrite planModules_cons.
      apply elem_of_app. left. apply list_elem_of_bind. eauto.
  - intros s Hs. apply Hex. unfold planSemesters. rewrite bind_cons.
    apply elem_of_app. by right.
  - intros m Hm. apply Hfour. rewrite planModules_cons.
    apply elem_of_app. by right.
Qed.

Lemma generated_plan_total_witness :
  total (progressionStats
           (academicYears (processGeneratedPlan initialBoard "AY24/25" generatedExample))
           (stagedModules (processGeneratedPlan initialBoard "AY24/25" generatedExample))
           1 2)
  = 14.
Proof.
  rewrite (generated_plan_total initialBoard "AY24/25" generatedExample 1 2).
  - vm_compute. reflexivity.
  - apply NoDup_holds. vm_compute. reflexivity.
Defined.

Lemma yearTotalUnits_progress_witness :
  total (progressionStats [yearInOrder] [mkStaged "2" "MA1301" exempted 4] 1 2)
  = 12.
Proof.
  rewrite (yearTotalUnits_progress [yearInOrder] [mkStaged "2" "MA1301" exempted 4] 1 2).
  - vm_compute. reflexivity.
  - apply NoDup_holds. vm_compute. reflexivity.
  - intros s Hs. vm_compute in Hs.
    repeat (apply elem_of_cons in Hs as [->|Hs]; [reflexivity|]).
    by apply elem_of_nil in Hs.
  - intros m Hm. vm_compute in Hm.
    repeat (apply elem_of_cons in Hm as [->|Hm]; [reflexivity|]).
    by apply elem_of_nil in Hm.
Defined.

(** ** The vocabulary of the specification and the component *)

Lemma slotOrder_semOrder y s : semOrder y s = slotOrder y s.
Proof. reflexivity. Qed.

Lemma placedBefore_earlier ays o c : placedBefore ays o c ↔ placedEarlier ays o c.
Proof.
  unfold placedBefore, placedEarlier. split.
  - intros (y & s & m & ? & ? & ? & ? & ?). exists y, s, m.
    rewrite <-slotOrder_semOrder. done.
  - intros (y & s & m & ? & ? & ? & ? & ?). exists y, s, m.
    rewrite slotOrder_semOrder. done.
Qed.

Lemma stagedCodes_exempted staged c : c ∈ stagedCodes staged ↔ isExempted staged c.
Proof.
  unfold stagedCodes, isExempted. rewrite list_elem_of_fmap. naive_solver.
Qed.

Lemma allTakenModules_available ays staged cy cs c :
  c ∈ allTakenModules ays staged cy cs ↔ availableAt ays staged (cy * 10 + cs) c.
Proof.
  rewrite elem_of_allTakenModules, placedBefore_earlier, stagedCodes_exempted.
  done.
Qed.

Lemma completedBefore_available ays staged o c :
  c ∈ completedBefore ays staged o ↔ availableAt ays staged o c.
Proof.
  rewrite elem_of_completedBefore, placedBefore_earlier, stagedCodes_exempted.
  done.
Qed.

Lemma creditOf_unitsOrFour m : unitsOrFour m = creditOf m.
Proof. unfold unitsOrFour, creditOf, Js.orFour. by destruct (m_units m). Qed.

(** *** Strings *)

Lemma append_assoc (a b c : string) : (a +:+ b) +:+ c = a +:+ b +:+ c.
Proof.
  induction a as [|x a IH]; [done|].
  change (String x ((a +:+ b) +:+ c) = String x (a +:+ b +:+ c)). by rewrite IH.
Qed.

Lemma length_append (a b : string) :
  String.length (a +:+ b) = (String.length a + String.length b)%nat.
Proof.
  induction a as [|x a IH]; [done|].
  change (S (String.length (a +:+ b)) = S (String.length a + String.length b)).
  by rewrite IH.
Qed.

Lemma substring_all s : String.substring 0 (String.length s) s = s.
Proof. induction s as [|c s IH]; [done|]. simpl. by rewrite IH. Qed.

Lemma substring_split n a b s :
  String.substring n (a + b) s
  = String.substring n a s +:+ String.substring (n + a) b s.
Proof.
  revert n a. induction s as [|c s IH]; intros n a.
  - destruct n, a, b; reflexivity.
  - destruct n as [|n].
    + destruct a as [|a]; [reflexivity|].
      cbn [String.substring Nat.add].
      change (String c (String.substring 0 (a + b) s)
              = String c (String.substring 0 a s +:+ String.substring (0 + a) b s)).
      by rewrite IH.
    + cbn [String.substring Nat.add]. apply IH.
Qed.

Lemma substring_app_l (a x : string) :
  String.substring 0 (String.length a) (a +:+ x) = a.
Proof.
  induction a as [|c a IH]; [destruct x; reflexivity|].
  change (String c (String.substring 0 (String.length a) (a +:+ x)) = String c a).
  by rewrite IH.
Qed.

Lemma substring_app_r (a x : string) m :
  String.substring (String.length a) m (a +:+ x) = String.substring 0 m x.
Proof. induction a as [|c a IH]; [done|]. exact IH. Qed.

Lemma prefix_append p s :
  String.prefix p s = true ↔ ∃ rest, s = p +:+ rest.
Proof.
  rewrite String.prefix_correct. split.
  - intros Hp. exists (String.substring (String.length p)
                         (String.length s - String.length p) s).
    assert (String.length p ≤ String.length s)%nat as Hle.
    { apply (f_equal String.length) in Hp. rewrite substring_length in Hp. lia. }
    pose proof (substring_split 0 (String.length p)
                  (String.length s - String.length p) s) as Hsplit.
    replace (String.length p + (String.length s - String.length p))%nat
      with (String.length s) in Hsplit by lia.
    rewrite substring_all, Hp in Hsplit. exact Hsplit.
  - intros [rest ->]. apply substring_app_l.
Qed.

Lemma every_app p (a b : string) :
  Js.every p (a +:+ b) = Js.every p a && Js.every p b.
Proof.
  induction a as [|c a IH]; [done|].
  change (p c && Js.every p (a +:+ b) = p c && Js.every p a && Js.every p b).
  rewrite IH. by destruct (p c).
Qed.

Lemma every_capital s : Js.every Js.isUpper s = true ↔ allOf isCapital s.
Proof.
  induction s as [|c s IH]; [done|]. simpl.
  rewrite andb_true_iff, IH. unfold Js.isUpper, isCapital. cbv zeta.
  rewrite andb_true_iff, !Nat.leb_le. done.
Qed.

Lemma every_decimal s : Js.every Js.isDigit s = true ↔ allOf isDecimal s.
Proof.
  induction s as [|c s IH]; [done|]. simpl.
  rewrite andb_true_iff, IH. unfold Js.isDigit, isDecimal. cbv zeta.
  rewrite andb_true_iff, !Nat.leb_le. done.
Qed.

(** *** Base codes *)

Lemma matchBaseWith_Some n code b :
  matchBaseWith n code = Some b
  ↔ String.length (String.substring 0 n code) = n
    ∧ Js.every Js.isUpper (String.substring 0 n code) = true
    ∧ String.length (String.substring n 4 code) = 4%nat
    ∧ Js.every Js.isDigit (String.substring n 4 code) = true
    ∧ b = String.substring 0 (n + 4) code.
Proof.
  unfold matchBaseWith. cbv zeta. split.
  - destruct (_ && _) eqn:Hc; [|done]. intros [= <-].
    repeat (apply andb_true_iff in Hc as [Hc ?]).
    apply Nat.eqb_eq in Hc.
    match goal with H : (_ =? 4)%nat = true |- _ => apply Nat.eqb_eq in H end.
    done.
  - intros (H1 & H2 & H3 & H4 & ->).
    by rewrite H1, H2, H3, H4, !Nat.eqb_refl.
Qed.

Lemma matchBaseWith_decompose n code b :
  matchBaseWith n code = Some b →
  ∃ letters digits rest,
    code = letters +:+ digits +:+ rest ∧ b = letters +:+ digits
    ∧ String.length letters = n ∧ allOf isCapital letters
    ∧ String.length digits = 4%nat ∧ allOf isDecimal digits.
Proof.
  intros (Hl & Hu & Hd & Hg & ->)%matchBaseWith_Some.
  exists (String.substring 0 n code), (String.substring n 4 code),
    (String.substring (n + 4) (String.length code - (n + 4)) code).
  rewrite substring_length in Hd.
  split; [|split; [|split; [|split; [|split]]]].
  - rewrite <-(substring_split n), <-(substring_split 0).
    replace (n + (4 + _))%nat with (String.length code) by lia.
    by rewrite substring_all.
  - apply (substring_split 0).
  - done.
  - by apply every_capital.
  - rewrite substring_length. lia.
  - by apply every_decimal.
Qed.

Lemma matchBaseWith_compose letters digits rest :
  allOf isCapital letters → String.length digits = 4%nat →
  allOf isDecimal digits →
  matchBaseWith (String.length letters) (letters +:+ digits +:+ rest)
  = Some (letters +:+ digits).
Proof.
  intros Hu Hd Hg. apply matchBaseWith_Some.
  assert (String.substring (String.length letters) 4 (letters +:+ digits +:+ rest)
          = digits) as Hdig.
  { rewrite substring_app_r, <-Hd. apply substring_app_l. }
  rewrite substring_app_l, Hdig.
  split; [done|]. split; [by apply every_capital|]. split; [done|].
  split; [by apply every_decimal|].
  rewrite <-append_assoc, <-Hd, <-length_append. symmetry. apply substring_app_l.
Qed.

Lemma capital_not_decimal c : Js.isUpper c = true → Js.isDigit c = true → False.
Proof.
  unfold Js.isUpper, Js.isDigit. cbv zeta.
  rewrite !andb_true_iff, !Nat.leb_le. lia.
Qed.

Lemma every_one p s :
  String.length s = 1%nat → Js.every p s = true → ∃ c, s = String c "" ∧ p c = true.
Proof.
  destruct s as [|c [|d s]]; try done. simpl. rewrite andb_true_r. eauto.
Qed.

Lemma matchBaseWith_unique n n' code b b' :
  matchBaseWith n code = Some b → matchBaseWith n' code = Some b' →
  (n < n')%nat → False.
Proof.
  intros (Hl & _ & Hd & Hg & _)%matchBaseWith_Some
         (Hl' & Hu' & _ & _ & _)%matchBaseWith_Some Hlt.
  rewrite substring_length in Hl', Hd.
  replace 4%nat with (1 + 3)%nat in Hg by done.
  rewrite substring_split, every_app in Hg. apply andb_true_iff in Hg as [Hg _].
  replace n' with (n + (1 + (n' - n - 1)))%nat in Hu' by lia.
  rewrite (substring_split 0), every_app in Hu'.
  apply andb_true_iff in Hu' as [_ Hu'].
  rewrite substring_split, every_app in Hu'. apply andb_true_iff in Hu' as [Hu' _].
  simpl in Hu'.
  destruct (every_one Js.isDigit (String.substring n 1 code))
    as (c & Hc & Hdc); [rewrite substring_length; lia|done|].
  rewrite Hc in Hu'. simpl in Hu'. rewrite andb_true_r in Hu'.
  by eapply capital_not_decimal.
Qed.

Lemma hasBase_matchBaseWith code b :
  hasBase code b
  ↔ ∃ n, (2 ≤ n ≤ 4)%nat ∧ matchBaseWith n code = Some b.
Proof.
  split.
  - intros (letters & digits & rest & -> & -> & Hn & Hu & Hd & Hg).
    exists (String.length letters). split; [done|].
    by apply matchBaseWith_compose.
  - intros (n & Hn & (letters & digits & rest & ? & ? & Hl & ?)%matchBaseWith_decompose).
    exists letters, digits, rest. rewrite Hl. done.
Qed.

Lemma matchBase_hasBase code b : matchBase code = Some b ↔ hasBase code b.
Proof.
  rewrite hasBase_matchBaseWith. unfold matchBase. split.
  - destruct (matchBaseWith 4 code) as [b4|] eqn:H4.
    { intros [= <-]. exists 4%nat. split; [lia|done]. }
    destruct (matchBaseWith 3 code) as [b3|] eqn:H3.
    { intros [= <-]. exists 3%nat. split; [lia|done]. }
    intros H2. exists 2%nat. split; [lia|done].
  - intros (n & Hn & Hb).
    assert (n = 2 ∨ n = 3 ∨ n = 4)%nat as [->|[->| ->]] by lia.
    + destruct (matchBaseWith 4 code) as [b4|] eqn:H4.
      { destruct (matchBaseWith_unique 2 4 code b b4); (done || lia). }
      destruct (matchBaseWith 3 code) as [b3|] eqn:H3.
      { destruct (matchBaseWith_unique 2 3 code b b3); (done || lia). }
      done.
    + destruct (matchBaseWith 4 code) as [b4|] eqn:H4.
      { destruct (matchBaseWith_unique 3 4 code b b4); (done || lia). }
      by rewrite Hb.
    + by rewrite Hb.
Qed.

Lemma getBaseCode_spec code b : getBaseCode code = b ↔ baseCodeOf code b.
Proof.
  unfold getBaseCode, baseCodeOf. split.
  - destruct (matchBase code) as [b0|] eqn:Hm.
    + intros <-. left. by apply matchBase_hasBase.
    + intros <-. right. split; [|done]. intros b' Hb'%matchBase_hasBase.
      by rewrite Hm in Hb'.
  - intros [Hb%matchBase_hasBase|[Hnone ->]]; [by rewrite Hb|].
    destruct (matchBase code) as [b0|] eqn:Hm; [|done].
    by destruct (Hnone b0); apply matchBase_hasBase.
Qed.

Lemma sameBase_getBaseCode c pattern :
  getBaseCode c = getBaseCode pattern ↔ sameBase c pattern.
Proof.
  unfold sameBase. split.
  - intros Heq. exists (getBaseCode c). split; apply getBaseCode_spec; done.
  - intros (b & <-%getBaseCode_spec & Hp%getBaseCode_spec). done.
Qed.

Lemma wildcardMatch_spec c pattern :
  Js.endsWith pattern "%" = true
  ∧ Js.startsWith c (Js.sliceInit pattern) = true
  ↔ wildcardMatch c pattern.
Proof.
  unfold Js.endsWith, Js.startsWith, Js.sliceInit, wildcardMatch. cbv zeta.
  rewrite andb_true_iff, Nat.leb_le, String.eqb_eq, prefix_append. simpl.
  split.
  - intros [[Hlen Hend] [rest Hc]].
    exists (String.substring 0 (String.length pattern - 1) pattern), rest.
    split; [|done]. rewrite <-Hend, <-(substring_split 0).
    replace (_ + 1)%nat with (String.length pattern) by lia.
    by rewrite substring_all.
  - intros (prefix & rest & -> & ->). rewrite length_append. simpl.
    replace (String.length prefix + 1 - 1)%nat with (String.length prefix) by lia.
    rewrite substring_app_r, substring_app_l. split; [split; [lia|done]|eauto].
Qed.

Lemma slotConsumes_spec pattern c :
  slotConsumes pattern c = true ↔ matchesSlot pattern c.
Proof.
  unfold slotConsumes, matchesSlot.
  rewrite orb_true_iff, String.eqb_eq, andb_true_iff.
  by rewrite sameBase_getBaseCode, wildcardMatch_spec.
Qed.

(** ** The validator on answers as they arrive *)

Lemma checkModuleRaw_typed cat completed semNum v md :
  checkModuleRaw cat completed semNum v md
  = checkModule (typedView cat) completed semNum v md.
Proof.
  unfold checkModuleRaw, checkModule. destruct (m_fluff md); [done|].
  cbv zeta. cbn [typedView checkPrerequisites checkModuleOffered]. f_equal.
  - destruct (rawCheckPrerequisites cat _ _) as [[sat mis]|]; [|done].
    cbn [raw_satisfied raw_missing]. destruct (truthy sat); [done|].
    by destruct mis.
  - by destruct (rawCheckModuleOffered cat _ _) as [[off]|].
Qed.

Lemma checkAllConstraintsRaw_typed cat ays staged :
  checkAllConstraintsRaw cat ays staged
  = checkAllConstraints (typedView cat) ays staged.
Proof.
  unfold checkAllConstraintsRaw, checkAllConstraints.
  apply foldl_ext_elem. intros v y. apply foldl_ext_elem. intros v' s.
  unfold checkSemesterRaw, checkSemester. cbv zeta.
  apply foldl_ext_elem. intros v'' m. apply checkModuleRaw_typed.
Qed.

Lemma checkAllConstraints_asRaw cat ays staged :
  checkAllConstraintsRaw (asRaw cat) ays staged = checkAllConstraints cat ays staged.
Proof.
  unfold checkAllConstraintsRaw, checkAllConstraints.
  apply foldl_ext_elem. intros v y. apply foldl_ext_elem. intros v' s.
  unfold checkSemesterRaw, checkSemester. cbv zeta.
  apply foldl_ext_elem. intros v'' m.
  unfold checkModuleRaw, checkModule. destruct (m_fluff m); [done|].
  cbv zeta. cbn [asRaw rawCheckPrerequisites rawCheckModuleOffered]. f_equal.
  - destruct (checkPrerequisites cat _ _) as [[sat mis]|]; [|done]. simpl.
    by destruct sat.
  - by destruct (checkModuleOffered cat _ _) as [[[|]]|].
Qed.

(** C1.  When the codes of the plan are distinct, a module that is not
    flagged fluff and sits in a semester of order
    [o = year * 10 + semesterNumber] has its prerequisites looked up against
    a list whose members are exactly the codes placed in semesters of order
    strictly below [o] and the codes of the exempted modules; when the
    answer is "not satisfied" the codes recorded for the module are the
    missing codes of the answer, and when it is "satisfied" nothing is
    recorded.  A module placed in the same semester that is not exempted is
    not among the available codes. *)
Theorem validator_prerequisites cat ays staged y s m :
  NoDup (planCodes ays) →
  y ∈ ays → s ∈ y_semesters y → m ∈ s_modules s → m_fluff m = false →
  let o := y_year y * 10 + semesterNumber s in
  let available := completedBefore ays staged o in
  let recorded :=
    prereqViolations (checkAllConstraints cat ays staged) !! m_code m in
  (∀ c, c ∈ available
        ↔ (∃ y' s' m', y' ∈ ays ∧ s' ∈ y_semesters y' ∧ m' ∈ s_modules s'
                       ∧ m_code m' = c
                       ∧ y_year y' * 10 + semesterNumber s' < o)
          ∨ (∃ e, e ∈ staged ∧ st_code e = c))
  ∧ (∀ result,
       checkPrerequisites cat (m_code m) available = Some result →
       (satisfied result = false → default [] recorded = missing result)
       ∧ (satisfied result = true → recorded = None))
  ∧ (checkPrerequisites cat (m_code m) available = None → recorded = None)
  ∧ (∀ p, p ∈ s_modules s → (∀ e, e ∈ staged → st_code e ≠ m_code p) →
          m_code p ∉ available).
Proof.
  intros Hplan Hy Hs Hm Hfluff o available recorded.
  assert (recorded
          = prereqOutcome cat (completedBefore ays staged (semOrder y s)) m)
    as Hrec by by apply recorded_prereq.
  unfold prereqOutcome in Hrec. rewrite Hfluff in Hrec.
  change (completedBefore ays staged (semOrder y s)) with available in Hrec.
  split; [|split; [|split]].
  - intros c. apply completedBefore_available.
  - intros result Hres. rewrite Hrec, Hres.
    split; intros ->; [|done]. simpl.
    destruct (missing result) as [|c ms]; done.
  - intros Hres. by rewrite Hrec, Hres.
  - intros p Hp Hstaged [Hbefore|(e & He & Hc)]%completedBefore_available.
    + apply placedBefore_earlier in Hbefore.
      by eapply (same_semester_not_before ays y s p).
    + by eapply Hstaged.
Qed.

Lemma validator_prerequisites_witness :
  default [] (prereqViolations
                (checkAllConstraints scenarioCatalog [yearSameSemester] [])
              !! "CS2040S") = ["CS1101S"]
  ∧ "CS1101S" ∉ completedBefore [yearSameSemester] [] 11.
Proof.
  assert (NoDup (planCodes [yearSameSemester])) as Hnd.
  { apply NoDup_holds. vm_compute. reflexivity. }
  assert (yearSameSemester ∈ [yearSameSemester]) as Hy by apply list_elem_of_here.
  assert (y1s1Both ∈ y_semesters yearSameSemester) as Hs by apply list_elem_of_here.
  assert (cs2040s ∈ s_modules y1s1Both) as Hm
    by apply list_elem_of_further, list_elem_of_here.
  destruct (validator_prerequisites scenarioCatalog [yearSameSemester] []
              yearSameSemester y1s1Both cs2040s Hnd Hy Hs Hm eq_refl)
    as (_ & Hrec & _ & Hsame).
  split.
  - apply (Hrec (mkPrereq false ["CS1101S"])); reflexivity.
  - apply (Hsame cs1101s); [apply list_elem_of_here|].
    intros e He. by apply elem_of_nil in He.
Defined.

(** C9 (amended).  A lookup that fails records nothing: when every
    prerequisite lookup for a code throws, or returns a body without the
    [missing] list (reading its length throws inside the same [try]), the map
    of prerequisite violations has no entry for the code; when every
    offering lookup for a code throws, the map of offering violations has no
    entry for it.  A returned offering answer is never taken as unknown: when
    its [offered] field is false or absent, the module (codes distinct, not
    fluff) is recorded as not offered in its semester. *)
Theorem lookup_failure_fail_open cat ays staged c :
  ((∀ y s m, y ∈ ays → s ∈ y_semesters y → m ∈ s_modules s → m_code m = c →
      let lookup :=
        rawCheckPrerequisites cat c
          (completedBefore ays staged (y_year y * 10 + semesterNumber s)) in
      lookup = None ∨ ∃ r, lookup = Some r ∧ raw_missing r = None) →
   prereqViolations (checkAllConstraintsRaw cat ays staged) !! c = None)
  ∧ ((∀ y s m, y ∈ ays → s ∈ y_semesters y → m ∈ s_modules s → m_code m = c →
        rawCheckModuleOffered cat c (semesterNumber s) = None) →
     offeringViolations (checkAllConstraintsRaw cat ays staged) !! c = None)
  ∧ (NoDup (planCodes ays) →
     ∀ y s m r, y ∈ ays → s ∈ y_semesters y → m ∈ s_modules s →
       m_code m = c → m_fluff m = false →
       rawCheckModuleOffered cat c (semesterNumber s) = Some r →
       raw_offered r ≠ Some true →
       offeringViolations (checkAllConstraintsRaw cat ays staged) !! c
       = Some (if Js.includes (s_name s) "1" then "Not offered in Semester 1"
               else "Not offered in Semester 2")).
Proof.
  rewrite checkAllConstraintsRaw_typed. split; [|split].
  - intros Hfail. rewrite checkAllConstraints_tasks.
    rewrite prereq_untouched; [done|].
    intros t (y & s & Hy & Hs & Hm & Ho & _)%elem_of_tasksOf Hc.
    unfold prereqOutcome. destruct (m_fluff _); [done|].
    unfold tk_code in Hc. rewrite Hc, Ho.
    cbn [typedView checkPrerequisites].
    destruct (Hfail y s (tk_module t) Hy Hs Hm Hc) as [Hnone|(r & Hr & Hmis)].
    + change (semOrder y s) with (y_year y * 10 + semesterNumber s).
      by rewrite Hnone.
    + change (semOrder y s) with (y_year y * 10 + semesterNumber s).
      rewrite Hr, Hmis. by destruct (truthy _).
  - intros Hfail. rewrite checkAllConstraints_tasks.
    rewrite offering_untouched; [done|].
    intros t (y & s & Hy & Hs & Hm & _ & Hn)%elem_of_tasksOf Hc.
    unfold offeringOutcome. destruct (m_fluff _); [done|].
    unfold tk_code in Hc. rewrite Hc, Hn.
    cbn [typedView checkModuleOffered].
    change (semNumOf (s_name s)) with (semesterNumber s).
    by rewrite (Hfail y s (tk_module t)).
  - intros Hnd y s m r Hy Hs Hm <- Hfluff Hr Hoff.
    rewrite (recorded_offering (typedView cat) ays staged y s m) by done.
    unfold offeringOutcome. rewrite Hfluff.
    cbn [typedView checkModuleOffered].
    change (semNumOf (s_name s)) with (semesterNumber s). rewrite Hr.
    cbn [fmap option_fmap option_map offered].
    assert (truthy (raw_offered r) = false) as ->.
    { destruct (raw_offered r) as [[|]|]; done. }
    simpl. unfold semesterNumber. by destruct (Js.includes (s_name s) "1").
Qed.

Lemma lookup_failure_fail_open_witness :
  prereqViolations (checkAllConstraintsRaw throwingCatalog [yearSameSemester] [])
  !! "CS2040S" = None
  ∧ offeringViolations (checkAllConstraintsRaw throwingCatalog [yearSameSemester] [])
    !! "CS2040S" = None
  ∧ prereqViolations (checkAllConstraintsRaw unknownCatalog [yearSameSemester] [])
    !! "CS2040S" = None
  ∧ offeringViolations (checkAllConstraintsRaw unknownCatalog [yearInOrder] [])
    !! "CS2040S" = Some "Not offered in Semester 2".
Proof.
  destruct (lookup_failure_fail_open throwingCatalog [yearSameSemester] []
              "CS2040S") as (Hp & Ho & _).
  destruct (lookup_failure_fail_open unknownCatalog [yearSameSemester] []
              "CS2040S") as (Hp' & _ & _).
  destruct (lookup_failure_fail_open unknownCatalog [yearInOrder] []
              "CS2040S") as (_ & _ & Hrec).
  split; [|split; [|split]].
  - apply Hp. intros. by left.
  - apply Ho. intros. reflexivity.
  - apply Hp'. intros. right. by eexists.
  - apply (Hrec ltac:(apply NoDup_holds; vm_compute; reflexivity)
             yearInOrder (mkSemester 2 "Semester 2" 4 [cs2040s] false) cs2040s
             (mkRawOffered None)).
    + apply list_elem_of_here.
    + apply list_elem_of_further, list_elem_of_here.
    + apply list_elem_of_here.
    + reflexivity.
    + reflexivity.
    + reflexivity.
    + discriminate.
Defined.

(** C9 as stated fails: when the offering lookup returns an unknown-code
    result, the module is recorded as not offered. *)
Lemma unknown_answer_recorded : ¬ failOpenOnUnknown unknownCatalog [yearInOrder] [].
Proof.
  intros Hopen.
  assert (offeringViolations (checkAllConstraintsRaw unknownCatalog [yearInOrder] [])
          !! "CS2040S" = None) as Hnone.
  { apply Hopen. intros y s m _ _ _ _. right. by eexists. }
  vm_compute in Hnone. discriminate Hnone.
Qed.

(** ** The matcher and the specification *)

(** C2 (amended).  For a pattern that ends in [%] or does not start with
    [UE], the matcher reports the slot fulfilled exactly when some code that
    is placed in a semester of order strictly below the order
    [currentYear * 10 + currentSemester] of the pointer, or that is the code
    of an exempted module, has the same base code as the pattern (its
    beginning of two to four capital letters and four digits, the code
    itself when it has no such beginning), or the pattern is a prefix
    followed by [%] and the code starts with that prefix. *)
Theorem checkRequirement_taken ays staged cy cs reqCode :
  Js.startsWith reqCode "UE" = false ∨ Js.endsWith reqCode "%" = true →
  checkRequirement ays staged cy cs reqCode = true
  ↔ ∃ c,
      ((∃ y s m, y ∈ ays ∧ s ∈ y_semesters y ∧ m ∈ s_modules s ∧ m_code m = c
                 ∧ y_year y * 10 + semesterNumber s < cy * 10 + cs)
       ∨ (∃ e, e ∈ staged ∧ st_code e = c))
      ∧ (sameBase c reqCode ∨ wildcardMatch c reqCode).
Proof.
  intros Hshape. unfold checkRequirement.
  rewrite checkRequirementIn_pattern by done.
  split; intros (c & Hc & Hm); exists c.
  - apply allTakenModules_available in Hc.
    by rewrite <-sameBase_getBaseCode, <-wildcardMatch_spec.
  - split; [by apply allTakenModules_available|].
    by rewrite sameBase_getBaseCode, wildcardMatch_spec.
Qed.

Lemma checkRequirement_taken_witness :
  checkRequirement planWithGEC [mkStaged "9" "CS2040" exempted 4] 1 2 "CS2040S"
  = true
  ∧ checkRequirement planWithGEC [] 1 2 "GEC%" = true.
Proof.
  split.
  - apply (checkRequirement_taken planWithGEC [mkStaged "9" "CS2040" exempted 4]
             1 2 "CS2040S"); [by left|].
    exists "CS2040". split.
    + right. eexists. split; [apply list_elem_of_here|done].
    + left. exists "CS2040". split; left.
      * exists "CS", "2040", "". unfold isCapital, isDecimal. simpl.
        split_and!; try done; vm_compute; lia.
      * exists "CS", "2040", "S". unfold isCapital, isDecimal. simpl.
        split_and!; try done; vm_compute; lia.
  - apply (checkRequirement_taken planWithGEC [] 1 2 "GEC%"); [by right|].
    exists "GEC1021". split.
    + left. eexists _, _, _. split; [apply list_elem_of_here|].
      split; [apply list_elem_of_here|]. split; [apply list_elem_of_here|].
      split; [reflexivity|]. vm_compute. reflexivity.
    + right. exists "GEC", "1021". done.
Defined.

(** ** Unrestricted electives *)

Lemma isConsumed_spec c : isConsumed REQUIREMENTS c = true ↔ consumedByOther c.
Proof.
  unfold isConsumed, consumedByOther. rewrite existsb_elem_of.
  by setoid_rewrite slotConsumes_spec.
Qed.

Lemma ueSlot_not_consumed slot :
  slot ∈ ueSlots → isConsumed REQUIREMENTS slot = false.
Proof.
  intros Hslot. vm_compute in Hslot.
  repeat (apply elem_of_cons in Hslot as [->|Hslot]; [by vm_compute|]).
  by apply elem_of_nil in Hslot.
Qed.

Lemma unconsumed_members ays staged cy cs c :
  c ∈ filter (fun c => isConsumed REQUIREMENTS c = false)
             (allTakenModules ays staged cy cs)
  ↔ unconsumedTaken ays staged (cy * 10 + cs) c.
Proof.
  rewrite list_elem_of_filter, allTakenModules_available.
  unfold unconsumedTaken. rewrite <-isConsumed_spec.
  destruct (isConsumed REQUIREMENTS c); naive_solver.
Qed.

Lemma unconsumed_length ays staged cy cs (U : list string) :
  NoDup U →
  (∀ c, c ∈ U ↔ unconsumedTaken ays staged (cy * 10 + cs) c) →
  length U = unconsumedCount ays staged cy cs.
Proof.
  intros Hnd HU. unfold unconsumedCount. apply Permutation_length.
  apply NoDup_Permutation; [done|apply NoDup_filter, NoDup_newSet|].
  intros c. by rewrite HU, unconsumed_members.
Qed.

Lemma ueSlot_fulfilled_iff ays staged cy cs (U : list string) i slot :
  NoDup U →
  (∀ c, c ∈ U ↔ unconsumedTaken ays staged (cy * 10 + cs) c) →
  ueSlots !! i = Some slot →
  checkRequirement ays staged cy cs slot = true ↔ (i < length U)%nat ∨ slot ∈ U.
Proof.
  intros Hnd HU Hi.
  pose proof (unconsumed_length ays staged cy cs U Hnd HU) as Hlen.
  destruct (ueSlots_shape i slot Hi) as (Hb & Hshort & Hend & Hstart & Hparse).
  destruct (decide (slot ∈ allTakenModules ays staged cy cs)) as [Hin|Hnot].
  - split; intros _.
    + right. apply HU, unconsumed_members, list_elem_of_filter. split; [|done].
      apply ueSlot_not_consumed. by eapply list_elem_of_lookup_2.
    + unfold checkRequirement, checkRequirementIn. cbv zeta.
      assert (existsb (fun takenCode =>
                         String.eqb (getBaseCode takenCode) (getBaseCode slot))
                      (allTakenModules ays staged cy cs) = true) as ->; [|done].
      apply existsb_elem_of. exists slot. split; [done|]. apply String.eqb_refl.
  - unfold checkRequirement.
    rewrite (checkRequirementIn_ue _ _ _ _ Hb Hshort Hend Hstart Hparse Hnot).
    fold (unconsumedCount ays staged cy cs). rewrite <-Hlen, Z.ltb_lt.
    split; [intros; left; lia|].
    intros [?|Hslot]; [lia|].
    apply HU, unconsumed_members, list_elem_of_filter in Hslot as [_ Hslot]. done.
Qed.

(** C3 (amended).  Let [U] be the codes that are placed in a semester of
    order strictly below the order of the pointer, or exempted, and that no
    slot outside the unrestricted electives matches, [N] their number and
    [M] the number of unrestricted-elective slots.  The slot at position [i]
    (counted from zero) is reported fulfilled exactly when [i < N] or the
    label of the slot is itself one of these codes.  When no label is one of
    them, the slots fulfilled are exactly those at the positions below
    [min N M], so [min N M] slots are fulfilled, and two boards with the same
    [N] get the same answer on every slot, whatever their codes are. *)
Theorem ue_overflow_allocation ays staged cy cs (U : list string) :
  NoDup U →
  (∀ c, c ∈ U
        ↔ ((∃ y s m, y ∈ ays ∧ s ∈ y_semesters y ∧ m ∈ s_modules s
                     ∧ m_code m = c
                     ∧ y_year y * 10 + semesterNumber s < cy * 10 + cs)
           ∨ (∃ e, e ∈ staged ∧ st_code e = c))
          ∧ ¬ consumedByOther c) →
  let N := length U in
  let M := length ueSlots in
  (∀ i slot, ueSlots !! i = Some slot →
     checkRequirement ays staged cy cs slot = true ↔ (i < N)%nat ∨ slot ∈ U)
  ∧ ((∀ slot, slot ∈ ueSlots → slot ∉ U) →
     (∀ i slot, ueSlots !! i = Some slot →
        checkRequirement ays staged cy cs slot = bool_decide (i < N `min` M)%nat)
     ∧ length (filter (fun slot => checkRequirement ays staged cy cs slot = true)
                      ueSlots) = (N `min` M)%nat
     ∧ (∀ ays' staged' cy' cs' (U' : list string),
          NoDup U' →
          (∀ c, c ∈ U' ↔ unconsumedTaken ays' staged' (cy' * 10 + cs') c) →
          (∀ slot, slot ∈ ueSlots → slot ∉ U') →
          length U' = N →
          ∀ slot, slot ∈ ueSlots →
            checkRequirement ays' staged' cy' cs' slot
            = checkRequirement ays staged cy cs slot)).
Proof.
  intros Hnd HU N M.
  assert (∀ ays staged cy cs (U : list string) i slot,
            NoDup U →
            (∀ c, c ∈ U ↔ unconsumedTaken ays staged (cy * 10 + cs) c) →
            (∀ slot, slot ∈ ueSlots → slot ∉ U) →
            ueSlots !! i = Some slot →
            checkRequirement ays staged cy cs slot
            = bool_decide (i < length U)%nat) as Hslot.
  { clear. intros ays staged cy cs U i slot Hnd HU Hwf Hi.
    pose proof (ueSlot_fulfilled_iff ays staged cy cs U i slot Hnd HU Hi) as Hiff.
    assert (slot ∉ U) as Hnot by (apply Hwf; by eapply list_elem_of_lookup_2).
    destruct (checkRequirement ays staged cy cs slot); symmetry.
    - apply bool_decide_eq_true. destruct (proj1 Hiff eq_refl); done.
    - apply bool_decide_eq_false. intros Hlt.
      by pose proof (proj2 Hiff (or_introl Hlt)). }
  split.
  - intros i slot Hi. by apply ueSlot_fulfilled_iff.
  - intros Hwf. split; [|split].
    + intros i slot Hi. rewrite (Hslot ays staged cy cs U i) by done.
      apply lookup_lt_Some in Hi. apply bool_decide_ext. fold N M in Hi |- *. lia.
    + apply count_prefix_true. intros i slot Hi. by apply (Hslot ays staged cy cs U).
    + intros ays' staged' cy' cs' U' Hnd' HU' Hwf' HN slot
             (i & Hi)%list_elem_of_lookup_1.
      rewrite (Hslot ays' staged' cy' cs' U' i), (Hslot ays staged cy cs U i)
        by done.
      by rewrite HN.
Qed.

Lemma not_consumed c : isConsumed REQUIREMENTS c = false → ¬ consumedByOther c.
Proof. intros Hc Hcons%isConsumed_spec. by rewrite Hc in Hcons. Qed.

Lemma ue_overflow_allocation_witness :
  let ays := planWithGEC in
  let staged := [mkStaged "1" "LAJ1201" exempted 4; mkStaged "2" "MA1301" exempted 4;
                 mkStaged "3" "PC1101" exempted 4] in
  length (filter (fun slot => checkRequirement ays staged 1 2 slot = true)
                 ueSlots) = 3%nat
  ∧ checkRequirement ays staged 1 2 "UE 3" = true
  ∧ checkRequirement ays staged 1 2 "UE 4" = false.
Proof.
  intros ays staged.
  assert (∀ c, c ∈ ["LAJ1201"; "MA1301"; "PC1101"]
               ↔ ((∃ y s m, y ∈ ays ∧ s ∈ y_semesters y ∧ m ∈ s_modules s
                            ∧ m_code m = c
                            ∧ y_year y * 10 + semesterNumber s < 1 * 10 + 2)
                  ∨ (∃ e, e ∈ staged ∧ st_code e = c))
                 ∧ ¬ consumedByOther c) as HU.
  { intros c. split.
    - intros Hc. split.
      + right. apply stagedCodes_exempted. exact Hc.
      + apply not_consumed.
        repeat (apply elem_of_cons in Hc as [->|Hc]; [by vm_compute|]).
        by apply elem_of_nil in Hc.
    - intros [[(y & s & m & Hy & Hs & Hm & <- & _)|He] Hfree].
      + destruct Hfree. apply isConsumed_spec.
        apply list_elem_of_singleton in Hy as ->. vm_compute in Hs.
        apply elem_of_cons in Hs as [->|Hs].
        * apply list_elem_of_singleton in Hm as ->. by vm_compute.
        * apply list_elem_of_singleton in Hs as ->. by apply elem_of_nil in Hm.
      + by apply stagedCodes_exempted in He. }
  assert (NoDup ["LAJ1201"; "MA1301"; "PC1101"]) as Hnd
    by (apply NoDup_holds; vm_compute; reflexivity).
  assert (∀ slot, slot ∈ ueSlots → slot ∉ ["LAJ1201"; "MA1301"; "PC1101"]) as Hwf.
  { intros slot Hslot Hin. vm_compute in Hslot.
    repeat (apply elem_of_cons in Hin as [->|Hin];
            [repeat (apply elem_of_cons in Hslot as [Hslot|Hslot];
                     [discriminate Hslot|]); by apply elem_of_nil in Hslot|]).
    by apply elem_of_nil in Hin. }
  destruct (ue_overflow_allocation ays staged 1 2 _ Hnd HU) as [_ Hcount].
  destruct (Hcount Hwf) as (Hpos & Hlen & _).
  split; [exact Hlen|]. split.
  - exact (Hpos 2%nat "UE 3" eq_refl).
  - exact (Hpos 3%nat "UE 4" eq_refl).
Defined.

(** C3 as stated fails: with three codes that no other slot matches placed
    in the current semester (year 1, semester 1), the plan has three
    unconsumed codes, yet no unrestricted-elective slot is reported
    fulfilled. *)
Lemma ue_overflow_not_whole_plan :
  let '(cy, cs) := parseCurrentSemester "Y1S1" in
  ¬ overflowOverPlan planThreeElectives [] cy cs.
Proof.
  simpl. intros Hall.
  specialize (Hall ["LAJ1201"; "PC1101"; "MA1301"]).
  assert (length (filter (fun slot =>
                            checkRequirement planThreeElectives [] 1 1 slot = true)
                         ueSlots) = 3%nat) as Hthree.
  { apply Hall; [apply NoDup_holds; vm_compute; reflexivity|].
    intros c. split.
    - intros Hc. split.
      + left. apply elem_of_planCodes. exact Hc.
      + apply not_consumed.
        repeat (apply elem_of_cons in Hc as [->|Hc]; [by vm_compute|]).
        by apply elem_of_nil in Hc.
    - intros [[Hplan%elem_of_planCodes|(e & He & _)] _]; [exact Hplan|].
      by apply elem_of_nil in He. }
  vm_compute in Hthree. discriminate Hthree.
Qed.

(** The codes of [U] can always be listed: the component's own list of
    unconsumed codes is one such list. *)
Lemma unconsumedTaken_listed ays staged cy cs :
  ∃ U : list string,
    NoDup U ∧ ∀ c, c ∈ U ↔ unconsumedTaken ays staged (cy * 10 + cs) c.
Proof.
  exists (filter (fun c => isConsumed REQUIREMENTS c = false)
                 (allTakenModules ays staged cy cs)).
  split; [apply NoDup_filter, NoDup_newSet|]. intros c. apply unconsumed_members.
Qed.

(** ** The progress snapshot and the specification *)

Lemma snapshotEntries_ledger ays staged cur :
  snapshotEntries ays staged cur = ledger ays staged cur.
Proof.
  unfold snapshotEntries, ledger. f_equal.
  unfold placedEntries, planLedger.
  induction ays as [|y ays IH]; [done|].
  rewrite !bind_cons, IH. f_equal.
  generalize (y_semesters y). intros ss.
  induction ss as [|s ss IHs]; [done|].
  rewrite !bind_cons, IHs. f_equal.
  apply list_fmap_ext. intros _ m _. by rewrite creditOf_unitsOrFour.
Qed.

Lemma snapshotEntries_codes ays staged cur :
  e_code <$> snapshotEntries ays staged cur
  = (st_code <$> filter (fun e => st_type e = exempted) staged) ++ planCodes ays.
Proof.
  rewrite snapshotEntries_ledger. unfold ledger.
  rewrite fmap_app, planLedger_codes. f_equal.
  unfold stagedLedger. by rewrite <-list_fmap_compose.
Qed.

Lemma creditsIn_perm b (l k : list Entry) :
  l ≡ₚ k → creditsIn b l = creditsIn b k.
Proof.
  induction 1 as [|e l k _ IH|e e' l|l k j _ IH1 _ IH2]; cbn [creditsIn];
    [done|by rewrite IH|lia|by rewrite IH1].
Qed.

Lemma sumZ_perm (l k : list Z) : l ≡ₚ k → sumZ l = sumZ k.
Proof.
  unfold sumZ.
  induction 1 as [|x l k _ IH|x x' l|l k j _ IH1 _ IH2]; cbn [foldr];
    [done|by rewrite IH|lia|by rewrite IH1].
Qed.

Lemma snapshot_sums ays staged cy cs :
  let st := progressionStats ays staged cy cs in
  let L := counted (snapshotEntries ays staged (cy * 10 + cs)) in
  completed st = creditsIn Completed L
  ∧ current st = creditsIn Current L
  ∧ planned st = creditsIn Planned L.
Proof. intros st L. subst L. rewrite snapshotEntries_ledger. apply progression_sums. Qed.

Lemma counted_distinct ays staged cur :
  NoDup ((st_code <$> filter (fun e => st_type e = exempted) staged)
         ++ planCodes ays) →
  counted (snapshotEntries ays staged cur) = snapshotEntries ays staged cur.
Proof.
  intros Hnd. unfold counted. apply countedFrom_NoDup.
  - by rewrite snapshotEntries_codes.
  - intros e _. apply not_elem_of_nil.
Qed.

Lemma placedEntries_planned ays :
  (∀ y, y ∈ ays → 0 ≤ y_year y) →
  ∀ e, e ∈ placedEntries ays 0 → e_bucket e = Planned.
Proof.
  intros Hyears e (y & He & Hy)%list_elem_of_bind.
  apply list_elem_of_bind in He as (s & He & Hs).
  apply list_elem_of_fmap in He as (m & -> & Hm). cbn [e_bucket].
  pose proof (Hyears y Hy). unfold bucketAt, semesterNumber.
  destruct (Js.includes _ _);
    rewrite (proj2 (Z.ltb_ge _ _)), (proj2 (Z.eqb_neq _ _)) by lia; done.
Qed.

(** C6.  The three totals of the progress snapshot are the credit values of
    the counted entries (the first occurrence of each code) in the buckets
    completed, current and planned, where every exempted module is an entry
    of the completed bucket and a placed module is an entry whose bucket is
    completed, current or planned as the order
    [year * 10 + semesterNumber] of its semester is below, equal to or above
    [currentYear * 10 + currentSemester]; when the codes are distinct every
    entry is counted.  The incoming pointer [Y0S0] is parsed to [(0, 0)],
    and under it (years not negative) every placed module is an entry of the
    planned bucket: the completed total is that of the exempted modules and
    the current total is 0. *)
Theorem progression_partition ays staged cy cs :
  let currentOrder := cy * 10 + cs in
  let st := progressionStats ays staged cy cs in
  let entries :=
    ((fun e => mkEntry (st_code e) (if st_mcs e =? 0 then 4 else st_mcs e)
                       Completed)
     <$> filter (fun e => st_type e = exempted) staged)
    ++ (y ← ays; s ← y_semesters y;
        (fun m =>
           let order := y_year y * 10 + semesterNumber s in
           mkEntry (m_code m) (creditOf m)
             (if order <? currentOrder then Completed
              else if order =? currentOrder then Current
              else Planned))
        <$> s_modules s) in
  (completed st = creditsIn Completed (counted entries)
   ∧ current st = creditsIn Current (counted entries)
   ∧ planned st = creditsIn Planned (counted entries))
  ∧ (NoDup (e_code <$> entries) → counted entries = entries)
  ∧ parseCurrentSemester "Y0S0" = (0, 0)
  ∧ ((∀ y, y ∈ ays → 0 ≤ y_year y) →
     let st0 := progressionStats ays staged 0 0 in
     completed st0 = creditsIn Completed (counted (exemptedEntries staged))
     ∧ current st0 = 0
     ∧ planned st0
       = creditsIn Planned (counted (snapshotEntries ays staged 0))).
Proof.
  intros currentOrder st entries.
  change entries with (snapshotEntries ays staged currentOrder).
  split; [|split; [|split]].
  - apply snapshot_sums.
  - intros Hnd. unfold counted. apply countedFrom_NoDup; [done|].
    intros e _. apply not_elem_of_nil.
  - reflexivity.
  - intros Hyears st0.
    destruct (snapshot_sums ays staged 0 0) as (Hc & Hk & Hp).
    fold st0 in Hc, Hk, Hp. rewrite Hc, Hk, Hp.
    change (0 * 10 + 0) with 0. unfold counted, snapshotEntries.
    pose proof (placedEntries_planned ays Hyears) as Hplan.
    rewrite !creditsIn_app_none by (intros e He; by rewrite (Hplan e He)).
    split; [done|]. split; [|done]. apply creditsIn_none.
    intros e (m & -> & _)%list_elem_of_fmap. done.
Qed.

Lemma progression_partition_witness :
  let staged := [mkStaged "2" "MA1301" exempted 4] in
  completed (progressionStats planMixedCredits staged 1 2) = 4 + 4
  ∧ current (progressionStats planMixedCredits staged 1 2) = 2
  ∧ planned (progressionStats planMixedCredits staged 1 2) = 12 + 4
  ∧ completed (progressionStats planMixedCredits staged 0 0) = 4
  ∧ current (progressionStats planMixedCredits staged 0 0) = 0
  ∧ planned (progressionStats planMixedCredits staged 0 0) = 4 + 2 + 12 + 4.
Proof.
  intros staged.
  destruct (progression_partition planMixedCredits staged 1 2)
    as ((Hc & Hk & Hp) & _ & _ & _).
  destruct (progression_partition planMixedCredits staged 0 0)
    as (_ & _ & _ & Hincoming).
  destruct Hincoming as (Hc0 & Hk0 & Hp0).
  { intros y Hy. vm_compute in Hy.
    repeat (apply elem_of_cons in Hy as [->|Hy]; [simpl; lia|]).
    by apply elem_of_nil in Hy. }
  split; [rewrite Hc; vm_compute; reflexivity|].
  split; [rewrite Hk; vm_compute; reflexivity|].
  split; [rewrite Hp; vm_compute; reflexivity|].
  split; [rewrite Hc0; vm_compute; reflexivity|].
  split; [exact Hk0|].
  rewrite Hp0. vm_compute. reflexivity.
Defined.

Lemma bucketTotal_sums ays staged cy cs b :
  bucketTotal b (progressionStats ays staged cy cs)
  = creditsIn b (counted (snapshotEntries ays staged (cy * 10 + cs))).
Proof.
  destruct (snapshot_sums ays staged cy cs) as (Hc & Hk & Hp).
  by destruct b.
Qed.

Lemma placedEntries_elem ays cur y s m :
  y ∈ ays → s ∈ y_semesters y → m ∈ s_modules s →
  mkEntry (m_code m) (creditOf m)
          (bucketAt (y_year y * 10 + semesterNumber s) cur)
  ∈ placedEntries ays cur.
Proof.
  intros Hy Hs Hm. unfold placedEntries.
  apply list_elem_of_bind. exists y. split; [|done].
  apply list_elem_of_bind. exists s. split; [|done].
  apply list_elem_of_fmap. eauto.
Qed.

(** C7.  When codes are distinct across the exempted and the placed
    modules, a placed module flagged fluff has no entry in the map of
    prerequisite violations and none in the map of offering violations,
    while its credit value (its units, 4 when they are absent or 0) is a
    summand of the total of the bucket that the order of its semester
    selects, and so of the grand total: the entries of the snapshot are the
    entry of the module and the others, and the totals are the credit value
    of the module plus the credit values of the others.  The statistics are
    those of the same plan with every fluff flag cleared. *)
Theorem fluff_unchecked_but_counted cat ays staged cy cs y s m :
  NoDup ((st_code <$> filter (fun e => st_type e = exempted) staged)
         ++ planCodes ays) →
  y ∈ ays → s ∈ y_semesters y → m ∈ s_modules s → m_fluff m = true →
  let v := checkAllConstraints cat ays staged in
  let st := progressionStats ays staged cy cs in
  let currentOrder := cy * 10 + cs in
  let order := y_year y * 10 + semesterNumber s in
  let bucket :=
    if order <? currentOrder then Completed
    else if order =? currentOrder then Current
    else Planned in
  prereqViolations v !! m_code m = None
  ∧ offeringViolations v !! m_code m = None
  ∧ (∃ others,
       snapshotEntries ays staged currentOrder
       ≡ₚ mkEntry (m_code m) (creditOf m) bucket :: others
       ∧ bucketTotal bucket st = creditOf m + creditsIn bucket others
       ∧ total st = creditOf m + sumZ (e_credit <$> others))
  ∧ (completed st = creditsIn Completed (snapshotEntries ays staged currentOrder)
     ∧ current st = creditsIn Current (snapshotEntries ays staged currentOrder)
     ∧ planned st = creditsIn Planned (snapshotEntries ays staged currentOrder))
  ∧ st = progressionStats (reflag (fun _ => false) ays) staged cy cs.
Proof.
  intros Hnd Hy Hs Hm Hfluff v st currentOrder order bucket.
  assert (NoDup (planCodes ays)) as Hplan.
  { by apply NoDup_app in Hnd as (_ & _ & ?). }
  pose proof (counted_distinct ays staged currentOrder Hnd) as Hcounted.
  assert (∀ b, bucketTotal b st
               = creditsIn b (snapshotEntries ays staged currentOrder)) as Hsum.
  { intros b. subst st. rewrite bucketTotal_sums. fold currentOrder.
    by rewrite Hcounted. }
  split; [|split; [|split; [|split]]].
  - subst v. rewrite (recorded_prereq cat ays staged y s m) by done.
    unfold prereqOutcome. by rewrite Hfluff.
  - subst v. rewrite (recorded_offering cat ays staged y s m) by done.
    unfold offeringOutcome. by rewrite Hfluff.
  - assert (mkEntry (m_code m) (creditOf m) bucket
            ∈ snapshotEntries ays staged currentOrder) as Hin.
    { unfold snapshotEntries. apply elem_of_app. right.
      by apply (placedEntries_elem ays currentOrder y s m). }
    apply elem_of_Permutation in Hin as [others Hperm].
    exists others. split; [done|]. split.
    + rewrite Hsum, (creditsIn_perm _ _ _ Hperm). cbn [creditsIn e_bucket e_credit].
      by rewrite bool_decide_eq_true_2.
    + unfold total.
      change (completed st) with (bucketTotal Completed st).
      change (current st) with (bucketTotal Current st).
      change (planned st) with (bucketTotal Planned st).
      rewrite !Hsum, creditsIn_all.
      rewrite (sumZ_perm _ _ (fmap_Permutation e_credit _ _ Hperm)).
      rewrite fmap_cons. unfold sumZ. cbn [foldr e_credit]. done.
  - split; [apply (Hsum Completed)|]. split; [apply (Hsum Current)|apply (Hsum Planned)].
  - subst st. rewrite !progressionStats_ledger. unfold ledger.
    by rewrite planLedger_reflag.
Qed.

Lemma fluff_unchecked_but_counted_witness :
  let staged := [mkStaged "2" "MA1301" exempted 4] in
  prereqViolations (checkAllConstraints scenarioCatalog planMixedCredits staged)
  !! "CFG1002" = None
  ∧ offeringViolations (checkAllConstraints scenarioCatalog planMixedCredits staged)
    !! "CFG1002" = None
  ∧ current (progressionStats planMixedCredits staged 1 2) = 2
  ∧ ∃ others,
      total (progressionStats planMixedCredits staged 1 2)
      = 2 + sumZ (e_credit <$> others).
Proof.
  intros staged.
  assert (NoDup ((st_code <$> filter (fun e => st_type e = exempted) staged)
                 ++ planCodes planMixedCredits)) as Hnd.
  { apply NoDup_holds. vm_compute. reflexivity. }
  destruct (fluff_unchecked_but_counted scenarioCatalog planMixedCredits staged
              1 2 (mkYear 1 "Year 1" "2025/2026" 6
                     [ mkSemester 1 "Semester 1" 4 [cs1101s] false;
                       mkSemester 2 "Semester 2" 2 [cfgFluff] false ])
              (mkSemester 2 "Semester 2" 2 [cfgFluff] false) cfgFluff Hnd)
    as (Hp & Ho & (others & _ & _ & Ht) & (_ & Hk & _) & _).
  - apply list_elem_of_here.
  - apply list_elem_of_further, list_elem_of_here.
  - apply list_elem_of_here.
  - reflexivity.
  - split; [exact Hp|]. split; [exact Ho|]. split.
    + rewrite Hk. vm_compute. reflexivity.
    + exists others. exact Ht.
Defined.

(** ** Duplicate placements *)

Lemma targetFound_true ays targetSemId :
  targetFound ays targetSemId = true
  ↔ ∃ y s, y ∈ ays ∧ s ∈ y_semesters y ∧ s_id s = targetSemId.
Proof.
  unfold targetFound. rewrite existsb_elem_of. split.
  - intros (y & Hy & (s & Hs & Hid%Z.eqb_eq)%existsb_elem_of). eauto.
  - intros (y & s & Hy & Hs & Hid). exists y. split; [done|].
    apply existsb_elem_of. exists s. split; [done|]. by apply Z.eqb_eq.
Qed.

(** C5 (amended).  A drop onto an existing semester, other than the one the
    card is dragged from, of a code that a semester other than the drag
    source already holds is rejected: the plan and the exempted modules are
    unchanged, the drag ends, the target semester is set to shake, and the
    toast names the code (and no semester). *)
Theorem duplicate_drop_rejected b targetSemId insertAtIndex code source sourceId :
  draggingModule b = Some (mkDragging code source sourceId) →
  ¬ (source = fromSemester ∧ sourceId = Some targetSemId) →
  (∃ y s, y ∈ academicYears b ∧ s ∈ y_semesters y ∧ s_id s = targetSemId) →
  (∃ y s m, y ∈ academicYears b ∧ s ∈ y_semesters y
            ∧ ¬ (source = fromSemester ∧ Some (s_id s) = sourceId)
            ∧ m ∈ s_modules s ∧ m_code m = code) →
  let b' := handleDrop b targetSemId insertAtIndex in
  academicYears b' = academicYears b
  ∧ stagedModules b' = stagedModules b
  ∧ toast b' = Some (mkToast (code +:+ " already exists in your study plan")
                             toastError)
  ∧ shakingSemId b' = Some targetSemId
  ∧ draggingModule b' = None.
Proof.
  intros Hdrag Hmove Hfound%targetFound_true Hheld. unfold handleDrop.
  rewrite Hdrag. apply moduleExistsInPlan_true in Hheld.
  assert (bool_decide (source = fromSemester)
          && bool_decide (sourceId = Some targetSemId) = false) as ->.
  { apply not_true_is_false. rewrite andb_true_iff, !bool_decide_eq_true. done. }
  rewrite Hfound, Hheld. simpl. done.
Qed.

Lemma duplicate_drop_rejected_witness :
  academicYears (handleDrop (boardTwice 1) 21 None) = academicYears (boardTwice 1)
  ∧ toast (handleDrop (boardTwice 1) 21 None)
    = Some (mkToast "CS1101S already exists in your study plan" toastError)
  ∧ shakingSemId (handleDrop (boardTwice 1) 21 None) = Some 21.
Proof.
  destruct (duplicate_drop_rejected (boardTwice 1) 21 None "CS1101S"
              fromSemester (Some 12) eq_refl)
    as (Hplan & _ & Htoast & Hshake & _).
  - intros [_ [=]].
  - apply targetFound_true. reflexivity.
  - apply moduleExistsInPlan_true. reflexivity.
  - split; [exact Hplan|]. split; [exact Htoast|exact Hshake].
Defined.

(** C5 as stated fails: [CS1101S] is dragged from the second of two
    semesters that hold it onto semester 1 of year 2; the feedback of the
    rejected drop is the same whether the other holder is semester 1 of year
    1 or semester 1 of year 3, so no reading of the feedback tells which
    semester holds the code. *)
Lemma rejection_names_no_semester : ¬ rejectionTellsHolder.
Proof.
  intros (informs & Hinforms).
  assert (∀ k, k = 1 ∨ k = 3 →
               informs (feedback (handleDrop (boardTwice k) 21 None))
               ∈ otherHolders (academicYears (boardTwice k)) "CS1101S"
                   (k * 10 + 2)) as Hk.
  { intros k Hk.
    apply (Hinforms (boardTwice k) 21 None "CS1101S" (k * 10 + 2)).
    - reflexivity.
    - destruct Hk as [-> | ->]; discriminate.
    - apply targetFound_true. by destruct Hk as [-> | ->].
    - apply moduleExistsInPlan_true. by destruct Hk as [-> | ->]. }
  pose proof (Hk 1 (or_introl eq_refl)) as H1.
  pose proof (Hk 3 (or_intror eq_refl)) as H3.
  vm_compute in H1, H3.
  apply list_elem_of_singleton in H1. apply list_elem_of_singleton in H3.
  rewrite H1 in H3. discriminate H3.
Qed.

(** ** Adding a special term *)

Lemma existsb_name_false termType (ss : list Semester) :
  existsb (fun s => String.eqb (s_name s) termType) ss = false
  ↔ ∀ s, s ∈ ss → s_name s ≠ termType.
Proof.
  split.
  - intros Hex s Hs Hname.
    pose proof (proj1 (existsb_false_elem_of _ _) Hex s Hs) as Hne.
    cbv beta in Hne. rewrite Hname, String.eqb_refl in Hne. done.
  - intros Hall. apply existsb_false_elem_of. intros s Hs.
    apply String.eqb_neq. by apply Hall.
Qed.

(** X12.  [addSpecialTerm] adds one empty semester and nothing else: a
    year with the given number that has no semester of the given name gets a
    semester of that name, with the id [yearNum * 100 + 3] for
    [Special Term 1] and [yearNum * 100 + 4] otherwise, no units, no modules
    and no exchange flag, after the semesters it has; every other year, and
    every other field, is kept.  The codes of the plan, the violations, the
    progress statistics and the set of taken modules do not change, and
    adding the same term a second time changes nothing. *)
Theorem addSpecialTerm_neutral cat ays staged cy cs yearNum termType :
  let ays' := addSpecialTerm ays yearNum termType in
  let newTerm :=
    mkSemester (yearNum * 100 + (if String.eqb termType "Special Term 1"
                                 then 3 else 4))
               termType 0 [] false in
  length ays' = length ays
  ∧ (∀ i y, ays !! i = Some y →
       ∃ y', ays' !! i = Some y'
         ∧ y_year y' = y_year y ∧ y_label y' = y_label y
         ∧ y_academicYear y' = y_academicYear y
         ∧ y_totalUnits y' = y_totalUnits y
         ∧ (y_year y = yearNum →
            (∀ s, s ∈ y_semesters y → s_name s ≠ termType) →
            y_semesters y' = y_semesters y ++ [newTerm])
         ∧ (y_year y ≠ yearNum
            ∨ (∃ s, s ∈ y_semesters y ∧ s_name s = termType) →
            y_semesters y' = y_semesters y))
  ∧ planCodes ays' = planCodes ays
  ∧ checkAllConstraints cat ays' staged = checkAllConstraints cat ays staged
  ∧ progressionStats ays' staged cy cs = progressionStats ays staged cy cs
  ∧ allTakenModules ays' staged cy cs = allTakenModules ays staged cy cs
  ∧ addSpecialTerm ays' yearNum termType = ays'.
Proof.
  intros ays' newTerm. subst ays'.
  assert (∀ ord, completedBefore (addSpecialTerm ays yearNum termType) staged ord
                 = completedBefore ays staged ord) as Hbefore.
  { intros ord. unfold completedBefore, semOrder. f_equal.
    apply (bind_addSpecialTerm
             (fun yr s => if yr * 10 + semNumOf (s_name s) <? ord
                          then m_code <$> s_modules s else [])).
    intros yr i name. simpl. by destruct (_ <? _). }
  split; [|split; [|split; [|split; [|split; [|split]]]]].
  - unfold addSpecialTerm. apply length_fmap.
  - intros i y Hi. unfold addSpecialTerm. rewrite list_lookup_fmap, Hi.
    cbn [fmap option_fmap option_map].
    destruct (Z.eqb_spec (y_year y) yearNum) as [Hy|Hy].
    + destruct (existsb _ (y_semesters y)) eqn:Hex.
      * eexists. split; [done|]. split_and!; try done.
        -- intros _ Hnone. apply (proj2 (existsb_name_false _ _)) in Hnone.
           by rewrite Hnone in Hex.
      * eexists. split; [done|]. cbn [y_year y_label y_academicYear y_totalUnits
                                      y_semesters].
        split_and!; try done.
        intros [?|(s & Hs & Hname)]; [done|].
        by destruct (proj1 (existsb_name_false _ _) Hex s Hs).
    + eexists. split; [done|]. split_and!; done.
  - rewrite <-!tasksOf_codes. f_equal. unfold tasksOf, semOrder.
    by apply (bind_addSpecialTerm
                (fun yr s => (fun m => mkTask m (yr * 10 + semNumOf (s_name s))
                                              (semNumOf (s_name s)))
                             <$> s_modules s)).
  - rewrite !checkAllConstraints_tasks.
    assert (tasksOf (addSpecialTerm ays yearNum termType) = tasksOf ays) as ->.
    { unfold tasksOf, semOrder.
      by apply (bind_addSpecialTerm
                  (fun yr s => (fun m => mkTask m (yr * 10 + semNumOf (s_name s))
                                                (semNumOf (s_name s)))
                               <$> s_modules s)). }
    apply foldl_ext_elem. intros v t. unfold checkTask. by rewrite Hbefore.
  - rewrite !progressionStats_ledger. unfold ledger.
    assert (planLedger (addSpecialTerm ays yearNum termType) (cy * 10 + cs)
            = planLedger ays (cy * 10 + cs)) as ->; [|done].
    unfold planLedger, semOrder.
    by apply (bind_addSpecialTerm
                (fun yr s => (fun m => mkEntry (m_code m) (unitsOrFour m)
                                        (bucketOf (yr * 10 + semNumOf (s_name s))
                                                  (cy * 10 + cs)))
                             <$> s_modules s)).
  - pose proof (Hbefore (cy * 10 + cs)) as Hcur.
    unfold completedBefore in Hcur. apply app_inv_tail in Hcur.
    unfold allTakenModules. cbv zeta. by rewrite Hcur.
  - apply addSpecialTerm_idem.
Qed.

Example addSpecialTerm_default :
  y_semesters <$> addSpecialTerm DEFAULT_PLAN 2 "Special Term 2" !! 1%nat
  = Some [ mkSemester 3 "Semester 1" 0 [] false;
           mkSemester 4 "Semester 2" 0 [] false;
           mkSemester 204 "Special Term 2" 0 [] false ].
Proof. vm_compute. reflexivity. Qed.

(** ** Conversion of a generated plan *)

Lemma convertModules_fields plan codes m :
  m ∈ convertModules plan codes →
  m_code m ∈ codes
  ∧ m_title m = match gp_courses plan !! m_code m with
                | Some ci => if String.eqb (ci_title ci) "" then m_code m
                             else ci_title ci
                | None => m_code m
                end
  ∧ m_units m = Some match gp_courses plan !! m_code m with
                     | Some ci => if ci_credit ci =? 0 then 4 else ci_credit ci
                     | None => 4
                     end
  ∧ m_fluff m = match gp_courses plan !! m_code m with
                | Some ci => default false (ci_fluff ci)
                | None => false
                end.
Proof.
  unfold convertModules. intros (c & -> & Hc)%list_elem_of_fmap.
  cbn [m_code m_title m_units m_fluff]. split; [done|].
  by destruct (gp_courses plan !! c).
Qed.

Lemma sumUnits_convertModules plan codes :
  sumUnits (convertModules plan codes)
  = sumZ ((fun code => match gp_courses plan !! code with
                       | Some ci => if ci_credit ci =? 0 then 4 else ci_credit ci
                       | None => 4
                       end) <$> codes).
Proof.
  rewrite sumUnits_sumZ. f_equal. unfold convertModules.
  rewrite <-list_fmap_compose. apply list_fmap_ext. intros _ c _.
  unfold unitsOrFour. cbn [compose m_units default].
  apply (orFour_creditOrFour (gp_courses plan !! c)).
Qed.

(** X21.  Processing a generated plan replaces the plan by the years 1 to 4,
    each with [Semester 1] and [Semester 2] in this order; the semester of
    year [n] and number [k] has the id [n * 10 + k], which is its order, and
    holds the codes that the response lists under the key [y<n>s<k>], in
    their order, and none when the key is missing; it is flagged as
    exchange semester exactly when the response names its key.  Each module
    takes its title, credits and fluff flag from the course table of the
    response: the code stands for a missing or empty title and 4 for
    missing or zero credits.  The units stored for a semester are the sum of
    these credits and those stored for a year the sum over its two
    semesters.  The exempted modules are replaced, by modules converted in
    the same way, only when the response lists them. *)
Theorem processGeneratedPlan_board b startAcademicYear plan :
  let b' := processGeneratedPlan b startAcademicYear plan in
  let codesAt key := default [] (gp_plan plan !! key) in
  let isSep key := bool_decide (Some key = gp_sep_semester plan) in
  let credit code :=
    match gp_courses plan !! code with
    | Some ci => if ci_credit ci =? 0 then 4 else ci_credit ci
    | None => 4
    end in
  (fun y => (y_year y, y_label y,
             (fun s => (s_id s, s_name s, codesOf s, s_isExchange s))
             <$> y_semesters y)) <$> academicYears b'
  = [ (1, "Year 1", [ (11, "Semester 1", codesAt "y1s1", isSep "y1s1");
                      (12, "Semester 2", codesAt "y1s2", isSep "y1s2") ]);
      (2, "Year 2", [ (21, "Semester 1", codesAt "y2s1", isSep "y2s1");
                      (22, "Semester 2", codesAt "y2s2", isSep "y2s2") ]);
      (3, "Year 3", [ (31, "Semester 1", codesAt "y3s1", isSep "y3s1");
                      (32, "Semester 2", codesAt "y3s2", isSep "y3s2") ]);
      (4, "Year 4", [ (41, "Semester 1", codesAt "y4s1", isSep "y4s1");
                      (42, "Semester 2", codesAt "y4s2", isSep "y4s2") ]) ]
  ∧ (∀ y s m, y ∈ academicYears b' → s ∈ y_semesters y → m ∈ s_modules s →
       m_title m = match gp_courses plan !! m_code m with
                   | Some ci => if String.eqb (ci_title ci) "" then m_code m
                                else ci_title ci
                   | None => m_code m
                   end
       ∧ m_units m = Some (credit (m_code m))
       ∧ credit (m_code m) ≠ 0
       ∧ m_fluff m = match gp_courses plan !! m_code m with
                     | Some ci => default false (ci_fluff ci)
                     | None => false
                     end)
  ∧ (∀ y s, y ∈ academicYears b' → s ∈ y_semesters y →
       s_id s = y_year y * 10 + semesterNumber s
       ∧ s_units s = sumZ (credit <$> codesOf s))
  ∧ (∀ y, y ∈ academicYears b' →
       y_totalUnits y = sumZ (s_units <$> y_semesters y))
  ∧ uniqueSemesterIds (academicYears b')
  ∧ stagedModules b'
    = match gp_exempted plan with
      | Some codes =>
          (fun code => mkStaged code code exempted (credit code)) <$> codes
      | None => stagedModules b
      end.
Proof.
  intros b' codesAt isSep credit. subst b'. unfold processGeneratedPlan.
  cbv zeta. cbn [academicYears stagedModules].
  set (startYear := parseAcademicYear startAcademicYear). clearbody startYear.
  assert (∀ yearNum s,
            s ∈ y_semesters (convertYear startYear plan yearNum) →
            ∃ codes, s_modules s = convertModules plan codes
                     ∧ s_units s = sumUnits (convertModules plan codes)
                     ∧ s_id s = yearNum * 10 + semesterNumber s) as Hsem.
  { intros yearNum s. unfold convertYear. cbv zeta. cbn [y_semesters].
    intros [->|[->|[]%elem_of_nil]%elem_of_cons]%elem_of_cons;
      eexists; cbn [s_modules s_units s_id]; (split; [done|split; [done|]]);
      reflexivity. }
  split; [|split; [|split; [|split; [|split]]]].
  - rewrite !fmap_cons, fmap_nil. unfold convertYear. cbv zeta.
    cbn [y_year y_label y_semesters fmap list_fmap s_id s_name s_isExchange].
    unfold codesOf. cbn [s_modules]. rewrite !convertModules_codes.
    reflexivity.
  - intros y s m (yearNum & -> & _)%list_elem_of_fmap Hs Hm.
    destruct (Hsem yearNum s Hs) as (codes & Hmods & _). rewrite Hmods in Hm.
    destruct (convertModules_fields plan codes m Hm) as (_ & Ht & Hu & Hf).
    split; [done|]. split; [done|]. split; [|done].
    subst credit. cbv beta. destruct (gp_courses plan !! m_code m) as [ci|]; [|done].
    destruct (Z.eqb_spec (ci_credit ci) 0); done.
  - intros y s (yearNum & -> & _)%list_elem_of_fmap Hs.
    destruct (Hsem yearNum s Hs) as (codes & Hmods & Hunits & Hid).
    split; [done|]. rewrite Hunits, sumUnits_convertModules.
    unfold codesOf. by rewrite Hmods, convertModules_codes.
  - intros y (yearNum & -> & _)%list_elem_of_fmap.
    unfold convertYear. cbv zeta. cbn [y_totalUnits y_semesters].
    rewrite !fmap_cons, fmap_nil. cbn [s_units]. unfold sumZ. cbn [foldr]. lia.
  - unfold uniqueSemesterIds, planSemesters.
    rewrite !fmap_cons, !bind_cons, fmap_nil, bind_nil_list.
    unfold convertYear. cbv zeta. cbn [y_semesters app fmap list_fmap s_id].
    apply (bool_decide_eq_true_1 _). by vm_compute.
  - destruct (gp_exempted plan) as [codes|]; [|done].
    unfold convertExempted. apply list_fmap_ext. intros _ c _.
    subst credit. cbv beta. unfold creditOrFour, Js.orFour.
    by destruct (gp_courses plan !! c).
Qed.

Example processGeneratedPlan_example :
  (fun y => (fun s => (s_id s, s_units s, s_modules s)) <$> y_semesters y)
  <$> take 1 (academicYears
                (processGeneratedPlan initialBoard "AY24/25" generatedExample))
  = [ [ (11, 8, [ mkModule "CS1101S" "Programming Methodology" (Some 4) false;
                  mkModule "MA1521" "MA1521" (Some 4) false ]);
        (12, 2, [ mkModule "CFG1002" "Career Catalyst" (Some 2) true ]) ] ].
Proof. vm_compute. reflexivity. Qed.
